(** * kidChef: the recipe-extraction pipeline of [functions/src/index.ts]

    A shallow embedding of the scraping cloud function and of its compiled
    twin [functions/lib/index.js], with the properties of the extraction
    engine stated over it, followed by the callable entry point and by the
    client service [src/services/recipeImport.ts] that calls it.

    Modelling conventions.
    - A JavaScript value produced by [JSON.parse] (or read from such a value)
      is a term of [JS.value]; an object is the list of its own properties,
      the first binding of a key being the one that is read.
    - A string is a [string] of code units below 256 (Latin-1).
    - A number that [JSON.parse] hands over is an integer; numbers with a
      fraction are outside the model.  What [parseInt] computes is a
      [JS.number]: [NaN], an infinity, or a double that is a whole number,
      held as the integer it equals.  The integers up to [2^53] in
      magnitude are doubles; a longer digit run is rounded to the nearest
      double, ties to the even mantissa, as V8 does.  Negative zero is
      identified with zero: the program never divides by one or compares
      one with [Object.is].
    - A thrown exception is the [Throw] of [JS.outcome].
    - The platform and the libraries ([JSON.parse], cheerio, axios) are not
      code of the repository: the parsed page is a [Dom.document] answering
      selector queries, [JSON.parse] is a section variable, and the outcome
      of the HTTP request is an input of the orchestrator. *)

From Stdlib Require Import String Ascii List ZArith NArith Bool Lia DecimalString.
Import ListNotations.

Set Warnings "-register-all".

Local Open Scope list_scope.
Local Open Scope string_scope.

(** ** JavaScript values and the built-ins the program calls *)

Module JS.

(** Besides what [JSON.parse] returns, [VUndef] for [undefined] and
    [VInfinity] for the two infinite Numbers, which [parseInt] can
    return. *)
Inductive value : Type :=
| VUndef
| VNull
| VBool (b : bool)
| VNum (n : Z)
| VStr (s : string)
| VArr (items : list value)
| VObj (fields : list (string * value))
| VInfinity (negative : bool).

Inductive exn : Type :=
| TypeError
| Error (message : string)
| AxiosError (code : option string) (status : option Z).

Inductive outcome (A : Type) : Type :=
| Ret (a : A)
| Throw (e : exn).

Arguments Ret {A} a.
Arguments Throw {A} e.

Definition bind {A B : Type} (m : outcome A) (k : A -> outcome B) : outcome B :=
  match m with
  | Ret a => k a
  | Throw e => Throw e
  end.

(** [ToBoolean] *)
Definition truthy (v : value) : bool :=
  match v with
  | VUndef | VNull => false
  | VBool b => b
  | VNum n => negb (n =? 0)%Z
  | VStr s => negb (s =? "")
  | VArr _ | VObj _ => true
  | VInfinity _ => true
  end.

(** [a || b] *)
Definition or_else (a b : value) : value := if truthy a then a else b.

Fixpoint lookup (k : string) (fs : list (string * value)) : value :=
  match fs with
  | [] => VUndef
  | (k', v) :: rest => if k' =? k then v else lookup k rest
  end.

(** [v[k]] for a [v] that is neither [null] nor [undefined].  The keys the
    program reads are not members of any built-in prototype, so only an
    object answers with something else than [undefined]. *)
Definition get (v : value) (k : string) : value :=
  match v with
  | VObj fs => lookup k fs
  | _ => VUndef
  end.

(** [v[k]] in general: reading a property of [null] or [undefined] throws. *)
Definition member (v : value) (k : string) : outcome value :=
  match v with
  | VUndef | VNull => Throw TypeError
  | _ => Ret (get v k)
  end.

(** [v?.[k]] *)
Definition opt_member (v : value) (k : string) : value :=
  match v with
  | VUndef | VNull => VUndef
  | _ => get v k
  end.

(** [v === s] for a string literal [s] *)
Definition strict_eq_str (v : value) (s : string) : bool :=
  match v with
  | VStr s' => s' =? s
  | _ => false
  end.

(** [v === null] and [v === void 0] *)
Definition is_null (v : value) : bool :=
  match v with
  | VNull => true
  | _ => false
  end.

Definition is_undefined (v : value) : bool :=
  match v with
  | VUndef => true
  | _ => false
  end.

Definition is_array (v : value) : bool :=
  match v with
  | VArr _ => true
  | _ => false
  end.

(** *** Characters and strings *)

Definition is_digit (c : ascii) : bool :=
  ((48 <=? N_of_ascii c) && (N_of_ascii c <=? 57))%N.

(** [WhiteSpace] and [LineTerminator] among the code units below 256: what
    [\s] matches and what [trim] removes. *)
Definition is_space (c : ascii) : bool :=
  let n := N_of_ascii c in
  (((9 <=? n) && (n <=? 13)) || (n =? 32) || (n =? 160))%N.

Fixpoint trimStart (s : string) : string :=
  match s with
  | "" => ""
  | String c s' => if is_space c then trimStart s' else s
  end.

Fixpoint trimEnd (s : string) : string :=
  match s with
  | "" => ""
  | String c s' =>
      match trimEnd s' with
      | "" => if is_space c then "" else String c ""
      | t => String c t
      end
  end.

Definition trim (s : string) : string := trimEnd (trimStart s).

(** The longest prefix of decimal digits, and what follows it. *)
Fixpoint span_digits (s : string) : string * string :=
  match s with
  | "" => ("", "")
  | String c s' =>
      if is_digit c
      then let (d, r) := span_digits s' in (String c d, r)
      else ("", s)
  end.

(** *** Numbers *)

Definition digit_val (c : ascii) : option Z :=
  let n := Z.of_N (N_of_ascii c) in
  if ((48 <=? n) && (n <=? 57))%Z then Some (n - 48)%Z
  else if ((97 <=? n) && (n <=? 122))%Z then Some (n - 87)%Z
  else if ((65 <=? n) && (n <=? 90))%Z then Some (n - 55)%Z
  else None.

Fixpoint radix_prefix (r : Z) (s : string) : list Z :=
  match s with
  | "" => []
  | String c s' =>
      match digit_val c with
      | Some d => if (d <? r)%Z then d :: radix_prefix r s' else []
      | None => []
      end
  end.

Definition digits_value (r : Z) (ds : list Z) : Z :=
  fold_left (fun acc d => acc * r + d)%Z ds 0%Z.

Definition parse_radix (r : Z) (s : string) : option Z :=
  match radix_prefix r s with
  | [] => None
  | ds => Some (digits_value r ds)
  end.

Definition strip_sign (s : string) : Z * string :=
  match s with
  | String c s' =>
      if Ascii.eqb c "-" then ((-1)%Z, s')
      else if Ascii.eqb c "+" then (1%Z, s')
      else (1%Z, s)
  | "" => (1%Z, s)
  end.

(** Does [s] start with [0x] or [0X]? *)
Definition hex_prefix (s : string) : option string :=
  match s with
  | String c0 (String c1 rest) =>
      if Ascii.eqb c0 "0" && (Ascii.eqb c1 "x" || Ascii.eqb c1 "X")
      then Some rest else None
  | _ => None
  end.

(** A Number that [parseInt] can return.  Every double from [2^53] on is a
    whole number, so a finite one is held as the integer it equals. *)
Inductive number : Type :=
| NaN
| Finite (z : Z)
| Infinite (negative : bool).

(** Up to [2^53] every integer is a double. *)
Definition exact_bound : Z := (2 ^ 53)%Z.

(** The double nearest to the integer [a >= 0], ties to the even mantissa of
    53 bits; [None] when that is beyond the largest double. *)
Definition round_magnitude (a : Z) : option Z :=
  if (a <=? exact_bound)%Z then Some a
  else
    let e := (Z.log2 a - 52)%Z in
    let q := (a / 2 ^ e)%Z in
    let r := (a mod 2 ^ e)%Z in
    let half := (2 ^ (e - 1))%Z in
    let q' := if (half <? r)%Z || ((r =? half)%Z && Z.odd q) then (q + 1)%Z else q in
    let v := (q' * 2 ^ e)%Z in
    if (2 ^ 1024 <=? v)%Z then None else Some v.

(** The Number value of a mathematical integer. *)
Definition to_number (z : Z) : number :=
  match round_magnitude (Z.abs z) with
  | Some v => Finite (Z.sgn z * v)
  | None => Infinite (z <? 0)%Z
  end.

(** [parseInt(s)] with no radix argument: leading white space, an optional
    sign, an optional [0x] prefix, then the longest run of digits; the
    integer they denote is returned as a Number. *)
Definition parseInt (s : string) : number :=
  let (sign, body) := strip_sign (trimStart s) in
  let r :=
    match hex_prefix body with
    | Some rest => parse_radix 16 rest
    | None => parse_radix 10 body
    end in
  match r with
  | Some magnitude => to_number (sign * magnitude)
  | None => NaN
  end.

(** [ToBoolean] of a number *)
Definition num_truthy (n : number) : bool :=
  match n with
  | Finite z => negb (z =? 0)%Z
  | Infinite _ => true
  | NaN => false
  end.

(** The decimal numeral of an integer, without leading zeros. *)
Definition decimal_numeral (z : Z) : string := NilZero.string_of_int (Z.to_int z).

Fixpoint zeros (n : nat) : string :=
  match n with
  | O => ""
  | S n' => String "0" (zeros n')
  end.

(** [Number::toString] looks for the fewest digits [s] (there are [k] of
    them) such that [s * 10^(n-k)] is read back as the same double.  For a
    double [a] above [2^53] and a given [k], only the two multiples of
    [10^(n-k)] around [a] can qualify; of two that do, the nearer is taken,
    the even one when they are as near. *)
Definition shortest_at (a : Z) (n k : nat) : option Z :=
  let p := (10 ^ Z.of_nat (n - k))%Z in
  let lo := (a / p)%Z in
  let hi := (lo + 1)%Z in
  let reads_back s :=
    match round_magnitude (s * p) with
    | Some v => (v =? a)%Z
    | None => false
    end in
  match reads_back lo, reads_back hi with
  | true, true =>
      let below := (a - lo * p)%Z in
      let above := (hi * p - a)%Z in
      if (below <? above)%Z then Some lo
      else if (above <? below)%Z then Some hi
      else if Z.even lo then Some lo else Some hi
  | true, false => Some lo
  | false, true => Some hi
  | false, false => None
  end.

Fixpoint shortest_from (a : Z) (n k fuel : nat) : Z * nat :=
  match fuel with
  | O => (a, n)
  | S fuel' =>
      match shortest_at a n k with
      | Some s => (s, k)
      | None => shortest_from a n (S k) fuel'
      end
  end.

(** [ToString] of a double [a] above [2^53]: the shortest digits followed
    by zeros while there are at most 21 digits in all, the exponent
    notation from there on. *)
Definition big_to_string (a : Z) : string :=
  let width := String.length (decimal_numeral a) in
  let rounds_up :=
    match round_magnitude (10 ^ Z.of_nat width) with
    | Some v => (v =? a)%Z
    | None => false
    end in
  let '(s, k, n) :=
    if rounds_up then (1%Z, 1%nat, S width)
    else let (s, k) := shortest_from a width 1 width in (s, k, width) in
  let ds := decimal_numeral s in
  if (n <=? 21)%nat then ds ++ zeros (n - k)
  else
    match ds with
    | String c "" => String c "" ++ "e+" ++ decimal_numeral (Z.of_nat (n - 1))
    | String c rest => String c ("." ++ rest) ++ "e+" ++ decimal_numeral (Z.of_nat (n - 1))
    | "" => ""
    end.

(** [ToString] of a number *)
Definition num_to_string (n : number) : string :=
  match n with
  | NaN => "NaN"
  | Infinite false => "Infinity"
  | Infinite true => "-Infinity"
  | Finite z =>
      if (Z.abs z <=? exact_bound)%Z then decimal_numeral z
      else if (z <? 0)%Z then "-" ++ big_to_string (Z.abs z)
      else big_to_string z
  end.

(** The double quote of a selector literal. *)
Definition dq : string := String (ascii_of_nat 34) "".

(** [ToString(undefined)], which is what [parseInt] sees when its argument
    is a missing array element. *)
Definition undefined_to_string : string := "undefined".

End JS.

(** ** The regular expressions of the program *)

Module Regex.
Import JS.

(** [(?:(\d+)X)?] at the head of [s]: the capture and what follows the
    match.  [\d+] is greedy and a shorter run is followed by a digit, so the
    group takes part exactly when the longest run of digits is not empty
    and is followed by [X]. *)
Definition opt_group (X : ascii) (s : string) : option string * string :=
  let (d, r) := span_digits s in
  match d, r with
  | String _ _, String c r' => if Ascii.eqb c X then (Some d, r') else (None, s)
  | _, _ => (None, s)
  end.

(** What follows the leftmost occurrence of [PT]. *)
Fixpoint after_PT (s : string) : option string :=
  match s with
  | "" => None
  | String c s' =>
      match s' with
      | String c' r =>
          if Ascii.eqb c "P" && Ascii.eqb c' "T" then Some r else after_PT s'
      | "" => None
      end
  end.

(** [s.match(/PT(?:(\d+)H)?(?:(\d+)M)?/)]: [None] when there is no match,
    otherwise the two captures.  Both groups are optional, so the match
    succeeds at the leftmost [PT]. *)
Definition match_duration (s : string) : option (option string * option string) :=
  match after_PT s with
  | None => None
  | Some r =>
      let (h, r1) := opt_group "H" r in
      let (m, _) := opt_group "M" r1 in
      Some (h, m)
  end.

(** [s.replace(/^\d+\.\s*/, '')] *)
Definition replace_ordinal (s : string) : string :=
  let (d, r) := span_digits s in
  match d, r with
  | String _ _, String c r' => if Ascii.eqb c "." then trimStart r' else s
  | _, _ => s
  end.

End Regex.

(** ** The page as cheerio presents it *)

Module Dom.

(** An element of the parsed page: [.text()], [.html()], [.attr(name)] and
    [.find(selector)], the matching descendants in document order. *)
Inductive element : Type :=
| Element (text : string) (html : option string)
          (attr : string -> option string) (find : string -> list element).

Definition text (e : element) : string :=
  let (t, _, _, _) := e in t.

Definition html (e : element) : option string :=
  let (_, h, _, _) := e in h.

Definition attr (e : element) (name : string) : option string :=
  let (_, _, a, _) := e in a name.

Definition find (e : element) (selector : string) : list element :=
  let (_, _, _, f) := e in f selector.

(** [$(selector)]: the matching elements in document order. *)
Record document : Type := { select : string -> list element }.

End Dom.

(** ** The shapes both files share *)

Module Schema.
Import JS.

(** [Partial<ScrapedRecipe>]: what one extractor hands to the orchestrator.
    A field the object literal leaves out reads as [VUndef]. *)
Record partial : Type := mkPartial {
  p_title : value;
  p_description : value;
  p_image : value;
  p_prepTime : value;
  p_cookTime : value;
  p_totalTime : value;
  p_servings : value;
  p_difficulty : value;
  p_ingredients : value;
  p_instructions : value;
  p_tags : value
}.

Record ScrapedRecipe : Type := mkScrapedRecipe {
  title : value;
  description : value;
  image : value;
  prepTime : value;
  cookTime : value;
  totalTime : value;
  servings : value;
  difficulty : value;
  ingredients : value;
  instructions : value;
  sourceUrl : string;
  tags : value
}.

(** What [axios.get] followed by [cheerio.load] leaves the function with. *)
Inductive fetched : Type :=
| Loaded (page : Dom.document)
| Rejected (e : exn).

End Schema.

(** ** The function as written: [functions/src/index.ts] *)

Module Src.
Import JS Regex Schema.

Definition extractText (v : value) : value :=
  match v with
  | VStr _ => v
  | _ =>
      if truthy v && truthy (get v "text") then get v "text"
      else if truthy v && truthy (get v "@value") then get v "@value"
      else VStr ""
  end.

Definition extractArray (v : value) : list value :=
  if negb (truthy v) then []
  else match v with
       | VArr items => filter truthy (map extractText items)
       | _ => filter truthy [extractText v]
       end.

Definition extractTime (duration : value) : value :=
  if negb (truthy duration) then VStr ""
  else
    let raw := extractText duration in
    match duration with
    | VStr d =>
        match match_duration d with
        | Some (g1, g2) =>
            let hours := match g1 with Some g => parseInt g | None => Finite 0 end in
            let minutes := match g2 with Some g => parseInt g | None => Finite 0 end in
            if num_truthy hours && num_truthy minutes
            then VStr (num_to_string hours ++ "h " ++ num_to_string minutes ++ "min")
            else if num_truthy hours then VStr (num_to_string hours ++ "h")
            else if num_truthy minutes then VStr (num_to_string minutes ++ "min")
            else raw
        | None => raw
        end
    | _ => raw
    end.

Definition extractNumber (v : value) : value :=
  match v with
  | VNum _ | VInfinity _ => v
  | VStr s =>
      match parseInt s with
      | NaN => VUndef
      | Finite n => VNum n
      | Infinite negative => VInfinity negative
      end
  | _ => VUndef
  end.

(** [instruction.replace(/^\d+\.\s*/, '').trim()]; an entry that is not a
    string has no [replace] method and the call throws. *)
Definition cleanInstruction (instruction : value) : outcome value :=
  match instruction with
  | VStr s => Ret (VStr (trim (replace_ordinal s)))
  | _ => Throw TypeError
  end.

Fixpoint mapM {A B : Type} (f : A -> outcome B) (l : list A) : outcome (list B) :=
  match l with
  | [] => Ret []
  | x :: rest =>
      bind (f x) (fun y => bind (mapM f rest) (fun ys => Ret (y :: ys)))
  end.

Definition parseJsonLdRecipe (recipe : value) : outcome partial :=
  bind (member recipe "name") (fun name =>
  bind (if truthy (get recipe "recipeInstructions")
        then mapM cleanInstruction (extractArray (get recipe "recipeInstructions"))
        else Ret []) (fun instrs =>
  Ret {| p_title := extractText name;
         p_description := extractText (get recipe "description");
         p_image := extractText (or_else (opt_member (get recipe "image") "url")
                                         (get recipe "image"));
         p_prepTime := extractTime (get recipe "prepTime");
         p_cookTime := extractTime (get recipe "cookTime");
         p_totalTime := extractTime (get recipe "totalTime");
         p_servings := extractNumber (or_else (get recipe "recipeYield")
                                              (get recipe "yield"));
         p_difficulty := VUndef;
         p_ingredients := VArr (extractArray (get recipe "recipeIngredient"));
         p_instructions := VArr instrs;
         p_tags := VArr (extractArray (get recipe "recipeCategory")
                          ++ extractArray (get recipe "recipeCuisine"))%list |})).

(** Continue with the own property [k] of an object when it has one. *)
Definition on_property {R : Type} (k : string) (present : value -> R) (missing : R)
  : list (string * value) -> R :=
  fix look (fs : list (string * value)) : R :=
    match fs with
    | [] => missing
    | (k', v) :: rest => if k' =? k then present v else look rest
    end.

(** The body of the [for ... of] loop over an array, given the search on one
    item: the first truthy result is returned, a throw ends the loop. *)
Definition first_found {A : Type} (search : A -> outcome (option partial))
  : list A -> outcome (option partial) :=
  fix loop (items : list A) : outcome (option partial) :=
    match items with
    | [] => Ret None
    | item :: rest =>
        match search item with
        | Ret None => loop rest
        | other => other
        end
    end.

Fixpoint findRecipeInJsonLd (data : value) : outcome (option partial) :=
  match data with
  | VArr items => first_found findRecipeInJsonLd items
  | VUndef | VNull => Throw TypeError
  | VObj fields =>
      if strict_eq_str (get data "@type") "Recipe"
      then bind (parseJsonLdRecipe data) (fun r => Ret (Some r))
      else
        on_property "@graph"
          (fun graph => if truthy graph then findRecipeInJsonLd graph else Ret None)
          (Ret None) fields
  | _ => Ret None
  end.

Section WithParser.

(** [JSON.parse]: [None] when it throws a [SyntaxError]. *)
Variable JSON_parse : string -> option value.

Definition jsonLdSelector : string :=
  ("script[type=" ++ dq ++ "application/ld+json" ++ dq ++ "]")%string.

(** One turn of the loop over the script elements: [Some r] when the turn
    returns [r], [None] when it goes on to the next element. *)
Definition scanScript (script : Dom.element) : option partial :=
  match Dom.html script with
  | None => None
  | Some scriptContent =>
      if scriptContent =? "" then None
      else match JSON_parse scriptContent with
           | None => None
           | Some data =>
               match findRecipeInJsonLd data with
               | Ret (Some recipe) => Some recipe
               | Ret None => None
               | Throw _ => None
               end
           end
  end.

Fixpoint scanScripts (scripts : list Dom.element) : option partial :=
  match scripts with
  | [] => None
  | script :: rest =>
      match scanScript script with
      | Some recipe => Some recipe
      | None => scanScripts rest
      end
  end.

Definition extractFromJsonLd (page : Dom.document) : option partial :=
  scanScripts (Dom.select page jsonLdSelector).

End WithParser.

(** [values[0]] *)
Definition first_value (values : list string) : value :=
  match values with
  | [] => VUndef
  | v :: _ => VStr v
  end.

(** [parseInt(values[0])] *)
Definition parseInt_first (values : list string) : number :=
  match values with
  | [] => parseInt undefined_to_string
  | v :: _ => parseInt v
  end.

(** [$el.text().trim() || $el.attr('content') || ''] *)
Definition propText (el : Dom.element) : string :=
  if negb (trim (Dom.text el) =? "") then trim (Dom.text el)
  else match Dom.attr el "content" with
       | Some c => if negb (c =? "") then c else ""
       | None => ""
       end.

Definition extractProp (recipeElement : Dom.element) (prop : string) : list string :=
  filter (fun t => negb (t =? ""))
         (map propText (Dom.find recipeElement ("[itemprop=" ++ dq ++ prop ++ dq ++ "]")%string)).

(** [recipeElement.find(selector).attr(name)] *)
Definition find_attr (recipeElement : Dom.element) (selector name : string) : value :=
  match Dom.find recipeElement selector with
  | [] => VUndef
  | el :: _ =>
      match Dom.attr el name with
      | Some a => VStr a
      | None => VUndef
      end
  end.

Definition microdataSelector : string :=
  ("[itemtype*=" ++ dq ++ "schema.org/Recipe" ++ dq ++ "]")%string.

Definition extractFromMicrodata (page : Dom.document) : option partial :=
  match Dom.select page microdataSelector with
  | [] => None
  | recipeElement :: _ =>
      let title := first_value (extractProp recipeElement "name") in
      if negb (truthy title) then None
      else
        let yield := parseInt_first (extractProp recipeElement "recipeYield") in
        Some {| p_title := title;
                p_description := first_value (extractProp recipeElement "description");
                p_image := find_attr recipeElement ("[itemprop=" ++ dq ++ "image" ++ dq ++ "]")%string "src";
                p_prepTime := first_value (extractProp recipeElement "prepTime");
                p_cookTime := first_value (extractProp recipeElement "cookTime");
                p_totalTime := first_value (extractProp recipeElement "totalTime");
                p_servings := match yield with
                              | Finite n => if num_truthy yield then VNum n else VUndef
                              | Infinite negative => VInfinity negative
                              | NaN => VUndef
                              end;
                p_difficulty := VUndef;
                p_ingredients :=
                  VArr (map VStr (extractProp recipeElement "recipeIngredient"));
                p_instructions :=
                  VArr (map VStr (extractProp recipeElement "recipeInstructions"));
                p_tags := VUndef |}
  end.

Definition titleSelectors : list string :=
  [".recipe-title"; ".entry-title"; "h1.recipe-name"; ".recipe-header h1";
   ("[class*=" ++ dq ++ "recipe-title" ++ dq ++ "]")%string; ("[class*=" ++ dq ++ "recipe-name" ++ dq ++ "]")%string].

Definition ingredientSelectors : list string :=
  [".recipe-ingredient"; ".ingredient"; ".recipe-ingredients li";
   ("[class*=" ++ dq ++ "ingredient" ++ dq ++ "]")%string; ".ingredients li"].

Definition instructionSelectors : list string :=
  [".recipe-instruction"; ".instruction"; ".recipe-instructions li";
   ".recipe-method li"; ("[class*=" ++ dq ++ "instruction" ++ dq ++ "]")%string; ".directions li"].

Fixpoint findTextBySelectors (page : Dom.document) (selectors : list string) : string :=
  match selectors with
  | [] => ""
  | selector :: rest =>
      match Dom.select page selector with
      | [] => findTextBySelectors page rest
      | element :: _ =>
          let text := trim (Dom.text element) in
          if negb (text =? "") then text else findTextBySelectors page rest
      end
  end.

(** The [each] loop of [findMultipleTextBySelectors]. *)
Definition nonEmptyTexts (elements : list Dom.element) : list string :=
  filter (fun t => negb (t =? "")) (map (fun el => trim (Dom.text el)) elements).

Fixpoint findMultipleTextBySelectors (page : Dom.document) (selectors : list string)
  : list string :=
  match selectors with
  | [] => []
  | selector :: rest =>
      match nonEmptyTexts (Dom.select page selector) with
      | [] => findMultipleTextBySelectors page rest
      | texts => texts
      end
  end.

Definition extractFromCommonSelectors (page : Dom.document) : option partial :=
  let title := findTextBySelectors page titleSelectors in
  if title =? "" then None
  else
    let ingredients := findMultipleTextBySelectors page ingredientSelectors in
    let instructions := findMultipleTextBySelectors page instructionSelectors in
    if (length ingredients =? 0)%nat && (length instructions =? 0)%nat then None
    else Some {| p_title := VStr (trim title);
                 p_description := VUndef;
                 p_image := VUndef;
                 p_prepTime := VUndef;
                 p_cookTime := VUndef;
                 p_totalTime := VUndef;
                 p_servings := VUndef;
                 p_difficulty := VUndef;
                 p_ingredients := VArr (map VStr ingredients);
                 p_instructions := VArr (map VStr instructions);
                 p_tags := VUndef |}.

(** The object literal the orchestrator returns for an accepted result. *)
Definition accept (url : string) (r : partial) : ScrapedRecipe :=
  {| title := p_title r;
     description := p_description r;
     image := p_image r;
     prepTime := p_prepTime r;
     cookTime := p_cookTime r;
     totalTime := p_totalTime r;
     servings := p_servings r;
     difficulty := p_difficulty r;
     ingredients := or_else (p_ingredients r) (VArr []);
     instructions := or_else (p_instructions r) (VArr []);
     sourceUrl := url;
     tags := p_tags r |}.

(** [r && r.title] *)
Definition usable (r : option partial) : bool :=
  match r with
  | Some p => truthy (p_title p)
  | None => false
  end.

Definition noRecipeMessage : string := "No recipe data found on this page".

(** The [catch] clause of [extractRecipeFromUrl]. *)
Definition rethrow (error : exn) : exn :=
  match error with
  | AxiosError code status =>
      if match code with Some c => c =? "ENOTFOUND" | None => false end
      then Error "Website not found"
      else if match status with Some n => (n =? 404)%Z | None => false end
      then Error "Recipe page not found"
      else if match code with Some c => c =? "ECONNABORTED" | None => false end
      then Error "Request timed out"
      else error
  | _ => error
  end.

Section Orchestrator.

Variable JSON_parse : string -> option value.

(** One [if (r && r.title) return {...}] of the orchestrator, followed by
    the rest of the [try] block. *)
Definition attempt (url : string) (r : option partial)
           (otherwise : outcome ScrapedRecipe) : outcome ScrapedRecipe :=
  if usable r
  then match r with
       | Some p => Ret (accept url p)
       | None => otherwise
       end
  else otherwise.

(** The [try] block once the page is loaded. *)
Definition extractFromPage (page : Dom.document) (url : string) : outcome ScrapedRecipe :=
  attempt url (extractFromJsonLd JSON_parse page)
    (attempt url (extractFromMicrodata page)
       (attempt url (extractFromCommonSelectors page)
          (Throw (Error noRecipeMessage)))).

Definition extractRecipeFromUrl (response : fetched) (url : string)
  : outcome ScrapedRecipe :=
  match match response with
        | Loaded page => extractFromPage page url
        | Rejected e => Throw e
        end
  with
  | Ret recipe => Ret recipe
  | Throw error => Throw (rethrow error)
  end.

End Orchestrator.

End Src.

(** ** The compiled twin: [functions/lib/index.js] *)

Module Lib.
Import JS Regex Schema.

Definition extractText (v : value) : value :=
  match v with
  | VStr _ => v
  | _ =>
      if truthy v && truthy (get v "text") then get v "text"
      else if truthy v && truthy (get v "@value") then get v "@value"
      else VStr ""
  end.

Definition extractArray (v : value) : list value :=
  if negb (truthy v) then []
  else match v with
       | VArr items => filter truthy (map extractText items)
       | _ => filter truthy [extractText v]
       end.

Definition extractTime (duration : value) : value :=
  if negb (truthy duration) then VStr ""
  else
    let raw := extractText duration in
    match duration with
    | VStr d =>
        match match_duration d with
        | Some (g1, g2) =>
            let hours := match g1 with Some g => parseInt g | None => Finite 0 end in
            let minutes := match g2 with Some g => parseInt g | None => Finite 0 end in
            if num_truthy hours && num_truthy minutes
            then VStr (num_to_string hours ++ "h " ++ num_to_string minutes ++ "min")
            else if num_truthy hours then VStr (num_to_string hours ++ "h")
            else if num_truthy minutes then VStr (num_to_string minutes ++ "min")
            else raw
        | None => raw
        end
    | _ => raw
    end.

Definition extractNumber (v : value) : value :=
  match v with
  | VNum _ | VInfinity _ => v
  | VStr s =>
      match parseInt s with
      | NaN => VUndef
      | Finite n => VNum n
      | Infinite negative => VInfinity negative
      end
  | _ => VUndef
  end.

(** [instruction.replace(/^\d+\.\s*/, '').trim()]; an entry that is not a
    string has no [replace] method and the call throws. *)
Definition cleanInstruction (instruction : value) : outcome value :=
  match instruction with
  | VStr s => Ret (VStr (trim (replace_ordinal s)))
  | _ => Throw TypeError
  end.

Fixpoint mapM {A B : Type} (f : A -> outcome B) (l : list A) : outcome (list B) :=
  match l with
  | [] => Ret []
  | x :: rest =>
      bind (f x) (fun y => bind (mapM f rest) (fun ys => Ret (y :: ys)))
  end.

Definition parseJsonLdRecipe (recipe : value) : outcome partial :=
  bind (member recipe "name") (fun name =>
  bind (if truthy (get recipe "recipeInstructions")
        then mapM cleanInstruction (extractArray (get recipe "recipeInstructions"))
        else Ret []) (fun instrs =>
  Ret {| p_title := extractText name;
         p_description := extractText (get recipe "description");
         p_image :=
           (let _a := get recipe "image" in
            extractText (or_else (if is_null _a || is_undefined _a
                                  then VUndef else get _a "url")
                                 (get recipe "image")));
         p_prepTime := extractTime (get recipe "prepTime");
         p_cookTime := extractTime (get recipe "cookTime");
         p_totalTime := extractTime (get recipe "totalTime");
         p_servings := extractNumber (or_else (get recipe "recipeYield")
                                              (get recipe "yield"));
         p_difficulty := VUndef;
         p_ingredients := VArr (extractArray (get recipe "recipeIngredient"));
         p_instructions := VArr instrs;
         p_tags := VArr (extractArray (get recipe "recipeCategory")
                          ++ extractArray (get recipe "recipeCuisine"))%list |})).

(** Continue with the own property [k] of an object when it has one. *)
Definition on_property {R : Type} (k : string) (present : value -> R) (missing : R)
  : list (string * value) -> R :=
  fix look (fs : list (string * value)) : R :=
    match fs with
    | [] => missing
    | (k', v) :: rest => if k' =? k then present v else look rest
    end.

(** The body of the [for ... of] loop over an array, given the search on one
    item: the first truthy result is returned, a throw ends the loop. *)
Definition first_found {A : Type} (search : A -> outcome (option partial))
  : list A -> outcome (option partial) :=
  fix loop (items : list A) : outcome (option partial) :=
    match items with
    | [] => Ret None
    | item :: rest =>
        match search item with
        | Ret None => loop rest
        | other => other
        end
    end.

Fixpoint findRecipeInJsonLd (data : value) : outcome (option partial) :=
  match data with
  | VArr items => first_found findRecipeInJsonLd items
  | VUndef | VNull => Throw TypeError
  | VObj fields =>
      if strict_eq_str (get data "@type") "Recipe"
      then bind (parseJsonLdRecipe data) (fun r => Ret (Some r))
      else
        on_property "@graph"
          (fun graph => if truthy graph then findRecipeInJsonLd graph else Ret None)
          (Ret None) fields
  | _ => Ret None
  end.

Section WithParser.

(** [JSON.parse]: [None] when it throws a [SyntaxError]. *)
Variable JSON_parse : string -> option value.

Definition jsonLdSelector : string :=
  ("script[type=" ++ dq ++ "application/ld+json" ++ dq ++ "]")%string.

(** One turn of the loop over the script elements: [Some r] when the turn
    returns [r], [None] when it goes on to the next element. *)
Definition scanScript (script : Dom.element) : option partial :=
  match Dom.html script with
  | None => None
  | Some scriptContent =>
      if scriptContent =? "" then None
      else match JSON_parse scriptContent with
           | None => None
           | Some data =>
               match findRecipeInJsonLd data with
               | Ret (Some recipe) => Some recipe
               | Ret None => None
               | Throw _ => None
               end
           end
  end.

Fixpoint scanScripts (scripts : list Dom.element) : option partial :=
  match scripts with
  | [] => None
  | script :: rest =>
      match scanScript script with
      | Some recipe => Some recipe
      | None => scanScripts rest
      end
  end.

Definition extractFromJsonLd (page : Dom.document) : option partial :=
  scanScripts (Dom.select page jsonLdSelector).

End WithParser.

(** [values[0]] *)
Definition first_value (values : list string) : value :=
  match values with
  | [] => VUndef
  | v :: _ => VStr v
  end.

(** [parseInt(values[0])] *)
Definition parseInt_first (values : list string) : number :=
  match values with
  | [] => parseInt undefined_to_string
  | v :: _ => parseInt v
  end.

(** [$el.text().trim() || $el.attr('content') || ''] *)
Definition propText (el : Dom.element) : string :=
  if negb (trim (Dom.text el) =? "") then trim (Dom.text el)
  else match Dom.attr el "content" with
       | Some c => if negb (c =? "") then c else ""
       | None => ""
       end.

Definition extractProp (recipeElement : Dom.element) (prop : string) : list string :=
  filter (fun t => negb (t =? ""))
         (map propText (Dom.find recipeElement ("[itemprop=" ++ dq ++ prop ++ dq ++ "]")%string)).

(** [recipeElement.find(selector).attr(name)] *)
Definition find_attr (recipeElement : Dom.element) (selector name : string) : value :=
  match Dom.find recipeElement selector with
  | [] => VUndef
  | el :: _ =>
      match Dom.attr el name with
      | Some a => VStr a
      | None => VUndef
      end
  end.

Definition microdataSelector : string :=
  ("[itemtype*=" ++ dq ++ "schema.org/Recipe" ++ dq ++ "]")%string.

Definition extractFromMicrodata (page : Dom.document) : option partial :=
  match Dom.select page microdataSelector with
  | [] => None
  | recipeElement :: _ =>
      let title := first_value (extractProp recipeElement "name") in
      if negb (truthy title) then None
      else
        let yield := parseInt_first (extractProp recipeElement "recipeYield") in
        Some {| p_title := title;
                p_description := first_value (extractProp recipeElement "description");
                p_image := find_attr recipeElement ("[itemprop=" ++ dq ++ "image" ++ dq ++ "]")%string "src";
                p_prepTime := first_value (extractProp recipeElement "prepTime");
                p_cookTime := first_value (extractProp recipeElement "cookTime");
                p_totalTime := first_value (extractProp recipeElement "totalTime");
                p_servings := match yield with
                              | Finite n => if num_truthy yield then VNum n else VUndef
                              | Infinite negative => VInfinity negative
                              | NaN => VUndef
                              end;
                p_difficulty := VUndef;
                p_ingredients :=
                  VArr (map VStr (extractProp recipeElement "recipeIngredient"));
                p_instructions :=
                  VArr (map VStr (extractProp recipeElement "recipeInstructions"));
                p_tags := VUndef |}
  end.

Definition titleSelectors : list string :=
  [".recipe-title"; ".entry-title"; "h1.recipe-name"; ".recipe-header h1";
   ("[class*=" ++ dq ++ "recipe-title" ++ dq ++ "]")%string; ("[class*=" ++ dq ++ "recipe-name" ++ dq ++ "]")%string].

Definition ingredientSelectors : list string :=
  [".recipe-ingredient"; ".ingredient"; ".recipe-ingredients li";
   ("[class*=" ++ dq ++ "ingredient" ++ dq ++ "]")%string; ".ingredients li"].

Definition instructionSelectors : list string :=
  [".recipe-instruction"; ".instruction"; ".recipe-instructions li";
   ".recipe-method li"; ("[class*=" ++ dq ++ "instruction" ++ dq ++ "]")%string; ".directions li"].

Fixpoint findTextBySelectors (page : Dom.document) (selectors : list string) : string :=
  match selectors with
  | [] => ""
  | selector :: rest =>
      match Dom.select page selector with
      | [] => findTextBySelectors page rest
      | element :: _ =>
          let text := trim (Dom.text element) in
          if negb (text =? "") then text else findTextBySelectors page rest
      end
  end.

(** The [each] loop of [findMultipleTextBySelectors]. *)
Definition nonEmptyTexts (elements : list Dom.element) : list string :=
  filter (fun t => negb (t =? "")) (map (fun el => trim (Dom.text el)) elements).

Fixpoint findMultipleTextBySelectors (page : Dom.document) (selectors : list string)
  : list string :=
  match selectors with
  | [] => []
  | selector :: rest =>
      match nonEmptyTexts (Dom.select page selector) with
      | [] => findMultipleTextBySelectors page rest
      | texts => texts
      end
  end.

Definition extractFromCommonSelectors (page : Dom.document) : option partial :=
  let title := findTextBySelectors page titleSelectors in
  if title =? "" then None
  else
    let ingredients := findMultipleTextBySelectors page ingredientSelectors in
    let instructions := findMultipleTextBySelectors page instructionSelectors in
    if (length ingredients =? 0)%nat && (length instructions =? 0)%nat then None
    else Some {| p_title := VStr (trim title);
                 p_description := VUndef;
                 p_image := VUndef;
                 p_prepTime := VUndef;
                 p_cookTime := VUndef;
                 p_totalTime := VUndef;
                 p_servings := VUndef;
                 p_difficulty := VUndef;
                 p_ingredients := VArr (map VStr ingredients);
                 p_instructions := VArr (map VStr instructions);
                 p_tags := VUndef |}.

(** The object literal the orchestrator returns for an accepted result. *)
Definition accept (url : string) (r : partial) : ScrapedRecipe :=
  {| title := p_title r;
     description := p_description r;
     image := p_image r;
     prepTime := p_prepTime r;
     cookTime := p_cookTime r;
     totalTime := p_totalTime r;
     servings := p_servings r;
     difficulty := p_difficulty r;
     ingredients := or_else (p_ingredients r) (VArr []);
     instructions := or_else (p_instructions r) (VArr []);
     sourceUrl := url;
     tags := p_tags r |}.

(** [r && r.title] *)
Definition usable (r : option partial) : bool :=
  match r with
  | Some p => truthy (p_title p)
  | None => false
  end.

Definition noRecipeMessage : string := "No recipe data found on this page".

(** The [catch] clause of [extractRecipeFromUrl]. *)
Definition rethrow (error : exn) : exn :=
  match error with
  | AxiosError code status =>
      if match code with Some c => c =? "ENOTFOUND" | None => false end
      then Error "Website not found"
      else if match status with Some n => (n =? 404)%Z | None => false end
      then Error "Recipe page not found"
      else if match code with Some c => c =? "ECONNABORTED" | None => false end
      then Error "Request timed out"
      else error
  | _ => error
  end.

Section Orchestrator.

Variable JSON_parse : string -> option value.

(** One [if (r && r.title) return {...}] of the orchestrator, followed by
    the rest of the [try] block. *)
Definition attempt (url : string) (r : option partial)
           (otherwise : outcome ScrapedRecipe) : outcome ScrapedRecipe :=
  if usable r
  then match r with
       | Some p => Ret (accept url p)
       | None => otherwise
       end
  else otherwise.

(** The [try] block once the page is loaded. *)
Definition extractFromPage (page : Dom.document) (url : string) : outcome ScrapedRecipe :=
  attempt url (extractFromJsonLd JSON_parse page)
    (attempt url (extractFromMicrodata page)
       (attempt url (extractFromCommonSelectors page)
          (Throw (Error noRecipeMessage)))).

Definition extractRecipeFromUrl (response : fetched) (url : string)
  : outcome ScrapedRecipe :=
  match match response with
        | Loaded page => extractFromPage page url
        | Rejected e => Throw e
        end
  with
  | Ret recipe => Ret recipe
  | Throw error => Throw (rethrow error)
  end.

End Orchestrator.

End Lib.

(** ** Vocabulary of the specification *)

Module Spec.
Import JS Schema.

(** A run of decimal digits. *)
Fixpoint digits (s : string) : bool :=
  match s with
  | "" => true
  | String c s' => is_digit c && digits s'
  end.

(** The number a run of decimal digits denotes, read left to right. *)
Fixpoint decimal_from (acc : Z) (s : string) : Z :=
  match s with
  | "" => acc
  | String c s' => decimal_from (10 * acc + (Z.of_N (N_of_ascii c) - 48))%Z s'
  end.

Definition decimal (s : string) : Z := decimal_from 0%Z s.

(** A run of white space. *)
Fixpoint blank (s : string) : bool :=
  match s with
  | "" => true
  | String c s' => is_space c && blank s'
  end.

(** No white space at the first position. *)
Definition tight_start (s : string) : Prop :=
  forall c s', s = String c s' -> is_space c = false.

(** No white space at the last position. *)
Definition tight_end (s : string) : Prop :=
  forall s' c, s = s' ++ String c "" -> is_space c = false.

(** [out] is [s] without the white space around it. *)
Definition core_of (s out : string) : Prop :=
  exists l r, s = l ++ out ++ r /\ blank l = true /\ blank r = true
              /\ tight_start out /\ tight_end out.

(** [s] begins with an ordinal: digits, then a period. *)
Definition has_ordinal (s : string) : Prop :=
  exists d rest, d <> "" /\ digits d = true /\ s = d ++ String "." rest.

(** [s] begins with digits, a period and white space. *)
Definition spaced_ordinal (s : string) : Prop :=
  exists d ws rest,
    d <> "" /\ digits d = true /\ ws <> "" /\ blank ws = true
    /\ s = d ++ "." ++ ws ++ rest.

(** [out] is the cleaned form of the instruction [s]: a leading ordinal and
    the white space around the text are gone. *)
Definition cleaned_from (s out : string) : Prop :=
  (forall d rest, d <> "" -> digits d = true -> s = d ++ String "." rest ->
                  core_of rest out)
  /\ (~ has_ordinal s -> core_of s out).

(** Some object inside [v], at any depth, has the type discriminator
    [Recipe]. *)
Fixpoint recipe_typed_inside (v : value) : bool :=
  match v with
  | VArr items => existsb recipe_typed_inside items
  | VObj fields =>
      strict_eq_str (lookup "@type" fields) "Recipe"
      || existsb (fun kv => recipe_typed_inside (snd kv)) fields
  | _ => false
  end.

(** The linked-data block [b] yields the recipe-typed match [r]: it has a
    content, [JSON.parse] accepts it, and the search finds [r] in the value. *)
Definition block_yields (parse : string -> option value) (b : Dom.element)
           (r : partial) : Prop :=
  exists content data,
    Dom.html b = Some content /\ content <> ""
    /\ parse content = Some data
    /\ Src.findRecipeInJsonLd data = Ret (Some r).

(** The non-empty texts, trimmed, of the elements a selector matches. *)
Definition yields (page : Dom.document) (selector : string) : list string :=
  filter (fun t => negb (t =? ""))
         (map (fun el => trim (Dom.text el)) (Dom.select page selector)).

(** [texts] is what the first selector of the list that yields anything
    yields, and nothing when none does. *)
Definition first_yield (page : Dom.document) (selectors : list string)
           (texts : list string) : Prop :=
  (exists pre selector post,
      selectors = (pre ++ selector :: post)%list
      /\ (forall s, In s pre -> yields page s = [])
      /\ yields page selector <> []
      /\ texts = yields page selector)
  \/ ((forall s, In s selectors -> yields page s = []) /\ texts = []).

(** A strategy result that is neither null nor untitled. *)
Definition titled (r : option partial) : bool :=
  match r with
  | Some p => truthy (p_title p)
  | None => false
  end.

(** The first of the three strategy results, in priority order, that is
    titled. *)
Definition first_usable (jsonLd microdata css : option partial) : option partial :=
  if titled jsonLd then jsonLd
  else if titled microdata then microdata
  else if titled css then css
  else None.

(** The ECMAScript decimal rendering of an integer. *)
Definition show (z : Z) : string := NilZero.string_of_int (Z.to_int z).

(** What JavaScript prints for the Number that the integer [z] is read
    as. *)
Definition rendered (z : Z) : string := num_to_string (to_number z).

(** What follows the digits is not a unit of the pattern: the text ends
    there, or goes on with something else than a digit, [H] or [M]. *)
Definition no_unit (tail : string) : bool :=
  match tail with
  | "" => true
  | String c _ => negb (is_digit c || Ascii.eqb c "H" || Ascii.eqb c "M")
  end.

(** A non-empty array. *)
Definition non_empty (v : value) : Prop :=
  exists x rest, v = VArr (x :: rest).

End Spec.

(** ** Sample pages *)

Module Demo.
Import JS Schema.

(** [s] between double quotes. *)
Definition q (s : string) : string := dq ++ s ++ dq.

(** An element with the given text and nothing else. *)
Definition node (text : string) : Dom.element :=
  Dom.Element text (Some text) (fun _ => None) (fun _ => []).

(** A page answering the listed selectors. *)
Definition page_of (answers : list (string * list Dom.element)) : Dom.document :=
  {| Dom.select := fun selector =>
       match find (fun a => fst a =? selector) answers with
       | Some a => snd a
       | None => []
       end |}.

(** A recipe element of the microdata kind: its descendants by property. *)
Definition microdata_element (props : list (string * list Dom.element)) : Dom.element :=
  Dom.Element "" None (fun _ => None)
          (fun selector =>
             match find (fun a => "[itemprop=" ++ q (fst a) ++ "]" =? selector) props with
             | Some a => snd a
             | None => []
             end).

(** [{"@type":"Recipe","name":"Cake"}] *)
Definition cake_text : string :=
  "{" ++ q "@type" ++ ":" ++ q "Recipe" ++ "," ++ q "name" ++ ":" ++ q "Cake" ++ "}".

Definition cake : value := VObj [("@type", VStr "Recipe"); ("name", VStr "Cake")].

(** [{"@type":"WebPage","name":"Home"}] *)
Definition webpage_text : string :=
  "{" ++ q "@type" ++ ":" ++ q "WebPage" ++ "," ++ q "name" ++ ":" ++ q "Home" ++ "}".

Definition webpage : value := VObj [("@type", VStr "WebPage"); ("name", VStr "Home")].

(** [[null,{"@type":"Recipe","name":"Cake"}]] *)
Definition null_then_cake_text : string := "[null," ++ cake_text ++ "]".

Definition null_then_cake : value := VArr [VNull; cake].

(** [{"@type":"Recipe","name":"Tiramisu","recipeCategory":["dessert","dessert"],
     "recipeCuisine":["italian"],"recipeIngredient":["eggs"],
     "recipeInstructions":["1. Preheat the oven","  Mix well  "]}] *)
Definition tiramisu_text : string :=
  "{" ++ q "@type" ++ ":" ++ q "Recipe" ++ "," ++ q "name" ++ ":" ++ q "Tiramisu" ++ ","
      ++ q "recipeCategory" ++ ":[" ++ q "dessert" ++ "," ++ q "dessert" ++ "],"
      ++ q "recipeCuisine" ++ ":[" ++ q "italian" ++ "],"
      ++ q "recipeIngredient" ++ ":[" ++ q "eggs" ++ "],"
      ++ q "recipeInstructions" ++ ":[" ++ q "1. Preheat the oven" ++ ","
      ++ q "  Mix well  " ++ "]}".

Definition tiramisu : value :=
  VObj [("@type", VStr "Recipe"); ("name", VStr "Tiramisu");
        ("recipeCategory", VArr [VStr "dessert"; VStr "dessert"]);
        ("recipeCuisine", VArr [VStr "italian"]);
        ("recipeIngredient", VArr [VStr "eggs"]);
        ("recipeInstructions", VArr [VStr "1. Preheat the oven"; VStr "  Mix well  "])].

(** [JSON.parse] on the texts above; any other text is taken as malformed. *)
Definition parse (text : string) : option value :=
  if text =? cake_text then Some cake
  else if text =? webpage_text then Some webpage
  else if text =? null_then_cake_text then Some null_then_cake
  else if text =? tiramisu_text then Some tiramisu
  else None.

(** A page whose only recipe markup is the linked-data block [cake_text]. *)
Definition title_only_page : Dom.document :=
  page_of [(Src.jsonLdSelector, [node cake_text])].

(** Linked data titled [Cake] next to microdata titled [Pie]. *)
Definition two_titles_page : Dom.document :=
  page_of [(Src.jsonLdSelector, [node cake_text]);
           (Src.microdataSelector,
            [microdata_element [("name", [node "Pie"]);
                                ("recipeIngredient", [node "flour"])]])].

(** A malformed block, a block that is no recipe, then a recipe. *)
Definition three_blocks_page : Dom.document :=
  page_of [(Src.jsonLdSelector, [node "{oops"; node webpage_text; node tiramisu_text])].

Definition null_then_cake_page : Dom.document :=
  page_of [(Src.jsonLdSelector, [node null_then_cake_text])].

(** Microdata whose yield reads [0]. *)
Definition zero_yield_page : Dom.document :=
  page_of [(Src.microdataSelector,
            [microdata_element [("name", [node "Pie"]);
                                ("recipeYield", [node "0"])]])].

(** No [.recipe-ingredient], three [.ingredient], and a broader pattern
    that matches those three and a fourth element. *)
Definition selector_page : Dom.document :=
  page_of [(".recipe-title", [node "  Soup "]);
           (".ingredient", [node "water"; node " salt "; node "leek"; node "  "]);
           ("[class*=" ++ q "ingredient" ++ "]",
            [node "water"; node " salt "; node "leek"; node "ingredient-note"])].

End Demo.

(** ** The callable function: [scrapeRecipeV2] of [functions/src/index.ts] *)

Module Handler.
Import JS Schema.

(** The [data] of a call: [null] or [undefined], or an object whose [url],
    when it has one, is a string (what the client of the repository sends). *)
Inductive payload : Type :=
| NoData
| Data (url : option string).

(** What the caller gets: [{ recipe }], or an [HttpsError]. *)
Inductive reply : Type :=
| Recipe (recipe : ScrapedRecipe)
| HttpsError (code message : string).

(** What the [try] block ends with when it does not return. *)
Inductive thrown : Type :=
| Https (code message : string)
| Other (e : exn).

Section OnCall.

(** [new URL(s).protocol]; [None] when the constructor throws. *)
Variable URL_protocol : string -> option string.

Variable JSON_parse : string -> option value.

(** [axios.get(url)] followed by [cheerio.load]. *)
Variable fetch : string -> fetched.

(** The [message] of an error object the platform or axios created. *)
Variable platform_message : exn -> string.

Definition isValidUrl (urlString : string) : bool :=
  match URL_protocol urlString with
  | Some protocol => (protocol =? "http:") || (protocol =? "https:")
  | None => false
  end.

(** [error.message] *)
Definition message_of (error : exn) : string :=
  match error with
  | Error message => message
  | _ => platform_message error
  end.

(** The [try] block of the handler. *)
Definition attemptScrape (data : payload) : ScrapedRecipe + thrown :=
  match data with
  | NoData => inr (Other TypeError)
  | Data None => inr (Https "invalid-argument" "URL is required")
  | Data (Some url) =>
      if url =? "" then inr (Https "invalid-argument" "URL is required")
      else if negb (isValidUrl url)
      then inr (Https "invalid-argument" "Invalid URL format")
      else match Src.extractRecipeFromUrl JSON_parse (fetch url) url with
           | Ret recipe => inl recipe
           | Throw e => inr (Other e)
           end
  end.

Definition scrapeRecipeV2 (data : payload) : reply :=
  match attemptScrape data with
  | inl recipe => Recipe recipe
  | inr (Https code message) => HttpsError code message
  | inr (Other error) => HttpsError "internal" (message_of error)
  end.

End OnCall.

End Handler.

(** ** More string built-ins *)

Module JSText.

(** [toLowerCase] on one code unit below 256: the Latin capitals, and the
    accented capitals of Latin-1 (the multiplication sign is not one). *)
Definition lower (c : ascii) : ascii :=
  let n := N_of_ascii c in
  if (((65 <=? n) && (n <=? 90))
      || ((192 <=? n) && (n <=? 222) && negb (n =? 215)))%N
  then ascii_of_N (n + 32)
  else c.

Fixpoint toLowerCase (s : string) : string :=
  match s with
  | "" => ""
  | String c s' => String (lower c) (toLowerCase s')
  end.

(** [s.includes(sub)] *)
Fixpoint includes (s sub : string) : bool :=
  prefix sub s
  || match s with
     | "" => false
     | String _ s' => includes s' sub
     end.

(** [[...new Set(l)]]: the first occurrence of each entry, in order. *)
Fixpoint uniq (l : list string) : list string :=
  match l with
  | [] => []
  | x :: rest => x :: filter (fun y => negb (y =? x)) (uniq rest)
  end.

End JSText.

(** ** The client: [src/services/recipeImport.ts] *)

Module Client.
Import JS JSText.

(** The interface [ScrapedRecipe] of the client. *)
Record ScrapedRecipe : Type := mkScrapedRecipe {
  title : string;
  description : option string;
  image : option string;
  prepTime : option string;
  cookTime : option string;
  totalTime : option string;
  servings : option Z;
  difficulty : option string;
  ingredients : list string;
  instructions : list string;
  sourceUrl : string;
  tags : option (list string)
}.

(** The thirteen emoji literals of [getEmojiForRecipe], pairwise different
    strings outside Latin-1, in the order of the source. *)
Inductive emoji : Type :=
| Cookie | Cupcake | Pancakes | Spaghetti | Pizza | Burger | Salad | Stew
| Poultry | Fish | Bread | Curry | Plate.

(** The [image] of an imported recipe: a string of the page, or an emoji. *)
Inductive picture : Type :=
| Picture (url : string)
| Emoji (e : emoji).

(** The object [convertScrapedRecipe] returns. *)
Record ImportedRecipe : Type := mkImportedRecipe {
  r_title : string;
  r_description : string;
  r_image : picture;
  r_prepTime : string;
  r_cookTime : string;
  r_totalTime : string;
  r_servings : Z;
  r_difficulty : string;
  r_ingredients : list string;
  r_instructions : list string;
  r_sourceUrl : string;
  r_tags : list string;
  r_kidVersionId : option string
}.

(** [text || fallback] for an optional string *)
Definition text_or (text : option string) (fallback : string) : string :=
  match text with
  | Some t => if t =? "" then fallback else t
  | None => fallback
  end.

Definition getEmojiForRecipe (title : string) : emoji :=
  let lowerTitle := toLowerCase title in
  if includes lowerTitle "cookie" then Cookie
  else if includes lowerTitle "cake" || includes lowerTitle "cupcake" then Cupcake
  else if includes lowerTitle "pancake" then Pancakes
  else if includes lowerTitle "pasta" || includes lowerTitle "spaghetti" then Spaghetti
  else if includes lowerTitle "pizza" then Pizza
  else if includes lowerTitle "burger" then Burger
  else if includes lowerTitle "salad" then Salad
  else if includes lowerTitle "soup" then Stew
  else if includes lowerTitle "chicken" then Poultry
  else if includes lowerTitle "fish" then Fish
  else if includes lowerTitle "bread" then Bread
  else if includes lowerTitle "curry" then Curry
  else Plate.

Definition inferDifficulty (recipe : ScrapedRecipe) : string :=
  let instructionCount := length (instructions recipe) in
  let ingredientCount := length (ingredients recipe) in
  if (instructionCount <=? 5)%nat && (ingredientCount <=? 8)%nat then "Easy"
  else if (instructionCount <=? 10)%nat && (ingredientCount <=? 15)%nat then "Medium"
  else "Hard".

(** The [push] calls of [extractTagsFromTitle], before duplicates go. *)
Definition pushedTags (lowerTitle : string) : list string :=
  ((if includes lowerTitle "cookie" || includes lowerTitle "biscuit"
    then ["cookies"; "dessert"; "baking"] else [])
   ++ (if includes lowerTitle "cake" || includes lowerTitle "cupcake"
       then ["cake"; "dessert"; "baking"] else [])
   ++ (if includes lowerTitle "pancake" || includes lowerTitle "waffle"
       then ["breakfast"; "pancakes"] else [])
   ++ (if includes lowerTitle "pasta" || includes lowerTitle "spaghetti"
       then ["pasta"; "dinner"; "italian"] else [])
   ++ (if includes lowerTitle "chicken"
       then ["chicken"; "protein"; "dinner"] else [])
   ++ (if includes lowerTitle "salad"
       then ["salad"; "healthy"; "lunch"] else [])
   ++ (if includes lowerTitle "soup"
       then ["soup"; "comfort food"; "dinner"] else [])
   ++ (if includes lowerTitle "easy" || includes lowerTitle "simple"
       then ["easy"; "quick"] else [])
   ++ (if includes lowerTitle "curry"
       then ["curry"; "spicy"; "dinner"; "asian"] else []))%list.

Definition extractTagsFromTitle (title : string) : list string :=
  uniq (pushedTags (toLowerCase title)).

Definition convertScrapedRecipe (scraped : ScrapedRecipe) : ImportedRecipe :=
  {| r_title := title scraped;
     r_description := text_or (description scraped) "";
     r_image := match image scraped with
                | Some i => if i =? "" then Emoji (getEmojiForRecipe (title scraped))
                            else Picture i
                | None => Emoji (getEmojiForRecipe (title scraped))
                end;
     r_prepTime := text_or (prepTime scraped) "";
     r_cookTime := text_or (cookTime scraped) "";
     r_totalTime := text_or (totalTime scraped) "";
     r_servings := match servings scraped with
                   | Some n => if (n =? 0)%Z then 4%Z else n
                   | None => 4%Z
                   end;
     r_difficulty := text_or (difficulty scraped) (inferDifficulty scraped);
     r_ingredients := ingredients scraped;
     r_instructions := instructions scraped;
     r_sourceUrl := sourceUrl scraped;
     r_tags := match tags scraped with
               | Some t => t
               | None => extractTagsFromTitle (title scraped)
               end;
     r_kidVersionId := None |}.

(** What awaiting the callable [scrapeRecipeV2] ends with: the recipe of
    the reply, a rejection with an error, or a rejection with something
    that is no error. *)
Inductive called : Type :=
| Answered (recipe : ScrapedRecipe)
| Failed (message : string)
| FailedOddly.

Definition unableMessage : string :=
  "Unable to extract recipe data from this URL. Please try a different recipe website.".

Section Importing.

(** [new URL(s).protocol]; [None] when the constructor throws. *)
Variable URL_protocol : string -> option string.

(** [httpsCallable(functions, 'scrapeRecipeV2')({ url })] *)
Variable scrapeRecipe : string -> called.

Definition validateUrl (url : string) : bool :=
  match URL_protocol url with
  | Some protocol => (protocol =? "http:") || (protocol =? "https:")
  | None => false
  end.

(** [importFromUrl] of the first version of the service. *)
Definition importFromUrl (url : string) : outcome ImportedRecipe :=
  if negb (validateUrl url) then Throw (Error "Invalid URL provided")
  else match scrapeRecipe url with
       | Answered scrapedRecipe =>
           if (title scrapedRecipe =? "")
              || (length (ingredients scrapedRecipe) =? 0)%nat
           then Throw (Error unableMessage)
           else Ret (convertScrapedRecipe scrapedRecipe)
       | Failed message => Throw (Error message)
       | FailedOddly =>
           Throw (Error "Failed to import recipe. Please try again or check the URL.")
       end.

End Importing.

End Client.

(** ** The client with retries: the second [recipeImport.ts] *)

Module ClientRetry.
Import JS JSText.

(** What the [catch] clause of an attempt receives: [null] or [undefined],
    or an error object with its [name], its [message] and its [code]
    ([VUndef] when it has none). *)
Inductive caught : Type :=
| Nothing
| ErrorObject (name message : string) (code : value).

Record ImportError : Type := mkImportError {
  code : string;
  message : string;
  suggestion : option string;
  canRetry : bool;
  allowManualEdit : option bool
}.

Inductive ImportStatus : Type :=
| VALIDATING | FETCHING | PARSING | VALIDATING_CONTENT | COMPLETE | ERROR.

Inductive ImportResult : Type :=
| Success (recipe : value)
| Failure (error : ImportError).

(** The calls the import makes to its callbacks and to [delay], in order. *)
Inductive event : Type :=
| Progress (status : ImportStatus)
| Retry (attempt : nat)
| Wait (ms : Z).

(** [Error.prototype.toString] *)
Definition errorToString (name message : string) : string :=
  if name =? "" then message
  else if message =? "" then name
  else name ++ ": " ++ message.

(** [error?.message || error?.toString() || 'Unknown error'] *)
Definition messageOf (error : caught) : string :=
  match error with
  | Nothing => "Unknown error"
  | ErrorObject name message _ =>
      if negb (message =? "") then message
      else if negb (errorToString name message =? "") then errorToString name message
      else "Unknown error"
  end.

(** [error?.code] *)
Definition codeOf (error : caught) : value :=
  match error with
  | Nothing => VUndef
  | ErrorObject _ _ code => code
  end.

Definition parseError (error : caught) : ImportError :=
  let message := messageOf error in
  let by_message :=
    if includes message "Network Error" || includes message "ENOTFOUND"
    then {| code := "NETWORK_ERROR";
            message := "Network error - check your internet connection";
            suggestion := Some "Make sure you're connected to the internet and try again";
            canRetry := true;
            allowManualEdit := None |}
    else {| code := "IMPORT_FAILED";
            message := "Failed to import recipe";
            suggestion := Some "Please try again or enter the recipe manually";
            canRetry := true;
            allowManualEdit := Some true |} in
  if truthy (codeOf error) then
    if strict_eq_str (codeOf error) "unauthenticated" then
      {| code := "UNAUTHENTICATED";
         message := "Please log in to import recipes";
         suggestion := None;
         canRetry := false;
         allowManualEdit := None |}
    else if strict_eq_str (codeOf error) "resource-exhausted" then
      {| code := "RATE_LIMITED";
         message := "You've reached your daily import limit";
         suggestion := Some "Try again tomorrow or upgrade to premium";
         canRetry := false;
         allowManualEdit := None |}
    else if strict_eq_str (codeOf error) "invalid-argument" then
      if includes message "No recipe data found" then
        {| code := "NO_RECIPE_FOUND";
           message := "No recipe found on this page";
           suggestion := Some "Make sure the URL points to a recipe page, not a blog post or search results";
           canRetry := false;
           allowManualEdit := Some true |}
      else if includes message "Missing instructions" then
        {| code := "MISSING_INSTRUCTIONS";
           message := "This website did not provide recipe steps";
           suggestion := Some "Try a different recipe URL or enter the recipe manually";
           canRetry := false;
           allowManualEdit := Some true |}
      else if includes message "Missing ingredients" then
        {| code := "MISSING_INGREDIENTS";
           message := "This website did not provide ingredients";
           suggestion := Some "Try a different recipe URL or enter the recipe manually";
           canRetry := false;
           allowManualEdit := Some true |}
      else
        {| code := "INVALID_RECIPE";
           message := message;
           suggestion := None;
           canRetry := false;
           allowManualEdit := Some true |}
    else if strict_eq_str (codeOf error) "not-found" then
      {| code := "PAGE_NOT_FOUND";
         message := "Recipe page not found";
         suggestion := Some "Check that the URL is correct and the page exists";
         canRetry := false;
         allowManualEdit := None |}
    else if strict_eq_str (codeOf error) "deadline-exceeded" then
      {| code := "TIMEOUT";
         message := "Import timed out - the website may be slow";
         suggestion := Some "Try again in a few minutes";
         canRetry := true;
         allowManualEdit := None |}
    else
      {| code := "UNKNOWN_ERROR";
         message := message;
         suggestion := None;
         canRetry := true;
         allowManualEdit := Some true |}
  else by_message.

Definition invalidUrl : ImportError :=
  {| code := "INVALID_URL";
     message := "Please enter a valid recipe URL starting with http:// or https://";
     suggestion := Some "Make sure the URL is complete and points to a recipe page";
     canRetry := false;
     allowManualEdit := Some true |}.

Definition maxRetriesExceeded : ImportError :=
  {| code := "MAX_RETRIES_EXCEEDED";
     message := "Failed to import recipe after multiple attempts";
     suggestion := Some "Please try again later or use manual entry";
     canRetry := true;
     allowManualEdit := Some true |}.

(** [Math.min(1000 * Math.pow(2, attempt - 1), 5000)] *)
Definition backoff (attempt : nat) : Z :=
  Z.min (1000 * 2 ^ (Z.of_nat attempt - 1)) 5000.

(** What the [try] block of one attempt ends with: it returns
    [result.recipe], or the [catch] clause receives an error. *)
Inductive attempted : Type :=
| Imported (recipe : value)
| Caught (error : caught).

(** The option [maxRetries] is a Number.  The loop only compares it with
    the attempt counter, a whole number that starts at 1 and grows by one,
    so it is held as what decides those comparisons: not a number, a whole
    number, a number with a fraction (strictly between [z] and [z + 1]), or
    an infinity. *)
Inductive limit : Type :=
| NotANumber
| Whole (z : Z)
| Between (z : Z)
| Infinity (negative : bool).

(** [const { maxRetries = 3 } = options] *)
Definition maxRetriesOf (given : option limit) : limit :=
  match given with
  | Some maxRetries => maxRetries
  | None => Whole 3
  end.

(** [attempt <= maxRetries] *)
Definition le_limit (attempt : nat) (maxRetries : limit) : bool :=
  match maxRetries with
  | NotANumber => false
  | Whole z | Between z => (Z.of_nat attempt <=? z)%Z
  | Infinity negative => negb negative
  end.

(** [attempt === maxRetries] *)
Definition eq_limit (attempt : nat) (maxRetries : limit) : bool :=
  match maxRetries with
  | Whole z => (Z.of_nat attempt =? z)%Z
  | _ => false
  end.

(** [attempt < maxRetries] *)
Definition lt_limit (attempt : nat) (maxRetries : limit) : bool :=
  match maxRetries with
  | NotANumber => false
  | Whole z => (Z.of_nat attempt <? z)%Z
  | Between z => (Z.of_nat attempt <=? z)%Z
  | Infinity negative => negb negative
  end.

Section Importing.

(** [new URL(s).protocol]; [None] when the constructor throws. *)
Variable URL_protocol : string -> option string.

(** The [try] block of the attempt with the given number: the sign-in
    check, the token, the HTTP request and the reading of the reply. *)
Variable attemptImport : nat -> attempted.

Variable maxRetries : limit.

Definition validateUrl (url : string) : bool :=
  match URL_protocol url with
  | Some protocol => (protocol =? "http:") || (protocol =? "https:")
  | None => false
  end.

(** The [for] loop from the turn [attempt] on.  With [maxRetries] the
    positive infinity the loop need not end, so the turns are counted:
    [fuel] is the number of times the loop condition may be evaluated, and
    [None] says that the loop was still running when they were used up. *)
Fixpoint retryLoop (fuel attempt : nat) : option (ImportResult * list event) :=
  match fuel with
  | 0 => None
  | S later =>
      if negb (le_limit attempt maxRetries)
      then Some (Failure maxRetriesExceeded, [])
      else
        match attemptImport attempt with
        | Imported recipe => Some (Success recipe, [Progress FETCHING; Progress COMPLETE])
        | Caught error =>
            let importError := parseError error in
            if negb (canRetry importError) || eq_limit attempt maxRetries
            then Some (Failure importError, [Progress FETCHING; Progress ERROR])
            else
              match retryLoop later (S attempt) with
              | Some (result, events) =>
                  Some (result,
                        (Progress FETCHING
                           :: (if lt_limit attempt maxRetries
                               then [Retry attempt; Wait (backoff attempt)] else [])
                           ++ events)%list)
              | None => None
              end
        end
  end.

(** [importFromUrl] of the second version of the service. *)
Definition importFromUrl (fuel : nat) (url : string) : option (ImportResult * list event) :=
  if negb (validateUrl url) then Some (Failure invalidUrl, [Progress VALIDATING])
  else match retryLoop fuel 1 with
       | Some (result, events) => Some (result, Progress VALIDATING :: events)
       | None => None
       end.

End Importing.

End ClientRetry.

(** ** Vocabulary for the client *)

Module ClientLaws.
Import JS Schema JSText.

(** [sub] occurs in [s]. *)
Definition occurs (sub s : string) : Prop := exists a b, s = a ++ sub ++ b.

(** The order of the three difficulties. *)
Definition level (difficulty : string) : nat :=
  if difficulty =? "Easy" then 0
  else if difficulty =? "Medium" then 1
  else 2.

(** Reading a value of the reply as a field of the client's interface. *)
Definition as_string (v : value) : option string :=
  match v with
  | VStr s => Some s
  | _ => None
  end.

Definition as_optional_string (v : value) : option (option string) :=
  match v with
  | VUndef => Some None
  | VStr s => Some (Some s)
  | _ => None
  end.

Definition as_optional_number (v : value) : option (option Z) :=
  match v with
  | VUndef => Some None
  | VNum n => Some (Some n)
  | _ => None
  end.

Fixpoint as_strings_of (items : list value) : option (list string) :=
  match items with
  | [] => Some []
  | VStr s :: rest => option_map (cons s) (as_strings_of rest)
  | _ :: _ => None
  end.

Definition as_strings (v : value) : option (list string) :=
  match v with
  | VArr items => as_strings_of items
  | _ => None
  end.

Definition as_optional_strings (v : value) : option (option (list string)) :=
  match v with
  | VUndef => Some None
  | VArr items => option_map Some (as_strings_of items)
  | _ => None
  end.

(** The recipe of a reply seen through the client's interface
    ([result.data.recipe as ScrapedRecipe]), when its values fit it. *)
Definition decode (r : Schema.ScrapedRecipe) : option Client.ScrapedRecipe :=
  match as_string (title r), as_optional_string (description r),
        as_optional_string (image r), as_optional_string (prepTime r),
        as_optional_string (cookTime r), as_optional_string (totalTime r),
        as_optional_number (servings r), as_optional_string (difficulty r),
        as_strings (ingredients r), as_strings (instructions r),
        as_optional_strings (tags r) with
  | Some t, Some d, Some i, Some pt, Some ct, Some tot, Some s, Some df,
    Some ing, Some ins, Some tg =>
      Some (Client.mkScrapedRecipe t d i pt ct tot s df ing ins (sourceUrl r) tg)
  | _, _, _, _, _, _, _, _, _, _, _ => None
  end.

(** The number of attempts an import made. *)
Definition attempts_made (events : list ClientRetry.event) : nat :=
  length (filter (fun e => match e with
                           | ClientRetry.Progress ClientRetry.FETCHING => true
                           | _ => false
                           end) events).

(** The time an import spent waiting between attempts. *)
Definition time_waited (events : list ClientRetry.event) : Z :=
  fold_right (fun e total => match e with
                             | ClientRetry.Wait ms => (ms + total)%Z
                             | _ => total
                             end) 0%Z events.

(** The waits before the attempts [first + 1], ..., [first + count]. *)
Fixpoint backoff_sum (first count : nat) : Z :=
  match count with
  | 0 => 0%Z
  | S c => (ClientRetry.backoff first + backoff_sum (S first) c)%Z
  end.

(** The turns that [maxRetries] allows: its whole part when it is a
    positive number, none otherwise. *)
Definition turns (maxRetries : ClientRetry.limit) : nat :=
  match maxRetries with
  | ClientRetry.Whole z | ClientRetry.Between z => Z.to_nat z
  | _ => 0
  end.

(** The attempt [i] fails with an error after which a retry is allowed. *)
Definition fails_retryably (attemptImport : nat -> ClientRetry.attempted) (i : nat) : Prop :=
  exists e, attemptImport i = ClientRetry.Caught e
            /\ ClientRetry.canRetry (ClientRetry.parseError e) = true.

(** The codes [parseError] answers with a retry allowed. *)
Definition retryable_codes : list string :=
  ["TIMEOUT"; "UNKNOWN_ERROR"; "NETWORK_ERROR"; "IMPORT_FAILED"].

(** The codes [parseError] answers with no retry. *)
Definition final_codes : list string :=
  ["UNAUTHENTICATED"; "RATE_LIMITED"; "NO_RECIPE_FOUND"; "MISSING_INSTRUCTIONS";
   "MISSING_INGREDIENTS"; "INVALID_RECIPE"; "PAGE_NOT_FOUND"].

End ClientLaws.

(** ** Further vocabulary *)

Module Laws.
Import JS Schema.

(** [o] is an object typed [Recipe] that the search can reach from [v]: by
    entering arrays and by following [@graph] out of objects that are not
    themselves typed [Recipe]. *)
Inductive reaches : value -> value -> Prop :=
| reaches_here (fields : list (string * value)) :
    strict_eq_str (lookup "@type" fields) "Recipe" = true ->
    reaches (VObj fields) (VObj fields)
| reaches_item (items : list value) (x o : value) :
    In x items -> reaches x o -> reaches (VArr items) o
| reaches_graph (fields : list (string * value)) (o : value) :
    strict_eq_str (lookup "@type" fields) "Recipe" = false ->
    truthy (lookup "@graph" fields) = true ->
    reaches (lookup "@graph" fields) o ->
    reaches (VObj fields) o.

(** The payloads the handler refuses before any request: no [url], an empty
    one, or one that is no [http:] or [https:] URL. *)
Definition refused (URL_protocol : string -> option string)
           (data : Handler.payload) : Prop :=
  data = Handler.Data None
  \/ data = Handler.Data (Some "")
  \/ exists u, data = Handler.Data (Some u)
               /\ Handler.isValidUrl URL_protocol u = false.

(** The three shapes of a text the structured data may use for [t]: the
    string itself, an object with the property [text], an object without a
    usable [text] and with the property [@value]. *)
Definition text_shape (v : value) (t : string) : Prop :=
  v = VStr t
  \/ (exists fields, v = VObj fields /\ lookup "text" fields = VStr t)
  \/ (exists fields, v = VObj fields /\ truthy (lookup "text" fields) = false
                     /\ lookup "@value" fields = VStr t).

(** [texts] are the texts of the list entries [items]: an entry in one of
    the three shapes gives its text when that is not empty; an entry that is
    the empty string or [null] gives nothing. *)
Inductive entries_texts : list value -> list string -> Prop :=
| entries_nil : entries_texts [] []
| entries_text (x : value) (t : string) (items : list value) (texts : list string) :
    text_shape x t -> t <> "" -> entries_texts items texts ->
    entries_texts (x :: items) (t :: texts)
| entries_skip (x : value) (items : list value) (texts : list string) :
    x = VStr "" \/ x = VNull -> entries_texts items texts ->
    entries_texts (x :: items) texts.

(** A field normalized to a list of texts: a field that is absent, [null]
    or the empty string gives the empty list, a single text the list of
    that text, a list the texts of its entries. *)
Inductive field_texts : value -> list string -> Prop :=
| field_absent (v : value) :
    v = VUndef \/ v = VNull \/ v = VStr "" -> field_texts v []
| field_single (v : value) (t : string) :
    text_shape v t -> t <> "" -> field_texts v [t]
| field_list (items : list value) (texts : list string) :
    entries_texts items texts -> field_texts (VArr items) texts.

(** No occurrence of [PT]. *)
Definition no_PT (s : string) : Prop := forall a b, s <> a ++ "PT" ++ b.

(** No letter [P]. *)
Fixpoint no_P (s : string) : bool :=
  match s with
  | "" => true
  | String c s' => negb (Ascii.eqb c "P") && no_P s'
  end.

(** The first element a selector matches has a text, [t] once trimmed. *)
Definition first_text (page : Dom.document) (selector t : string) : Prop :=
  exists el rest,
    Dom.select page selector = el :: rest /\ trim (Dom.text el) = t /\ t <> "".

(** The selector matches nothing, or its first element has no text. *)
Definition no_first_text (page : Dom.document) (selector : string) : Prop :=
  Dom.select page selector = []
  \/ exists el rest, Dom.select page selector = el :: rest /\ trim (Dom.text el) = "".

(** A text with something in it and no white space around it. *)
Definition tidy (t : string) : Prop :=
  t <> "" /\ Spec.tight_start t /\ Spec.tight_end t.

End Laws.

(** ** More sample data *)

Module Samples.
Import JS Schema.

(** A run of 400 nines: a count beyond the range of the doubles. *)
Definition nines : string := string_of_list_ascii (repeat "9"%char 400).

(** Microdata whose yield is that run. *)
Definition endless_yield_page : Dom.document :=
  Demo.page_of [(Src.microdataSelector,
                 [Demo.microdata_element [("name", [Demo.node "Pie"]);
                                          ("recipeYield", [Demo.node nines])]])].

(** A recipe whose only instruction begins with a decimal quantity. *)
Definition bread_fields : list (string * value) :=
  [("@type", VStr "Recipe"); ("name", VStr "Bread");
   ("recipeInstructions", VArr [VStr "3.5 cups flour"])].

(** A recipe whose category is a list with a wrapped and an empty entry and
    whose cuisine is a single text. *)
Definition trifle : value :=
  VObj [("@type", VStr "Recipe"); ("name", VStr "Trifle");
        ("recipeCategory",
         VArr [VStr "dessert"; VObj [("@value", VStr "pudding")]; VStr ""]);
        ("recipeCuisine", VStr "english")].

(** Linked data holding [null] before the recipe titled [Cake], next to
    microdata titled [Pie]. *)
Definition hidden_cake_page : Dom.document :=
  Demo.page_of [(Src.jsonLdSelector, [Demo.node Demo.null_then_cake_text]);
                (Src.microdataSelector,
                 [Demo.microdata_element [("name", [Demo.node "Pie"]);
                                          ("recipeIngredient", [Demo.node "flour"])]])].

(** A block that is no recipe, then a block holding [null] before the
    recipe. *)
Definition hidden_second_page : Dom.document :=
  Demo.page_of [(Src.jsonLdSelector,
                 [Demo.node Demo.webpage_text; Demo.node Demo.null_then_cake_text])].

(** A block that is no recipe, then a block that is the recipe. *)
Definition two_blocks_page : Dom.document :=
  Demo.page_of [(Src.jsonLdSelector,
                 [Demo.node Demo.webpage_text; Demo.node Demo.cake_text])].

Definition tea_steps : list value :=
  [VStr "1. Boil water";
   VObj [("@type", VStr "HowToStep"); ("text", VStr "2. Add the tea ")];
   VObj [("@value", VStr "Wait")]].

Definition tea_fields : list (string * value) :=
  [("@type", VStr "Recipe"); ("name", VStr "Tea"); ("recipeInstructions", VArr tea_steps)].

End Samples.

(** ** Strings *)

Import JS Regex Schema Spec.

Lemma string_app_empty_r (a : string) : a ++ "" = a.
Proof. induction a as [|x a IH]; simpl; [reflexivity | now rewrite IH]. Qed.

Lemma digit_not_space (c : ascii) : is_digit c = true -> is_space c = false.
Proof.
  unfold is_digit, is_space. intros H.
  apply andb_true_iff in H as [H1 H2].
  apply N.leb_le in H1. apply N.leb_le in H2.
  repeat match goal with
         | |- context [(?a <=? ?b)%N] => destruct (N.leb_spec a b)
         | |- context [(?a =? ?b)%N] => destruct (N.eqb_spec a b)
         end; simpl; try reflexivity; lia.
Qed.

Lemma digit_neq (c x : ascii) :
  is_digit c = true -> is_digit x = false -> Ascii.eqb c x = false.
Proof.
  intros Hc Hx. destruct (Ascii.eqb_spec c x) as [->|]; [congruence | reflexivity].
Qed.

Lemma span_digits_app (d r : string) :
  digits d = true ->
  (forall c r', r = String c r' -> is_digit c = false) ->
  span_digits (d ++ r) = (d, r).
Proof.
  intros Hd Hr. induction d as [|c d IH]; simpl in *.
  - destruct r as [|c r']; [reflexivity|].
    simpl. now rewrite (Hr c r' eq_refl).
  - apply andb_true_iff in Hd as [Hc Hd]. rewrite Hc, (IH Hd). reflexivity.
Qed.

Lemma span_digits_sound (s d r : string) :
  span_digits s = (d, r) -> s = d ++ r /\ digits d = true.
Proof.
  revert d r. induction s as [|c s IH]; simpl; intros d r H.
  - inversion H. now split.
  - destruct (is_digit c) eqn:Hc.
    + destruct (span_digits s) as [d' r'] eqn:Hs. inversion H; subst.
      destruct (IH d' r eq_refl) as [-> Hd]. simpl. now rewrite Hc, Hd.
    + inversion H. now split.
Qed.

Lemma opt_group_hit (X : ascii) (d r : string) :
  d <> "" -> digits d = true -> is_digit X = false ->
  opt_group X (d ++ String X r) = (Some d, r).
Proof.
  intros Hne Hd HX. unfold opt_group.
  rewrite (span_digits_app d (String X r) Hd).
  - destruct d; [congruence|]. now rewrite Ascii.eqb_refl.
  - intros c r' E. inversion E; subst. exact HX.
Qed.

Lemma opt_group_other (X Y : ascii) (d r : string) :
  digits d = true -> is_digit Y = false -> Ascii.eqb Y X = false ->
  opt_group X (d ++ String Y r) = (None, d ++ String Y r).
Proof.
  intros Hd HY HXY. unfold opt_group.
  rewrite (span_digits_app d (String Y r) Hd).
  - destruct d; [reflexivity|]. now rewrite HXY.
  - intros c r' E. inversion E; subst. exact HY.
Qed.

(** *** Numbers: the integers up to [2^53] are exact *)

Lemma round_magnitude_exact (a : Z) :
  (a <= 2 ^ 53)%Z -> round_magnitude a = Some a.
Proof.
  intros H. unfold round_magnitude, exact_bound.
  destruct (Z.leb_spec a (2 ^ 53)); [reflexivity | lia].
Qed.

Lemma round_magnitude_positive (a v : Z) :
  (0 < a)%Z -> round_magnitude a = Some v -> (0 < v)%Z.
Proof.
  intros Ha. unfold round_magnitude, exact_bound.
  destruct (Z.leb_spec a (2 ^ 53)) as [_|Hbig].
  - intros E. inversion E; subst. exact Ha.
  - cbv zeta.
    set (e := (Z.log2 a - 52)%Z).
    assert (Hlog : (53 <= Z.log2 a)%Z).
    { apply Z.log2_le_pow2; lia. }
    assert (He : (0 <= e)%Z) by (unfold e; lia).
    assert (Hp : (0 < 2 ^ e)%Z) by (apply Z.pow_pos_nonneg; lia).
    assert (Hle : (2 ^ e <= a)%Z).
    { destruct (Z.log2_spec a Ha) as [Hlo _].
      apply Z.le_trans with (2 ^ Z.log2 a)%Z; [|exact Hlo].
      apply Z.pow_le_mono_r; unfold e; lia. }
    assert (Hq : (0 < a / 2 ^ e)%Z) by (apply Z.div_str_pos; lia).
    destruct (2 ^ 1024 <=? _)%Z; [discriminate|].
    intros E. inversion E; subst.
    destruct ((2 ^ (e - 1) <? a mod 2 ^ e)%Z
              || ((a mod 2 ^ e =? 2 ^ (e - 1))%Z && Z.odd (a / 2 ^ e))); nia.
Qed.

Lemma to_number_exact (z : Z) :
  (Z.abs z <= 2 ^ 53)%Z -> to_number z = Finite z.
Proof.
  intros H. unfold to_number. rewrite (round_magnitude_exact _ H).
  f_equal. lia.
Qed.

(** A digit run reads as zero exactly when it denotes zero. *)
Lemma to_number_truthy (z : Z) :
  num_truthy (to_number z) = negb (z =? 0)%Z.
Proof.
  unfold to_number.
  destruct (round_magnitude (Z.abs z)) as [v|] eqn:E.
  - cbn [num_truthy]. destruct (Z.eqb_spec z 0) as [->|Hz].
    + reflexivity.
    + assert (0 < v)%Z by (apply (round_magnitude_positive (Z.abs z)); [lia | exact E]).
      destruct (Z.eqb_spec (Z.sgn z * v) 0); [nia | reflexivity].
  - cbn [num_truthy]. destruct (Z.eqb_spec z 0) as [->|Hz]; [discriminate | reflexivity].
Qed.

Lemma rendered_exact (z : Z) :
  (Z.abs z <= 2 ^ 53)%Z -> rendered z = show z.
Proof.
  intros H. unfold rendered. rewrite (to_number_exact z H).
  unfold num_to_string, exact_bound.
  destruct (Z.leb_spec (Z.abs z) (2 ^ 53)); [reflexivity | lia].
Qed.

Lemma decimal_from_nonneg (d : string) (acc : Z) :
  digits d = true -> (0 <= acc)%Z -> (0 <= decimal_from acc d)%Z.
Proof.
  revert acc. induction d as [|c d IH]; intros acc Hd Hacc; [exact Hacc|].
  cbn [digits] in Hd. apply andb_true_iff in Hd as [Hc Hd].
  cbn [decimal_from]. apply IH; [exact Hd|].
  unfold is_digit in Hc. apply andb_true_iff in Hc as [H1 _].
  apply N.leb_le in H1. lia.
Qed.

Lemma decimal_nonneg (d : string) : digits d = true -> (0 <= decimal d)%Z.
Proof. intros Hd. apply decimal_from_nonneg; [exact Hd | lia]. Qed.

Lemma rendered_digits (d : string) :
  digits d = true -> (decimal d <= 2 ^ 53)%Z -> rendered (decimal d) = show (decimal d).
Proof.
  intros Hd Hb. apply rendered_exact. pose proof (decimal_nonneg d Hd). lia.
Qed.

(** *** [parseInt] on a run of digits *)

Lemma digit_val_digit (c : ascii) :
  is_digit c = true -> digit_val c = Some (Z.of_N (N_of_ascii c) - 48)%Z.
Proof.
  unfold is_digit, digit_val. intros H.
  apply andb_true_iff in H as [H1 H2].
  apply N.leb_le in H1. apply N.leb_le in H2.
  destruct (Z.leb_spec 48 (Z.of_N (N_of_ascii c))); [|lia].
  destruct (Z.leb_spec (Z.of_N (N_of_ascii c)) 57); [|lia].
  reflexivity.
Qed.

Lemma radix_prefix_digits (d : string) (acc : Z) :
  digits d = true ->
  fold_left (fun a x => a * 10 + x)%Z (radix_prefix 10 d) acc = decimal_from acc d.
Proof.
  revert acc. induction d as [|c d IH]; intros acc Hd; [reflexivity|].
  cbn [digits] in Hd. apply andb_true_iff in Hd as [Hc Hd].
  cbn [radix_prefix decimal_from]. rewrite (digit_val_digit c Hc).
  assert (Hlt : (Z.of_N (N_of_ascii c) - 48 <? 10)%Z = true).
  { unfold is_digit in Hc. apply andb_true_iff in Hc as [_ H2].
    apply N.leb_le in H2. apply Z.ltb_lt. lia. }
  rewrite Hlt. cbn [fold_left]. rewrite (IH _ Hd). f_equal. lia.
Qed.

Lemma parseInt_digits (d : string) :
  d <> "" -> digits d = true -> parseInt d = to_number (decimal d).
Proof.
  intros Hne Hd. destruct d as [|c d]; [congruence|].
  simpl in Hd. apply andb_true_iff in Hd as [Hc Hd].
  unfold parseInt. simpl trimStart. rewrite (digit_not_space c Hc).
  unfold strip_sign.
  rewrite (digit_neq c "-" Hc eq_refl), (digit_neq c "+" Hc eq_refl).
  assert (Hhex : hex_prefix (String c d) = None).
  { unfold hex_prefix. destruct d as [|c1 d1]; [reflexivity|].
    simpl in Hd. apply andb_true_iff in Hd as [Hc1 _].
    rewrite (digit_neq c1 "x" Hc1 eq_refl), (digit_neq c1 "X" Hc1 eq_refl).
    now rewrite andb_false_r. }
  rewrite Hhex. unfold parse_radix.
  assert (Hfold : digits_value 10 (radix_prefix 10 (String c d)) = decimal (String c d)).
  { unfold digits_value, decimal. apply radix_prefix_digits.
    simpl. now rewrite Hc, Hd. }
  destruct (radix_prefix 10 (String c d)) as [|x l] eqn:Hp.
  - simpl in Hp. rewrite (digit_val_digit c Hc) in Hp.
    destruct (Z.ltb_spec (Z.of_N (N_of_ascii c) - 48) 10); [discriminate|].
    unfold is_digit in Hc. apply andb_true_iff in Hc as [_ H2].
    apply N.leb_le in H2. lia.
  - rewrite Hfold. f_equal. apply Z.mul_1_l.
Qed.

(** *** The duration pattern *)

Lemma after_PT_occurrence (s r : string) :
  after_PT s = Some r -> exists a, s = a ++ "PT" ++ r.
Proof.
  revert r. induction s as [|c s IH]; intros r H; [discriminate|].
  cbn [after_PT] in H. destruct s as [|c' s']; [discriminate|].
  destruct (Ascii.eqb_spec c "P") as [->|Hc]; cbn [andb] in H.
  - destruct (Ascii.eqb_spec c' "T") as [->|Hc'].
    + inversion H; subst. now exists "".
    + destruct (IH r H) as [a Ha]. exists (String "P" a). simpl. now rewrite Ha.
  - destruct (IH r H) as [a Ha]. exists (String c a). simpl. now rewrite Ha.
Qed.

Lemma after_PT_absent (s : string) :
  (forall a b, s <> a ++ "PT" ++ b) -> after_PT s = None.
Proof.
  intros H. destruct (after_PT s) as [r|] eqn:E; [|reflexivity].
  destruct (after_PT_occurrence s r E) as [a Ha]. now destruct (H a r).
Qed.

Lemma extractTime_PT (r rest1 rest2 : string) (g1 g2 : option string) :
  opt_group "H" r = (g1, rest1) ->
  opt_group "M" rest1 = (g2, rest2) ->
  Src.extractTime (VStr ("PT" ++ r)) =
    let hours := match g1 with Some g => parseInt g | None => Finite 0 end in
    let minutes := match g2 with Some g => parseInt g | None => Finite 0 end in
    if num_truthy hours && num_truthy minutes
    then VStr (num_to_string hours ++ "h " ++ num_to_string minutes ++ "min")
    else if num_truthy hours then VStr (num_to_string hours ++ "h")
    else if num_truthy minutes then VStr (num_to_string minutes ++ "min")
    else VStr ("PT" ++ r).
Proof.
  intros H1 H2. unfold Src.extractTime, match_duration.
  change (after_PT ("PT" ++ r)) with (Some r).
  change (truthy (VStr ("PT" ++ r))) with true. cbn [negb].
  now rewrite H1, H2.
Qed.

Lemma extractTime_no_match (s : string) :
  after_PT s = None -> Src.extractTime (VStr s) = VStr s.
Proof.
  intros H. unfold Src.extractTime, match_duration. rewrite H.
  destruct s; reflexivity.
Qed.

Lemma nonzero_truthy (z : Z) : z <> 0%Z -> num_truthy (to_number z) = true.
Proof. intros H. rewrite to_number_truthy. now destruct (Z.eqb_spec z 0). Qed.

(** *** [trim] *)

Lemma trimStart_spec (s : string) :
  exists l, s = l ++ trimStart s /\ blank l = true /\ tight_start (trimStart s).
Proof.
  induction s as [|c s (l & E & Hl & Ht)].
  - exists "". repeat split. intros c s' H. discriminate.
  - simpl. destruct (is_space c) eqn:Hc.
    + exists (String c l). simpl. rewrite Hc, Hl, <- E. now repeat split.
    + exists "". repeat split. intros c0 s0 H. now inversion H; subst.
Qed.

Lemma trimStart_tight (s : string) : tight_start s -> trimStart s = s.
Proof.
  intros H. destruct s as [|c s]; [reflexivity|].
  simpl. now rewrite (H c s eq_refl).
Qed.

Lemma trimStart_idempotent (s : string) : trimStart (trimStart s) = trimStart s.
Proof.
  apply trimStart_tight. now destruct (trimStart_spec s) as (l & _ & _ & H).
Qed.

Lemma trimEnd_spec (s : string) :
  exists r, s = trimEnd s ++ r /\ blank r = true /\ tight_end (trimEnd s).
Proof.
  induction s as [|c s (r & E & Hr & Ht)].
  - exists "". repeat split. intros s' c H. destruct s'; discriminate.
  - cbn [trimEnd]. destruct (trimEnd s) as [|x t] eqn:Ets.
    + simpl in E. subst r. destruct (is_space c) eqn:Hc.
      * exists (String c s). simpl. rewrite Hc, Hr. repeat split.
        intros s' c0 H. destruct s'; discriminate.
      * exists s. repeat split; [exact Hr|].
        intros s' c0 H. destruct s' as [|y s'].
        -- now inversion H; subst.
        -- inversion H. destruct s'; discriminate.
    + exists r. repeat split; [now rewrite E | exact Hr |].
      intros s' c0 H. destruct s' as [|y s']; [discriminate|].
      inversion H; subst. now apply (Ht s' c0).
Qed.

Lemma trimEnd_keeps_start (s : string) : tight_start s -> tight_start (trimEnd s).
Proof.
  intros H. destruct s as [|c s]; [exact H|].
  pose proof (H c s eq_refl) as Hc. cbn [trimEnd].
  destruct (trimEnd s); [rewrite Hc|]; intros c' s' E; now inversion E; subst.
Qed.

Lemma trim_spec (s : string) : core_of s (trim s).
Proof.
  unfold core_of, trim.
  destruct (trimStart_spec s) as (l & El & Hl & Hs).
  destruct (trimEnd_spec (trimStart s)) as (r & Er & Hr & He).
  exists l, r. repeat split; try assumption.
  - now rewrite <- Er.
  - now apply trimEnd_keeps_start.
Qed.

Lemma blank_trimStart (r : string) : blank r = true -> trimStart r = "".
Proof.
  induction r as [|c r IH]; [reflexivity|]. simpl. intros H.
  apply andb_true_iff in H as [Hc Hr]. rewrite Hc. now apply IH.
Qed.

Lemma blank_trimEnd (r : string) : blank r = true -> trimEnd r = "".
Proof.
  induction r as [|c r IH]; [reflexivity|]. simpl. intros H.
  apply andb_true_iff in H as [Hc Hr]. now rewrite (IH Hr), Hc.
Qed.

Lemma trimStart_blank_app (l x : string) :
  blank l = true -> trimStart (l ++ x) = trimStart x.
Proof.
  induction l as [|c l IH]; [reflexivity|]. simpl. intros H.
  apply andb_true_iff in H as [Hc Hl]. rewrite Hc. now apply IH.
Qed.

Lemma tight_end_tail (c : ascii) (o : string) : tight_end (String c o) -> tight_end o.
Proof. intros H s' x E. apply (H (String c s') x). simpl. now rewrite E. Qed.

Lemma trimEnd_app_blank (o r : string) :
  tight_end o -> blank r = true -> trimEnd (o ++ r) = o.
Proof.
  intros Ho Hr. induction o as [|c o IH]; [now apply blank_trimEnd|].
  cbn [append trimEnd]. rewrite (IH (tight_end_tail c o Ho)).
  destruct o as [|x o]; [|reflexivity].
  now rewrite (Ho "" c eq_refl).
Qed.

(** The core of a string is what [trim] returns, and nothing else. *)
Lemma core_of_unique (s out : string) : core_of s out -> out = trim s.
Proof.
  intros (l & r & -> & Hl & Hr & Hs & He). unfold trim.
  rewrite (trimStart_blank_app l _ Hl).
  destruct out as [|c out].
  - cbn [append]. now rewrite (blank_trimStart r Hr).
  - cbn [append trimStart]. rewrite (Hs c out eq_refl).
    symmetry. exact (trimEnd_app_blank (String c out) r He Hr).
Qed.

Lemma trim_trimStart (s : string) : trim (trimStart s) = trim s.
Proof. unfold trim. now rewrite trimStart_idempotent. Qed.

(** *** The ordinal pattern *)

Lemma replace_ordinal_hit (d rest : string) :
  d <> "" -> digits d = true ->
  replace_ordinal (d ++ String "." rest) = trimStart rest.
Proof.
  intros Hne Hd. unfold replace_ordinal.
  rewrite (span_digits_app d (String "." rest) Hd).
  - destruct d; [congruence | reflexivity].
  - intros c r' E. now inversion E; subst.
Qed.

Lemma replace_ordinal_miss (s : string) :
  ~ has_ordinal s -> replace_ordinal s = s.
Proof.
  intros H. unfold replace_ordinal.
  destruct (span_digits s) as [d r] eqn:E.
  destruct (span_digits_sound s d r E) as [Es Hd].
  destruct d as [|x d]; [reflexivity|].
  destruct r as [|c r]; [reflexivity|].
  destruct (Ascii.eqb_spec c ".") as [->|]; [|reflexivity].
  destruct H. exists (String x d), r. now repeat split.
Qed.

(** ** Values *)

Lemma value_ind' (P : value -> Prop) :
  P VUndef -> P VNull -> (forall b, P (VBool b)) -> (forall n, P (VNum n)) ->
  (forall s, P (VStr s)) ->
  (forall items, Forall P items -> P (VArr items)) ->
  (forall fields, Forall (fun kv => P (snd kv)) fields -> P (VObj fields)) ->
  (forall negative, P (VInfinity negative)) ->
  forall v, P v.
Proof.
  intros HU HN HB HZ HS HA HO HI.
  fix IH 1. intros [ | | b | n | s | items | fields | neg].
  - exact HU.
  - exact HN.
  - apply HB.
  - apply HZ.
  - apply HS.
  - apply HA. induction items as [|x items IHitems]; constructor; [apply IH | exact IHitems].
  - apply HO. induction fields as [|[k x] fields IHfields]; constructor;
      [apply IH | exact IHfields].
  - apply HI.
Qed.

Lemma lookup_in (k : string) (fields : list (string * value)) :
  lookup k fields = VUndef \/ In (k, lookup k fields) fields.
Proof.
  induction fields as [|[k' v] fields IH]; [now left|].
  simpl. destruct (String.eqb_spec k' k) as [->|].
  - right. now left.
  - destruct IH as [IH|IH]; [now left | right; now right].
Qed.

Lemma on_property_lookup {R : Type} (k : string) (present : value -> R) (missing : R)
      (fields : list (string * value)) :
  present VUndef = missing ->
  Src.on_property k present missing fields = present (lookup k fields).
Proof.
  intros H. induction fields as [|[k' v] fields IH]; simpl; [now rewrite H|].
  now destruct (k' =? k).
Qed.

(** The search, in the shape of the source: the array loop, then the two
    property tests on anything that is not an array. *)
Lemma findRecipeInJsonLd_eq (data : value) :
  Src.findRecipeInJsonLd data =
    if is_array data
    then match data with
         | VArr items => Src.first_found Src.findRecipeInJsonLd items
         | _ => Ret None
         end
    else bind (member data "@type") (fun ty =>
           if strict_eq_str ty "Recipe"
           then bind (Src.parseJsonLdRecipe data) (fun r => Ret (Some r))
           else if truthy (get data "@graph")
                then Src.findRecipeInJsonLd (get data "@graph")
                else Ret None).
Proof.
  destruct data as [ | | b | n | s | items | fields | neg]; try reflexivity.
  cbn [Src.findRecipeInJsonLd is_array member bind get].
  destruct (strict_eq_str (lookup "@type" fields) "Recipe"); [reflexivity|].
  now rewrite on_property_lookup.
Qed.

Lemma first_found_cons {A : Type} (search : A -> outcome (option partial))
      (item : A) (rest : list A) :
  Src.first_found search (item :: rest) =
    match search item with
    | Ret None => Src.first_found search rest
    | other => other
    end.
Proof. reflexivity. Qed.

(** ** The compiled twin computes what the source computes *)

Lemma twin_parseJsonLdRecipe (recipe : value) :
  Lib.parseJsonLdRecipe recipe = Src.parseJsonLdRecipe recipe.
Proof.
  unfold Lib.parseJsonLdRecipe, Src.parseJsonLdRecipe.
  destruct (get recipe "image"); reflexivity.
Qed.

Lemma twin_findRecipeInJsonLd_eq (data : value) :
  Lib.findRecipeInJsonLd data =
    if is_array data
    then match data with
         | VArr items => Src.first_found Lib.findRecipeInJsonLd items
         | _ => Ret None
         end
    else bind (member data "@type") (fun ty =>
           if strict_eq_str ty "Recipe"
           then bind (Lib.parseJsonLdRecipe data) (fun r => Ret (Some r))
           else if truthy (get data "@graph")
                then Lib.findRecipeInJsonLd (get data "@graph")
                else Ret None).
Proof.
  destruct data as [ | | b | n | s | items | fields | neg]; try reflexivity.
  cbn [Lib.findRecipeInJsonLd is_array member bind get].
  destruct (strict_eq_str (lookup "@type" fields) "Recipe"); [reflexivity|].
  change (@Lib.on_property) with (@Src.on_property).
  now rewrite on_property_lookup.
Qed.

Lemma twin_findRecipeInJsonLd (data : value) :
  Lib.findRecipeInJsonLd data = Src.findRecipeInJsonLd data.
Proof.
  induction data as [ | | b | n | s | items IH | fields IH | neg] using value_ind';
    try reflexivity.
  - rewrite twin_findRecipeInJsonLd_eq, findRecipeInJsonLd_eq. cbn [is_array].
    induction IH as [|x items Hx _ IHitems]; [reflexivity|].
    rewrite !first_found_cons, Hx, IHitems. reflexivity.
  - rewrite twin_findRecipeInJsonLd_eq, findRecipeInJsonLd_eq.
    cbn [is_array member bind get]. rewrite twin_parseJsonLdRecipe.
    destruct (strict_eq_str (lookup "@type" fields) "Recipe"); [reflexivity|].
    destruct (truthy (lookup "@graph" fields)) eqn:Hg; [|reflexivity].
    destruct (lookup_in "@graph" fields) as [E|E].
    + rewrite E in Hg. discriminate.
    + rewrite Forall_forall in IH. exact (IH _ E).
Qed.

Lemma twin_scanScripts (parse : string -> option value) (scripts : list Dom.element) :
  Lib.scanScripts parse scripts = Src.scanScripts parse scripts.
Proof.
  induction scripts as [|b scripts IH]; [reflexivity|].
  cbn [Lib.scanScripts Src.scanScripts]. rewrite IH.
  unfold Lib.scanScript, Src.scanScript.
  destruct (Dom.html b) as [content|]; [|reflexivity].
  destruct (content =? ""); [reflexivity|].
  destruct (parse content) as [data|]; [|reflexivity].
  now rewrite twin_findRecipeInJsonLd.
Qed.

Lemma twin_extractFromJsonLd (parse : string -> option value) (page : Dom.document) :
  Lib.extractFromJsonLd parse page = Src.extractFromJsonLd parse page.
Proof. apply twin_scanScripts. Qed.

Lemma twin_extractFromPage (parse : string -> option value) (page : Dom.document)
      (url : string) :
  Lib.extractFromPage parse page url = Src.extractFromPage parse page url.
Proof.
  unfold Lib.extractFromPage, Src.extractFromPage.
  now rewrite twin_extractFromJsonLd.
Qed.

(** C9: for every outcome of the request and every URL, the orchestrator of
    [lib/index.js] returns the recipe, or throws the error, that the
    orchestrator of [src/index.ts] does, and so does each helper function on
    every argument. *)
Theorem C9_compiled_twin_equivalent :
  (forall parse response url,
      Lib.extractRecipeFromUrl parse response url
      = Src.extractRecipeFromUrl parse response url)
  /\ (forall parse page, Lib.extractFromJsonLd parse page = Src.extractFromJsonLd parse page)
  /\ (forall data, Lib.findRecipeInJsonLd data = Src.findRecipeInJsonLd data)
  /\ (forall recipe, Lib.parseJsonLdRecipe recipe = Src.parseJsonLdRecipe recipe)
  /\ (forall v, Lib.extractText v = Src.extractText v)
  /\ (forall v, Lib.extractArray v = Src.extractArray v)
  /\ (forall v, Lib.extractTime v = Src.extractTime v)
  /\ (forall v, Lib.extractNumber v = Src.extractNumber v)
  /\ (forall page, Lib.extractFromMicrodata page = Src.extractFromMicrodata page)
  /\ (forall page, Lib.extractFromCommonSelectors page = Src.extractFromCommonSelectors page)
  /\ (forall page selectors,
         Lib.findTextBySelectors page selectors = Src.findTextBySelectors page selectors)
  /\ (forall page selectors,
         Lib.findMultipleTextBySelectors page selectors
         = Src.findMultipleTextBySelectors page selectors).
Proof.
  repeat split; try reflexivity.
  - intros parse [page|e] url; [|reflexivity].
    unfold Lib.extractRecipeFromUrl, Src.extractRecipeFromUrl.
    now rewrite twin_extractFromPage.
  - intros. apply twin_extractFromJsonLd.
  - intros. apply twin_findRecipeInJsonLd.
  - intros. apply twin_parseJsonLdRecipe.
Qed.

(** ** The field normalizers *)

Import Demo.

Lemma extractTime_hours_minutes (h m : string) :
  h <> "" -> m <> "" -> digits h = true -> digits m = true ->
  Src.extractTime (VStr ("PT" ++ h ++ "H" ++ m ++ "M")) =
    if negb (decimal h =? 0)%Z && negb (decimal m =? 0)%Z
    then VStr (rendered (decimal h) ++ "h " ++ rendered (decimal m) ++ "min")
    else if negb (decimal h =? 0)%Z then VStr (rendered (decimal h) ++ "h")
    else if negb (decimal m =? 0)%Z then VStr (rendered (decimal m) ++ "min")
    else VStr ("PT" ++ h ++ "H" ++ m ++ "M").
Proof.
  intros Hh Hm Dh Dm.
  rewrite (extractTime_PT (h ++ "H" ++ m ++ "M") (m ++ "M") "" (Some h) (Some m)).
  - cbv zeta. rewrite (parseInt_digits h Hh Dh), (parseInt_digits m Hm Dm).
    now rewrite !to_number_truthy.
  - now apply opt_group_hit.
  - now apply opt_group_hit.
Qed.

Lemma extractTime_hours (h : string) :
  h <> "" -> digits h = true ->
  Src.extractTime (VStr ("PT" ++ h ++ "H")) =
    if negb (decimal h =? 0)%Z then VStr (rendered (decimal h) ++ "h")
    else VStr ("PT" ++ h ++ "H").
Proof.
  intros Hh Dh.
  rewrite (extractTime_PT (h ++ "H") "" "" (Some h) None).
  - cbv zeta. rewrite (parseInt_digits h Hh Dh), to_number_truthy.
    cbn [num_truthy Z.eqb negb]. rewrite andb_false_r.
    now destruct (negb (decimal h =? 0)%Z).
  - now apply opt_group_hit.
  - reflexivity.
Qed.

Lemma extractTime_minutes (m : string) :
  m <> "" -> digits m = true ->
  Src.extractTime (VStr ("PT" ++ m ++ "M")) =
    if negb (decimal m =? 0)%Z then VStr (rendered (decimal m) ++ "min")
    else VStr ("PT" ++ m ++ "M").
Proof.
  intros Hm Dm.
  rewrite (extractTime_PT (m ++ "M") (m ++ "M") "" None (Some m)).
  - cbv zeta. rewrite (parseInt_digits m Hm Dm), to_number_truthy. reflexivity.
  - now apply opt_group_other.
  - now apply opt_group_hit.
Qed.

Lemma opt_group_none (X : ascii) (d tail : string) :
  digits d = true ->
  match tail with
  | "" => True
  | String c _ => is_digit c = false /\ Ascii.eqb c X = false
  end ->
  opt_group X (d ++ tail) = (None, d ++ tail).
Proof.
  intros Hd Ht. destruct tail as [|c tail].
  - unfold opt_group. rewrite (span_digits_app d "" Hd).
    + now destruct d.
    + intros c r' E. discriminate.
  - destruct Ht as [Hc HX]. now apply opt_group_other.
Qed.

Lemma extractTime_no_component (d tail : string) :
  digits d = true -> no_unit tail = true ->
  Src.extractTime (VStr ("PT" ++ d ++ tail)) = VStr ("PT" ++ d ++ tail).
Proof.
  intros Hd Ht.
  assert (HH : opt_group "H" (d ++ tail) = (None, d ++ tail)).
  { apply opt_group_none; [exact Hd|]. destruct tail as [|c tail]; [exact I|].
    cbn [no_unit] in Ht. apply negb_true_iff in Ht.
    apply orb_false_iff in Ht as [Ht _]. apply orb_false_iff in Ht as [H1 H2].
    now split. }
  assert (HM : opt_group "M" (d ++ tail) = (None, d ++ tail)).
  { apply opt_group_none; [exact Hd|]. destruct tail as [|c tail]; [exact I|].
    cbn [no_unit] in Ht. apply negb_true_iff in Ht.
    apply orb_false_iff in Ht as [Ht H3]. apply orb_false_iff in Ht as [H1 _].
    now split. }
  now rewrite (extractTime_PT (d ++ tail) (d ++ tail) (d ++ tail) None None HH HM).
Qed.




Lemma clean_spec (s : string) : cleaned_from s (trim (replace_ordinal s)).
Proof.
  split.
  - intros d rest Hne Hd ->. rewrite (replace_ordinal_hit d rest Hne Hd), trim_trimStart.
    apply trim_spec.
  - intros H. rewrite (replace_ordinal_miss s H). apply trim_spec.
Qed.

Lemma mapM_cleanInstruction (l out : list value) :
  Src.mapM Src.cleanInstruction l = Ret out ->
  exists raw, l = map VStr raw
              /\ out = map (fun s => VStr (trim (replace_ordinal s))) raw.
Proof.
  revert out. induction l as [|x l IH]; intros out H.
  - inversion H. now exists [].
  - cbn [Src.mapM] in H. destruct x; try discriminate. cbn [Src.cleanInstruction bind] in H.
    destruct (Src.mapM Src.cleanInstruction l) as [ys|e]; [|discriminate].
    inversion H; subst. destruct (IH ys eq_refl) as (raw & -> & ->).
    now exists (s :: raw).
Qed.

(** What a successful mapping of a [Recipe] object consists of. *)
Lemma parseJsonLdRecipe_ret (recipe : value) (r : partial) :
  Src.parseJsonLdRecipe recipe = Ret r ->
  p_title r = Src.extractText (get recipe "name")
  /\ p_tags r = VArr (Src.extractArray (get recipe "recipeCategory")
                       ++ Src.extractArray (get recipe "recipeCuisine"))%list
  /\ p_ingredients r = VArr (Src.extractArray (get recipe "recipeIngredient"))
  /\ exists instrs,
       p_instructions r = VArr instrs
       /\ (if truthy (get recipe "recipeInstructions")
           then Src.mapM Src.cleanInstruction
                         (Src.extractArray (get recipe "recipeInstructions"))
           else Ret []) = Ret instrs.
Proof.
  unfold Src.parseJsonLdRecipe. intros H.
  destruct (member recipe "name") as [name|e] eqn:En; [|discriminate].
  assert (name = get recipe "name") as -> by (destruct recipe; inversion En; reflexivity).
  cbn [bind] in H.
  destruct (if truthy (get recipe "recipeInstructions")
            then Src.mapM Src.cleanInstruction
                          (Src.extractArray (get recipe "recipeInstructions"))
            else Ret []) as [instrs|e] eqn:Ei; [|discriminate].
  inversion H; subst; cbn. repeat split. now exists instrs.
Qed.




(** C6 as stated fails: category [dessert, dessert] with cuisine [italian]
    gives three tags, [dessert] twice. *)
Lemma C6_duplicate_tags_counterexample :
  exists r, Src.parseJsonLdRecipe tiramisu = Ret r
            /\ get tiramisu "recipeCategory" = VArr [VStr "dessert"; VStr "dessert"]
            /\ get tiramisu "recipeCuisine" = VArr [VStr "italian"]
            /\ p_tags r = VArr [VStr "dessert"; VStr "dessert"; VStr "italian"]
            /\ p_tags r <> VArr [VStr "dessert"; VStr "italian"]
            /\ ~ NoDup ["dessert"; "dessert"; "italian"].
Proof.
  eexists. split; [reflexivity|]. repeat split; try discriminate.
  intros H. inversion H as [|x l Hin _]; subst. apply Hin. now left.
Qed.

(** ** The structured-data search *)

(** C4 fails on the code at [null]: the search reads a property of [null]
    and throws, both for the value [null] itself and, ending the loop, for
    an array that holds [null] before a [Recipe] object; the block is then
    skipped although it holds a recipe. *)
Theorem C4_null_aborts_search :
  Src.findRecipeInJsonLd VNull = Throw TypeError
  /\ Src.findRecipeInJsonLd (VArr [VNull; cake]) = Throw TypeError
  /\ (exists r, Src.findRecipeInJsonLd (VArr [cake]) = Ret (Some r)
                /\ p_title r = VStr "Cake")
  /\ parse null_then_cake_text = Some (VArr [VNull; cake])
  /\ Src.extractFromJsonLd parse null_then_cake_page = None.
Proof.
  repeat split; try reflexivity.
  eexists. split; reflexivity.
Qed.

(** ** Microdata *)

Lemma extractFromMicrodata_some (page : Dom.document) (r : partial) :
  Src.extractFromMicrodata page = Some r ->
  exists recipeElement rest,
    Dom.select page Src.microdataSelector = recipeElement :: rest
    /\ p_title r = Src.first_value (Src.extractProp recipeElement "name")
    /\ truthy (p_title r) = true
    /\ p_servings r =
         match Src.parseInt_first (Src.extractProp recipeElement "recipeYield") with
         | Finite n => if (n =? 0)%Z then VUndef else VNum n
         | Infinite negative => VInfinity negative
         | NaN => VUndef
         end.
Proof.
  unfold Src.extractFromMicrodata. intros H.
  destruct (Dom.select page Src.microdataSelector) as [|el rest]; [discriminate|].
  destruct (truthy (Src.first_value (Src.extractProp el "name"))) eqn:Ht;
    [|discriminate].
  cbn [negb] in H. inversion H; subst; cbn.
  exists el, rest. repeat split; [exact Ht|].
  destruct (Src.parseInt_first (Src.extractProp el "recipeYield")) as [|n|negative];
    try reflexivity.
  cbn [num_truthy]. now destruct (n =? 0)%Z.
Qed.

(** ** The scan over the linked-data blocks *)

Section Scan.

Variable parse : string -> option value.

Lemma scanScript_yields (b : Dom.element) (r : partial) :
  Src.scanScript parse b = Some r <-> block_yields parse b r.
Proof.
  unfold Src.scanScript, block_yields. split.
  - intros H. destruct (Dom.html b) as [content|]; [|discriminate].
    destruct (String.eqb_spec content "") as [|Hne]; [discriminate|].
    destruct (parse content) as [data|] eqn:Ep; [|discriminate].
    destruct (Src.findRecipeInJsonLd data) as [[p|]|e] eqn:Ef; try discriminate.
    inversion H; subst. now exists content, data.
  - intros (content & data & -> & Hne & -> & ->).
    now destruct (String.eqb_spec content "").
Qed.

Lemma typed_recipe_found (data : value) (r : partial) :
  strict_eq_str (get data "@type") "Recipe" = true ->
  Src.parseJsonLdRecipe data = Ret r ->
  Src.findRecipeInJsonLd data = Ret (Some r).
Proof.
  intros Ht Hp. rewrite findRecipeInJsonLd_eq.
  destruct data; try discriminate. cbn [is_array member bind].
  now rewrite Ht, Hp.
Qed.

End Scan.

(** C3 fails on the code when the block that holds the recipe holds a
    [null] before it: the search throws at the [null], the scan takes the
    throw for a block to pass over, and the extractor returns null although
    the second block matches; with the recipe alone in the second block the
    extraction succeeds with its data, as it does with the recipe in a
    third block after one that [JSON.parse] rejects and one that is no
    recipe. *)
Theorem C3_recipe_behind_null_missed :
  Dom.select Samples.hidden_second_page Src.jsonLdSelector
  = [node webpage_text; node null_then_cake_text]
  /\ parse webpage_text = Some webpage
  /\ recipe_typed_inside webpage = false
  /\ parse null_then_cake_text = Some (VArr [VNull; cake])
  /\ Laws.reaches (VArr [VNull; cake]) cake
  /\ (exists r, Src.parseJsonLdRecipe cake = Ret r
                /\ p_title r = VStr "Cake"
                /\ p_ingredients r = VArr [] /\ p_instructions r = VArr [])
  /\ Src.findRecipeInJsonLd (VArr [VNull; cake]) = Throw TypeError
  /\ Src.extractFromJsonLd parse Samples.hidden_second_page = None
  /\ (exists r, Src.extractFromJsonLd parse Samples.two_blocks_page = Some r
                /\ Src.parseJsonLdRecipe cake = Ret r
                /\ p_title r = VStr "Cake")
  /\ (Dom.select three_blocks_page Src.jsonLdSelector
      = [node "{oops"; node webpage_text; node tiramisu_text]
      /\ parse "{oops" = None
      /\ exists r, Src.extractFromJsonLd parse three_blocks_page = Some r
                   /\ p_title r = VStr "Tiramisu"
                   /\ p_ingredients r = VArr [VStr "eggs"]).
Proof.
  split; [reflexivity|]. split; [reflexivity|]. split; [reflexivity|].
  split; [reflexivity|]. split; [|split; [|split; [|split; [|split]]]].
  - apply Laws.reaches_item with (x := cake); [right; now left|].
    now apply Laws.reaches_here.
  - eexists. repeat split.
  - reflexivity.
  - reflexivity.
  - eexists. repeat split.
  - split; [reflexivity|]. split; [reflexivity|]. eexists. repeat split.
Qed.

(** ** The heuristic selectors *)

Lemma findMultiple_first_yield (page : Dom.document) (selectors : list string) :
  first_yield page selectors (Src.findMultipleTextBySelectors page selectors).
Proof.
  induction selectors as [|sel selectors IH]; cbn [Src.findMultipleTextBySelectors].
  - right. split; [intros s [] | reflexivity].
  - change (Src.nonEmptyTexts (Dom.select page sel)) with (yields page sel).
    destruct (yields page sel) as [|t ts] eqn:E.
    + destruct IH as [(pre & s0 & post & -> & Hpre & Hne & Ht)|[Hall Ht]].
      * left. exists (sel :: pre), s0, post. repeat split; try assumption.
        intros s [<-|Hin]; [exact E | now apply Hpre].
      * right. split; [|exact Ht]. intros s [<-|Hin]; [exact E | now apply Hall].
    + left. exists [], sel, selectors. rewrite E.
      repeat split; [intros s [] | discriminate].
Qed.

Lemma first_yield_nothing (page : Dom.document) (selectors : list string)
      (texts : list string) :
  (forall s, In s selectors -> yields page s = []) ->
  first_yield page selectors texts -> texts = [].
Proof.
  intros Hall [(pre & sel & post & -> & _ & Hne & _)|[_ Ht]]; [|exact Ht].
  destruct Hne. apply Hall, in_elt.
Qed.

Lemma findText_nothing (page : Dom.document) (selectors : list string) :
  (forall s, In s selectors -> yields page s = []) ->
  Src.findTextBySelectors page selectors = "".
Proof.
  induction selectors as [|sel selectors IH]; intros Hall; [reflexivity|].
  cbn [Src.findTextBySelectors].
  assert (IH' : Src.findTextBySelectors page selectors = "")
    by (apply IH; intros s Hs; apply Hall; now right).
  pose proof (Hall sel (or_introl eq_refl)) as Hsel. unfold yields in Hsel.
  destruct (Dom.select page sel) as [|el els]; [exact IH'|].
  cbn [map filter] in Hsel.
  destruct (trim (Dom.text el) =? ""); [exact IH' | discriminate].
Qed.

Lemma length_not_zero (l : list string) : (length l =? 0)%nat = false -> l <> [].
Proof. now destruct l. Qed.

Lemma commonSelectors_some (page : Dom.document) (r : partial) :
  Src.extractFromCommonSelectors page = Some r ->
  exists ingredients instructions,
    p_ingredients r = VArr (map VStr ingredients)
    /\ first_yield page Src.ingredientSelectors ingredients
    /\ p_instructions r = VArr (map VStr instructions)
    /\ first_yield page Src.instructionSelectors instructions
    /\ (ingredients <> [] \/ instructions <> []).
Proof.
  unfold Src.extractFromCommonSelectors. intros H.
  destruct (Src.findTextBySelectors page Src.titleSelectors =? ""); [discriminate|].
  cbv zeta in H.
  set (ings := Src.findMultipleTextBySelectors page Src.ingredientSelectors) in *.
  set (inss := Src.findMultipleTextBySelectors page Src.instructionSelectors) in *.
  destruct ((length ings =? 0)%nat && (length inss =? 0)%nat) eqn:E; [discriminate|].
  inversion H; subst r; cbn.
  exists ings, inss.
  split; [reflexivity|]. split; [apply findMultiple_first_yield|].
  split; [reflexivity|]. split; [apply findMultiple_first_yield|].
  apply andb_false_iff in E. destruct E as [E|E]; [left|right];
    now apply length_not_zero.
Qed.



(** ** The orchestrator *)

Section Orchestration.

Variable parse : string -> option value.
Variable page : Dom.document.
Variable url : string.

(** The orchestrator returns the first usable strategy result, and throws
    its error when there is none. *)
Lemma orchestrator_first_usable :
  Src.extractRecipeFromUrl parse (Loaded page) url =
    match first_usable (Src.extractFromJsonLd parse page)
                       (Src.extractFromMicrodata page)
                       (Src.extractFromCommonSelectors page) with
    | Some p => Ret (Src.accept url p)
    | None => Throw (Error Src.noRecipeMessage)
    end.
Proof.
  unfold Src.extractRecipeFromUrl, Src.extractFromPage, Src.attempt, Src.usable,
    first_usable, titled.
  destruct (Src.extractFromJsonLd parse page) as [j|];
    destruct (Src.extractFromMicrodata page) as [m|];
    destruct (Src.extractFromCommonSelectors page) as [c|];
    repeat match goal with
           | |- context [truthy (p_title ?x)] => destruct (truthy (p_title x))
           end; reflexivity.
Qed.

Lemma first_usable_titled (j m c : option partial) (p : partial) :
  first_usable j m c = Some p -> truthy (p_title p) = true.
Proof.
  unfold first_usable, titled.
  destruct j as [j|]; destruct m as [m|]; destruct c as [c|];
    repeat match goal with
           | |- context [if truthy (p_title ?x) then _ else _] =>
               destruct (truthy (p_title x)) eqn:?
           end; intros H; inversion H; subst; assumption.
Qed.

Lemma first_usable_none (j m c : option partial) :
  first_usable j m c = None <->
  titled j = false /\ titled m = false /\ titled c = false.
Proof.
  unfold first_usable, titled.
  destruct j as [j|]; destruct m as [m|]; destruct c as [c|];
    repeat match goal with
           | |- context [truthy (p_title ?x)] => destruct (truthy (p_title x))
           end; split; try discriminate; try (intros (? & ? & ?); discriminate);
    now repeat split.
Qed.

End Orchestration.

Lemma non_empty_strings (l : list string) : l <> [] -> non_empty (VArr (map VStr l)).
Proof. destruct l as [|x l]; [congruence|]. intros _. now exists (VStr x), (map VStr l). Qed.

Lemma truthy_text (s : string) : truthy (VStr s) = true -> s <> "".
Proof. cbn. now destruct (String.eqb_spec s ""). Qed.

Lemma microdata_title_text (page : Dom.document) (m : partial) :
  Src.extractFromMicrodata page = Some m ->
  exists t, p_title m = VStr t /\ t <> "".
Proof.
  intros H. destruct (extractFromMicrodata_some page m H) as (el & rest & _ & Et & Ht & _).
  rewrite Et in *. destruct (Src.extractProp el "name") as [|t ts]; [discriminate|].
  exists t. split; [reflexivity | now apply truthy_text].
Qed.

Lemma selectors_title_text (page : Dom.document) (c : partial) :
  Src.extractFromCommonSelectors page = Some c -> exists t, p_title c = VStr t.
Proof.
  unfold Src.extractFromCommonSelectors.
  destruct (Src.findTextBySelectors page Src.titleSelectors =? ""); [discriminate|].
  cbv zeta.
  destruct ((length _ =? 0)%nat && (length _ =? 0)%nat); [discriminate|].
  intros H. inversion H; subst c; cbn. now eexists.
Qed.

(** C1, as the code has it: the orchestrator returns a recipe whose title is
    truthy, taken from the first strategy whose result is neither null nor
    untitled, or fails with the no-recipe error and returns nothing.  A
    truthy title that is a string is not empty, and the title is a string
    whenever the recipe comes from the microdata or from the selectors.
    The orchestrator fails exactly when every strategy result is null or
    untitled, as on a page with no linked data, no microdata and no title
    pattern; a result of the heuristic strategy has an ingredient or an
    instruction. *)
Theorem C1_titled_or_no_recipe (parse : string -> option value) (page : Dom.document)
        (url : string) :
  ((exists recipe,
       Src.extractRecipeFromUrl parse (Loaded page) url = Ret recipe
       /\ truthy (title recipe) = true
       /\ (forall s, title recipe = VStr s -> s <> "")
       /\ sourceUrl recipe = url)
   \/ Src.extractRecipeFromUrl parse (Loaded page) url
      = Throw (Error "No recipe data found on this page"))
  /\ (Src.extractRecipeFromUrl parse (Loaded page) url
      = Throw (Error "No recipe data found on this page") <->
      titled (Src.extractFromJsonLd parse page) = false
      /\ titled (Src.extractFromMicrodata page) = false
      /\ titled (Src.extractFromCommonSelectors page) = false)
  /\ (forall recipe,
         Src.extractRecipeFromUrl parse (Loaded page) url = Ret recipe ->
         exists p,
           first_usable (Src.extractFromJsonLd parse page)
                        (Src.extractFromMicrodata page)
                        (Src.extractFromCommonSelectors page) = Some p
           /\ recipe = Src.accept url p)
  /\ (titled (Src.extractFromJsonLd parse page) = false ->
      forall recipe,
        Src.extractRecipeFromUrl parse (Loaded page) url = Ret recipe ->
        exists t, title recipe = VStr t /\ t <> "")
  /\ (titled (Src.extractFromJsonLd parse page) = false ->
      titled (Src.extractFromMicrodata page) = false ->
      forall recipe,
        Src.extractRecipeFromUrl parse (Loaded page) url = Ret recipe ->
        non_empty (ingredients recipe) \/ non_empty (instructions recipe))
  /\ (Dom.select page Src.jsonLdSelector = [] ->
      Dom.select page Src.microdataSelector = [] ->
      (forall s, In s Src.titleSelectors -> yields page s = []) ->
      Src.extractRecipeFromUrl parse (Loaded page) url
      = Throw (Error "No recipe data found on this page")).
Proof.
  rewrite orchestrator_first_usable.
  split; [|split; [|split; [|split; [|split]]]].
  - destruct (first_usable _ _ _) as [p|] eqn:E; [left | now right].
    exists (Src.accept url p).
    pose proof (first_usable_titled _ _ _ p E) as Ht.
    split; [reflexivity|]. split; [exact Ht|]. split; [|reflexivity].
    intros s Es. cbn [Src.accept title] in Es. rewrite Es in Ht.
    now apply truthy_text.
  - rewrite <- first_usable_none.
    destruct (first_usable _ _ _) as [p|]; split; try discriminate; reflexivity.
  - intros recipe H. destruct (first_usable _ _ _) as [p|]; [|discriminate].
    inversion H; subst. now exists p.
  - intros Hj recipe H. unfold first_usable in H. rewrite Hj in H.
    destruct (Src.extractFromMicrodata page) as [m|] eqn:Em; cbn [titled] in H.
    + destruct (microdata_title_text page m Em) as (t & Et & Hne).
      destruct (truthy (p_title m)) eqn:Htm.
      * inversion H; subst recipe. now exists t.
      * rewrite Et in Htm. cbn in Htm.
        destruct (String.eqb_spec t ""); [congruence | discriminate].
    + destruct (Src.extractFromCommonSelectors page) as [c|] eqn:Ec; [|discriminate].
      destruct (selectors_title_text page c Ec) as (t & Et).
      cbn [titled] in H.
      destruct (truthy (p_title c)) eqn:Htc; [|discriminate].
      inversion H; subst recipe. exists t. split; [exact Et|].
      rewrite Et in Htc. now apply truthy_text.
  - intros Hj Hm recipe H. unfold first_usable in H. rewrite Hj, Hm in H.
    destruct (Src.extractFromCommonSelectors page) as [c|] eqn:Ec; [|discriminate].
    cbn [titled] in H. destruct (truthy (p_title c)); [|discriminate].
    inversion H; subst recipe.
    destruct (commonSelectors_some page c Ec) as (ings & inss & Ei & _ & Es & _ & Hne).
    cbn [Src.accept ingredients instructions]. rewrite Ei, Es.
    destruct Hne as [Hne|Hne]; [left|right]; now apply non_empty_strings.
  - intros Hj Hm Ht. unfold first_usable, Src.extractFromJsonLd, Src.extractFromMicrodata,
      Src.extractFromCommonSelectors.
    now rewrite Hj, Hm, (findText_nothing page _ Ht).
Qed.

(** C1 as stated fails: a page whose linked data gives a title and nothing
    else is answered with a recipe that has no ingredient and no
    instruction, not with the no-recipe error. *)
Lemma C1_title_only_counterexample :
  exists recipe,
    Src.extractRecipeFromUrl parse (Loaded title_only_page) "https://example.com/cake"
    = Ret recipe
    /\ title recipe = VStr "Cake"
    /\ ingredients recipe = VArr []
    /\ instructions recipe = VArr [].
Proof. eexists. repeat split. Qed.

(** C2 fails on the code at a page that matches both patterns, its linked
    data holding a [null] before the recipe: the structured-data extractor
    returns null there, and the title returned is the one of the microdata;
    without the [null] it is the one of the structured data. *)
Theorem C2_hidden_structured_title :
  Dom.select Samples.hidden_cake_page Src.jsonLdSelector = [node null_then_cake_text]
  /\ parse null_then_cake_text = Some (VArr [VNull; cake])
  /\ Laws.reaches (VArr [VNull; cake]) cake
  /\ (exists j, Src.parseJsonLdRecipe cake = Ret j /\ p_title j = VStr "Cake")
  /\ (exists m, Src.extractFromMicrodata Samples.hidden_cake_page = Some m
                /\ p_title m = VStr "Pie")
  /\ Src.extractFromJsonLd parse Samples.hidden_cake_page = None
  /\ (exists recipe,
         Src.extractRecipeFromUrl parse (Loaded Samples.hidden_cake_page)
                                  "https://example.com/" = Ret recipe
         /\ title recipe = VStr "Pie")
  /\ (exists j m recipe,
         Src.extractFromJsonLd parse two_titles_page = Some j
         /\ p_title j = VStr "Cake"
         /\ Src.extractFromMicrodata two_titles_page = Some m
         /\ p_title m = VStr "Pie"
         /\ Src.extractRecipeFromUrl parse (Loaded two_titles_page)
                                     "https://example.com/" = Ret recipe
         /\ title recipe = VStr "Cake").
Proof.
  split; [reflexivity|]. split; [reflexivity|]. split; [|split; [|split; [|split; [|split]]]].
  - apply Laws.reaches_item with (x := cake); [right; now left|].
    now apply Laws.reaches_here.
  - eexists. split; reflexivity.
  - eexists. split; reflexivity.
  - reflexivity.
  - eexists. split; reflexivity.
  - eexists. eexists. eexists. repeat split.
Qed.

(** ** The callable function *)

Import Laws.

Section HandlerFacts.

Variable URL_protocol : string -> option string.
Variable parse : string -> option value.
Variable platform_message : exn -> string.

Lemma scrape_valid (fetch : string -> fetched) (u : string) :
  u <> "" -> Handler.isValidUrl URL_protocol u = true ->
  Handler.scrapeRecipeV2 URL_protocol parse fetch platform_message (Handler.Data (Some u)) =
    match Src.extractRecipeFromUrl parse (fetch u) u with
    | Ret recipe => Handler.Recipe recipe
    | Throw e => Handler.HttpsError "internal" (Handler.message_of platform_message e)
    end.
Proof.
  intros Hne Hv. unfold Handler.scrapeRecipeV2, Handler.attemptScrape.
  destruct (String.eqb_spec u "") as [|_]; [congruence|]. rewrite Hv. cbn [negb].
  now destruct (Src.extractRecipeFromUrl parse (fetch u) u).
Qed.

Lemma scrape_refused (fetch : string -> fetched) (data : Handler.payload) :
  refused URL_protocol data ->
  exists m, (m = "URL is required" \/ m = "Invalid URL format")
            /\ Handler.scrapeRecipeV2 URL_protocol parse fetch platform_message data
               = Handler.HttpsError "invalid-argument" m.
Proof.
  intros [->|[->|(u & -> & Hu)]].
  - exists "URL is required". split; [now left | reflexivity].
  - exists "URL is required". split; [now left | reflexivity].
  - unfold Handler.scrapeRecipeV2, Handler.attemptScrape.
    destruct (u =? "").
    + exists "URL is required". split; [now left | reflexivity].
    + rewrite Hu. exists "Invalid URL format". split; [now right | reflexivity].
Qed.

Lemma scrape_not_refused (fetch : string -> fetched) (data : Handler.payload) :
  ~ refused URL_protocol data ->
  data = Handler.NoData
  \/ exists u, data = Handler.Data (Some u) /\ u <> ""
               /\ Handler.isValidUrl URL_protocol u = true.
Proof.
  intros H. destruct data as [|[u|]].
  - now left.
  - right. exists u. split; [reflexivity|].
    split.
    + intros ->. apply H. right. now left.
    + destruct (Handler.isValidUrl URL_protocol u) eqn:E; [reflexivity|].
      destruct H. right. right. now exists u.
  - destruct H. now left.
Qed.

Lemma refused_dec (data : Handler.payload) :
  refused URL_protocol data \/ ~ refused URL_protocol data.
Proof.
  destruct data as [|[u|]].
  - right. intros [H|[H|(u & H & _)]]; discriminate.
  - destruct (Handler.isValidUrl URL_protocol u) eqn:E.
    + destruct (String.eqb_spec u "") as [->|Hne].
      * left. right. now left.
      * right. intros [H|[H|(u' & H & Hu)]]; inversion H; subst; congruence.
    + left. right. right. now exists u.
  - left. now left.
Qed.

(** X1: every failure of the callable function is an [HttpsError] with the
    code [invalid-argument] or [internal]; the code is [invalid-argument]
    exactly for a payload with no URL, an empty one or one that is no
    http(s) URL, and such a payload is answered without any request: the
    reply is the same whatever the network would have returned. *)
Theorem X1_handler_argument_errors (fetch : string -> fetched) (data : Handler.payload) :
  (forall code m,
      Handler.scrapeRecipeV2 URL_protocol parse fetch platform_message data
      = Handler.HttpsError code m ->
      code = "invalid-argument" \/ code = "internal")
  /\ ((exists m, Handler.scrapeRecipeV2 URL_protocol parse fetch platform_message data
                 = Handler.HttpsError "invalid-argument" m)
      <-> refused URL_protocol data)
  /\ (refused URL_protocol data ->
      forall fetch',
        Handler.scrapeRecipeV2 URL_protocol parse fetch' platform_message data
        = Handler.scrapeRecipeV2 URL_protocol parse fetch platform_message data).
Proof.
  assert (Hint : forall m, ~ refused URL_protocol data ->
                 Handler.scrapeRecipeV2 URL_protocol parse fetch platform_message data
                 <> Handler.HttpsError "invalid-argument" m).
  { intros m Hn. destruct (scrape_not_refused fetch data Hn) as [->|(u & -> & Hne & Hv)].
    - discriminate.
    - rewrite (scrape_valid fetch u Hne Hv).
      destruct (Src.extractRecipeFromUrl parse (fetch u) u); discriminate. }
  split; [|split].
  - intros code m H. destruct (refused_dec data) as [Hr|Hn].
    + destruct (scrape_refused fetch data Hr) as (m' & _ & E).
      rewrite E in H. inversion H. now left.
    + destruct (scrape_not_refused fetch data Hn) as [->|(u & -> & Hne & Hv)].
      * inversion H. now right.
      * rewrite (scrape_valid fetch u Hne Hv) in H.
        destruct (Src.extractRecipeFromUrl parse (fetch u) u); inversion H. now right.
  - split.
    + intros (m & H). destruct (refused_dec data) as [Hr|Hn]; [exact Hr|].
      now destruct (Hint m Hn).
    + intros Hr. destruct (scrape_refused fetch data Hr) as (m & _ & E). now exists m.
  - intros [->|[->|(u & -> & Hu)]] fetch'; try reflexivity.
    unfold Handler.scrapeRecipeV2, Handler.attemptScrape.
    destruct (u =? ""); [reflexivity|]. now rewrite Hu.
Qed.

Lemma handler_success_facts (fetch : string -> fetched) (data : Handler.payload)
        (recipe : ScrapedRecipe) :
  Handler.scrapeRecipeV2 URL_protocol parse fetch platform_message data
  = Handler.Recipe recipe ->
  exists u page,
    data = Handler.Data (Some u) /\ u <> ""
    /\ (URL_protocol u = Some "http:" \/ URL_protocol u = Some "https:")
    /\ fetch u = Loaded page
    /\ sourceUrl recipe = u
    /\ truthy (title recipe) = true.
Proof.
  intros H. destruct (refused_dec data) as [Hr|Hn].
  - destruct (scrape_refused fetch data Hr) as (m & _ & E). congruence.
  - destruct (scrape_not_refused fetch data Hn) as [->|(u & -> & Hne & Hv)];
      [discriminate|].
    rewrite (scrape_valid fetch u Hne Hv) in H.
    destruct (fetch u) as [page|e] eqn:Ef.
    + exists u, page. split; [reflexivity|]. split; [exact Hne|].
      split.
      * unfold Handler.isValidUrl in Hv. destruct (URL_protocol u) as [p|]; [|discriminate].
        apply orb_true_iff in Hv as [Hp|Hp]; apply String.eqb_eq in Hp; subst; auto.
      * split; [exact Ef|].
        rewrite orchestrator_first_usable in H.
        destruct (first_usable _ _ _) as [p|] eqn:Ep; inversion H; subst.
        split; [reflexivity|]. exact (first_usable_titled _ _ _ p Ep).
    + cbn in H. discriminate.
Qed.

(** X2: when the callable function returns a recipe, the payload held a
    non-empty URL whose protocol is [http:] or [https:], the page was
    fetched, the recipe echoes that URL as its source, and its title is
    truthy: when it is a string, it is not empty. *)
Theorem X2_handler_success (fetch : string -> fetched) (data : Handler.payload)
        (recipe : ScrapedRecipe) :
  Handler.scrapeRecipeV2 URL_protocol parse fetch platform_message data
  = Handler.Recipe recipe ->
  exists u page,
    data = Handler.Data (Some u) /\ u <> ""
    /\ (URL_protocol u = Some "http:" \/ URL_protocol u = Some "https:")
    /\ fetch u = Loaded page
    /\ sourceUrl recipe = u
    /\ truthy (title recipe) = true
    /\ (forall s, title recipe = VStr s -> s <> "").
Proof.
  intros H.
  destruct (handler_success_facts fetch data recipe H) as (u & page & E & Hu & Hp & Hf & Hs & Ht).
  exists u, page. repeat split; try assumption.
  intros s Es. rewrite Es in Ht. now apply truthy_text.
Qed.

End HandlerFacts.

Lemma X2_handler_success_witness :
  exists recipe,
    Handler.scrapeRecipeV2 (fun _ => Some "https:") parse (fun _ => Loaded title_only_page)
                           (fun _ => "") (Handler.Data (Some "https://example.com/cake"))
    = Handler.Recipe recipe
    /\ sourceUrl recipe = "https://example.com/cake"
    /\ truthy (title recipe) = true.
Proof.
  eexists. split; [reflexivity|].
  destruct (X2_handler_success (fun _ => Some "https:") parse (fun _ => "")
              (fun _ => Loaded title_only_page)
              (Handler.Data (Some "https://example.com/cake")) _ eq_refl)
    as (u & page & E & _ & _ & _ & Hs & Ht & _).
  injection E as <-. split; [exact Hs | exact Ht].
Defined.

Lemma code_test_false (code : option string) (k : string) :
  code <> Some k -> match code with Some c => c =? k | None => false end = false.
Proof.
  intros H. destruct code as [c|]; [|reflexivity].
  destruct (String.eqb_spec c k); [subst; congruence | reflexivity].
Qed.

Lemma status_test_false (status : option Z) (k : Z) :
  status <> Some k -> match status with Some n => (n =? k)%Z | None => false end = false.
Proof.
  intros H. destruct status as [n|]; [|reflexivity].
  destruct (Z.eqb_spec n k); [subst; congruence | reflexivity].
Qed.

(** X3: for a valid URL, what the caller is told when the request or the
    extraction fails, always under the code [internal]: an unknown host is
    reported as such even when a 404 status came with it, then a 404, then a
    timeout; any other axios error keeps its own message; a page without a
    usable result gives the no-recipe message; a failed request never gives
    a recipe. *)
Theorem X3_handler_failure_messages
        (URL_protocol : string -> option string) (parse : string -> option value)
        (platform_message : exn -> string) (fetch : string -> fetched) (u : string) :
  u <> "" -> Handler.isValidUrl URL_protocol u = true ->
  (forall status,
      fetch u = Rejected (AxiosError (Some "ENOTFOUND") status) ->
      Handler.scrapeRecipeV2 URL_protocol parse fetch platform_message (Handler.Data (Some u))
      = Handler.HttpsError "internal" "Website not found")
  /\ (forall code,
         code <> Some "ENOTFOUND" ->
         fetch u = Rejected (AxiosError code (Some 404%Z)) ->
         Handler.scrapeRecipeV2 URL_protocol parse fetch platform_message (Handler.Data (Some u))
         = Handler.HttpsError "internal" "Recipe page not found")
  /\ (forall status,
         status <> Some 404%Z ->
         fetch u = Rejected (AxiosError (Some "ECONNABORTED") status) ->
         Handler.scrapeRecipeV2 URL_protocol parse fetch platform_message (Handler.Data (Some u))
         = Handler.HttpsError "internal" "Request timed out")
  /\ (forall code status,
         code <> Some "ENOTFOUND" -> code <> Some "ECONNABORTED" -> status <> Some 404%Z ->
         fetch u = Rejected (AxiosError code status) ->
         Handler.scrapeRecipeV2 URL_protocol parse fetch platform_message (Handler.Data (Some u))
         = Handler.HttpsError "internal" (platform_message (AxiosError code status)))
  /\ (forall page,
         fetch u = Loaded page ->
         titled (Src.extractFromJsonLd parse page) = false ->
         titled (Src.extractFromMicrodata page) = false ->
         titled (Src.extractFromCommonSelectors page) = false ->
         Handler.scrapeRecipeV2 URL_protocol parse fetch platform_message (Handler.Data (Some u))
         = Handler.HttpsError "internal" "No recipe data found on this page")
  /\ (forall e recipe,
         fetch u = Rejected e ->
         Handler.scrapeRecipeV2 URL_protocol parse fetch platform_message (Handler.Data (Some u))
         <> Handler.Recipe recipe).
Proof.
  intros Hne Hv. rewrite (scrape_valid URL_protocol parse platform_message fetch u Hne Hv).
  repeat split.
  - intros status ->. reflexivity.
  - intros code Hc ->. cbn. now rewrite (code_test_false code "ENOTFOUND" Hc).
  - intros status Hs ->. cbn. now rewrite (status_test_false status 404 Hs).
  - intros code status H1 H2 H3 ->. cbn.
    now rewrite (code_test_false code "ENOTFOUND" H1), (status_test_false status 404 H3),
      (code_test_false code "ECONNABORTED" H2).
  - intros page -> Hj Hm Hc. rewrite orchestrator_first_usable.
    unfold first_usable. now rewrite Hj, Hm, Hc.
  - intros e recipe ->. cbn. discriminate.
Qed.

Lemma X3_handler_failure_messages_witness :
  Handler.scrapeRecipeV2 (fun _ => Some "http:") parse
                         (fun _ => Rejected (AxiosError (Some "ENOTFOUND") (Some 404%Z)))
                         (fun _ => "") (Handler.Data (Some "http://nowhere.example/"))
  = Handler.HttpsError "internal" "Website not found".
Proof.
  refine (proj1 (X3_handler_failure_messages (fun _ => Some "http:") parse (fun _ => "")
                   (fun _ => Rejected (AxiosError (Some "ENOTFOUND") (Some 404%Z)))
                   "http://nowhere.example/" _ eq_refl) (Some 404%Z) eq_refl).
  discriminate.
Defined.

(** ** More on the structured-data search *)

Lemma first_found_some (items : list value) (r : partial) :
  Src.first_found Src.findRecipeInJsonLd items = Ret (Some r) ->
  exists x, In x items /\ Src.findRecipeInJsonLd x = Ret (Some r).
Proof.
  induction items as [|x items IH]; [discriminate|].
  rewrite first_found_cons.
  destruct (Src.findRecipeInJsonLd x) as [[p|]|e] eqn:Ex.
  - intros H. inversion H; subst. exists x. split; [now left | exact Ex].
  - intros H. destruct (IH H) as (y & Hy & Ey). exists y. split; [now right | exact Ey].
  - discriminate.
Qed.

(** X4: a match of the search is always the mapping of an object typed
    exactly [Recipe] that is reached through arrays and [@graph] only; an
    object that is not typed [Recipe] and has no [@graph] gives null
    whatever its other properties hold. *)
Theorem X4_match_is_reachable_recipe (v : value) (r : partial) :
  Src.findRecipeInJsonLd v = Ret (Some r) ->
  (exists o, reaches v o /\ Src.parseJsonLdRecipe o = Ret r)
  /\ (forall fields,
         strict_eq_str (lookup "@type" fields) "Recipe" = false ->
         truthy (lookup "@graph" fields) = false ->
         Src.findRecipeInJsonLd (VObj fields) = Ret None).
Proof.
  intros H. split.
  - revert r H.
    induction v as [ | | b | n | s | items IH | fields IH | neg] using value_ind';
      intros r H; try discriminate.
    + cbn [Src.findRecipeInJsonLd] in H.
      destruct (first_found_some items r H) as (x & Hx & Ex).
      rewrite Forall_forall in IH. destruct (IH x Hx r Ex) as (o & Ho & Eo).
      exists o. split; [now apply (reaches_item items x) | exact Eo].
    + rewrite findRecipeInJsonLd_eq in H. cbn [is_array member bind get] in H.
      destruct (strict_eq_str (lookup "@type" fields) "Recipe") eqn:Et.
      * destruct (Src.parseJsonLdRecipe (VObj fields)) as [p|e] eqn:Ep; [|discriminate].
        inversion H; subst. exists (VObj fields). split; [now constructor | exact Ep].
      * destruct (truthy (lookup "@graph" fields)) eqn:Eg; [|discriminate].
        destruct (lookup_in "@graph" fields) as [E|E]; [rewrite E in Eg; discriminate|].
        rewrite Forall_forall in IH. destruct (IH _ E r H) as (o & Ho & Eo).
        exists o. split; [now apply reaches_graph | exact Eo].
  - intros fields Et Eg. rewrite findRecipeInJsonLd_eq. cbn [is_array member bind get].
    now rewrite Et, Eg.
Qed.

Lemma X4_match_is_reachable_recipe_witness :
  exists r,
    Src.findRecipeInJsonLd (VObj [("@graph", VArr [webpage; cake])]) = Ret (Some r)
    /\ exists o, reaches (VObj [("@graph", VArr [webpage; cake])]) o
                 /\ Src.parseJsonLdRecipe o = Ret r.
Proof.
  eexists. split; [reflexivity|].
  exact (proj1 (X4_match_is_reachable_recipe
                  (VObj [("@graph", VArr [webpage; cake])]) _ eq_refl)).
Defined.

Lemma extractText_shape (v : value) (t : string) :
  text_shape v t -> t <> "" -> Src.extractText v = VStr t.
Proof.
  intros [->|[(fields & -> & E)|(fields & -> & Et & E)]] Hne.
  - reflexivity.
  - cbn. rewrite E. cbn. now destruct (String.eqb_spec t "").
  - cbn. rewrite Et, E. cbn. now destruct (String.eqb_spec t "").
Qed.

Lemma mapM_clean_strings (texts : list string) :
  Src.mapM Src.cleanInstruction (map VStr texts)
  = Ret (map (fun t => VStr (trim (replace_ordinal t))) texts).
Proof.
  induction texts as [|t texts IH]; [reflexivity|].
  cbn [map Src.mapM Src.cleanInstruction bind]. now rewrite IH.
Qed.

Lemma extractArray_shapes (steps : list value) (texts : list string) :
  Forall2 (fun step t => text_shape step t /\ t <> "") steps texts ->
  Src.extractArray (VArr steps) = map VStr texts.
Proof.
  intros H. unfold Src.extractArray. cbn [truthy negb].
  induction H as [|step t steps texts [Hs Hne] _ IH]; [reflexivity|].
  cbn [map filter]. rewrite (extractText_shape step t Hs Hne). cbn [truthy].
  destruct (String.eqb_spec t "") as [|_]; [congruence|]. cbn [negb]. now rewrite IH.
Qed.

Lemma extractArray_entries (items : list value) (texts : list string) :
  entries_texts items texts ->
  filter truthy (map Src.extractText items) = map VStr texts.
Proof.
  induction 1 as [|x t items texts Hs Hne _ IH|x items texts Hx _ IH];
    [reflexivity | |].
  - cbn [map filter]. rewrite (extractText_shape x t Hs Hne). cbn [truthy].
    destruct (String.eqb_spec t "") as [|_]; [congruence|]. cbn [negb]. now rewrite IH.
  - cbn [map filter]. destruct Hx as [-> | ->]; cbn; exact IH.
Qed.

Lemma extractArray_field (v : value) (texts : list string) :
  field_texts v texts -> Src.extractArray v = map VStr texts.
Proof.
  intros [v0 Hv|v0 t Hs Hne|items txts Hi].
  - destruct Hv as [-> |[-> | ->]]; reflexivity.
  - unfold Src.extractArray.
    assert (Ht : truthy v0 = true).
    { destruct Hs as [->|[(fields & -> & _)|(fields & -> & _)]]; try reflexivity.
      cbn. now destruct (String.eqb_spec t ""). }
    rewrite Ht. cbn [negb].
    assert (Ea : filter truthy [Src.extractText v0] = [VStr t]).
    { rewrite (extractText_shape v0 t Hs Hne). cbn.
      now destruct (String.eqb_spec t ""). }
    destruct Hs as [->|[(fields & -> & _)|(fields & -> & _)]]; exact Ea.
  - unfold Src.extractArray. cbn [truthy negb]. now apply extractArray_entries.
Qed.

(** C6, as the code has it: the tags are the category entries followed by
    the cuisine entries, every occurrence kept, each field being first
    normalized to a list: nothing for an absent field, the one text for a
    field that is a single text, the texts of the entries for a list. *)
Theorem C6_tags_concatenated (recipe : value) (r : partial) (cats cuis : list string) :
  Src.parseJsonLdRecipe recipe = Ret r ->
  field_texts (get recipe "recipeCategory") cats ->
  field_texts (get recipe "recipeCuisine") cuis ->
  p_tags r = VArr (map VStr (cats ++ cuis)%list)
  /\ forall url, tags (Src.accept url r) = VArr (map VStr (cats ++ cuis)%list).
Proof.
  intros H Hcat Hcui.
  destruct (parseJsonLdRecipe_ret recipe r H) as (_ & Et & _).
  assert (E : p_tags r = VArr (map VStr (cats ++ cuis)%list)).
  { rewrite Et, (extractArray_field _ cats Hcat), (extractArray_field _ cuis Hcui).
    now rewrite map_app. }
  split; [exact E | intros url; exact E].
Qed.

Lemma C6_tags_concatenated_witness :
  exists r, Src.parseJsonLdRecipe Samples.trifle = Ret r
            /\ p_tags r = VArr [VStr "dessert"; VStr "pudding"; VStr "english"].
Proof.
  eexists. split; [reflexivity|].
  refine (proj1 (C6_tags_concatenated Samples.trifle _ ["dessert"; "pudding"] ["english"]
                   eq_refl _ _)).
  - apply field_list. apply entries_text; [now left | discriminate |].
    apply entries_text; [|discriminate|].
    + right; right. eexists. split; [reflexivity|]. split; reflexivity.
    + apply entries_skip; [now left | apply entries_nil].
  - apply field_single; [now left | discriminate].
Defined.

Lemma instruction_shapes_mapped (fields : list (string * value)) (steps : list value)
      (texts : list string) :
  lookup "recipeInstructions" fields = VArr steps ->
  Forall2 (fun step t => text_shape step t /\ t <> "") steps texts ->
  exists r,
    Src.parseJsonLdRecipe (VObj fields) = Ret r
    /\ p_instructions r = VArr (map (fun t => VStr (trim (replace_ordinal t))) texts).
Proof.
  intros E H. unfold Src.parseJsonLdRecipe. cbn [member bind get].
  rewrite E. cbn [truthy]. rewrite (extractArray_shapes steps texts H), mapM_clean_strings.
  cbn [bind]. eexists. split; reflexivity.
Qed.



(** ** The shape of what each strategy returns *)

Lemma filter_all {A : Type} (f : A -> bool) (l : list A) :
  Forall (fun x => f x = true) (filter f l).
Proof. apply Forall_forall. intros x Hx. now apply filter_In in Hx. Qed.

Lemma extractArray_truthy (v : value) :
  Forall (fun x => truthy x = true) (Src.extractArray v).
Proof.
  unfold Src.extractArray. destruct (negb (truthy v)); [constructor|].
  destruct v; apply filter_all.
Qed.

Lemma trim_tight (s : string) : tight_start (trim s) /\ tight_end (trim s).
Proof. destruct (trim_spec s) as (l & r & _ & _ & _ & Hs & He). now split. Qed.

Lemma trim_idempotent (s : string) : trim (trim s) = trim s.
Proof.
  symmetry. apply core_of_unique. destruct (trim_tight s) as [Hs He].
  exists "", "". repeat split; try assumption. cbn. now rewrite string_app_empty_r.
Qed.

Lemma non_empty_iff (t : string) : negb (t =? "") = true <-> t <> "".
Proof.
  destruct (String.eqb_spec t ""); cbn; split; congruence.
Qed.

(** X6: in a mapped [Recipe] object the ingredients and the tags are arrays
    without any falsy entry (no empty string, no null), and the
    instructions are an array of strings with no white space at either
    end. *)
Theorem X6_jsonld_lists_are_clean (recipe : value) (r : partial) :
  Src.parseJsonLdRecipe recipe = Ret r ->
  (exists entries, p_ingredients r = VArr entries
                   /\ Forall (fun x => truthy x = true) entries)
  /\ (exists entries, p_tags r = VArr entries
                      /\ Forall (fun x => truthy x = true) entries)
  /\ (exists entries, p_instructions r = VArr (map VStr entries)
                      /\ Forall (fun s => tight_start s /\ tight_end s) entries).
Proof.
  intros H.
  destruct (parseJsonLdRecipe_ret recipe r H) as (_ & Et & Ei & instrs & En & Em).
  split; [|split].
  - eexists. split; [exact Ei | apply extractArray_truthy].
  - eexists. split; [exact Et|]. apply Forall_app. split; apply extractArray_truthy.
  - destruct (truthy (get recipe "recipeInstructions")).
    + destruct (mapM_cleanInstruction _ _ Em) as (raw & _ & ->).
      exists (map (fun s => trim (replace_ordinal s)) raw).
      split; [now rewrite En, map_map|].
      apply Forall_forall. intros s Hs. apply in_map_iff in Hs as (x & <- & _).
      apply trim_tight.
    + inversion Em; subst. exists []. split; [exact En | constructor].
Qed.

Lemma X6_jsonld_lists_are_clean_witness :
  exists r, Src.parseJsonLdRecipe tiramisu = Ret r
            /\ exists entries, p_ingredients r = VArr entries
                               /\ Forall (fun x => truthy x = true) entries.
Proof.
  eexists. split; [reflexivity|].
  exact (proj1 (X6_jsonld_lists_are_clean tiramisu _ eq_refl)).
Defined.

Lemma clean_ordinal_only (d ws : string) :
  d <> "" -> digits d = true -> blank ws = true ->
  trim (replace_ordinal (d ++ String "." ws)) = "".
Proof.
  intros Hne Hd Hw. rewrite (replace_ordinal_hit d ws Hne Hd), trim_trimStart.
  unfold trim. now rewrite (blank_trimStart ws Hw).
Qed.

(** X7: an instruction that is only an ordinal (digits, a period, white
    space) is not dropped: it stays in the list as an empty string, so the
    instruction list of a result can be non-empty and hold no text. *)
Theorem X7_ordinal_only_instruction_kept (fields : list (string * value))
        (d ws : string) :
  d <> "" -> digits d = true -> blank ws = true ->
  lookup "recipeInstructions" fields = VArr [VStr (d ++ String "." ws)] ->
  exists r,
    Src.parseJsonLdRecipe (VObj fields) = Ret r
    /\ p_instructions r = VArr [VStr ""]
    /\ forall url, non_empty (instructions (Src.accept url r)).
Proof.
  intros Hne Hd Hw E.
  assert (Hs : Forall2 (fun step t => text_shape step t /\ t <> "")
                       [VStr (d ++ String "." ws)] [d ++ String "." ws]).
  { constructor; [|constructor]. split; [now left|]. destruct d; [congruence | discriminate]. }
  destruct (instruction_shapes_mapped fields _ _ E Hs) as (r & Er & Ei).
  exists r. cbn [map] in Ei. rewrite (clean_ordinal_only d ws Hne Hd Hw) in Ei.
  split; [exact Er|]. split; [exact Ei|].
  intros url. cbn [Src.accept instructions]. rewrite Ei. now exists (VStr ""), [].
Qed.

Lemma X7_ordinal_only_instruction_kept_witness :
  exists r,
    Src.parseJsonLdRecipe (VObj [("recipeInstructions", VArr [VStr "3. "])]) = Ret r
    /\ p_instructions r = VArr [VStr ""].
Proof.
  destruct (X7_ordinal_only_instruction_kept
              [("recipeInstructions", VArr [VStr "3. "])] "3" " ") as (r & Er & Ei & _);
    [discriminate | reflexivity | reflexivity | reflexivity |].
  exists r. split; [exact Er | exact Ei].
Defined.

Lemma extractProp_non_empty (el : Dom.element) (prop : string) :
  Forall (fun s => s <> "") (Src.extractProp el prop).
Proof.
  unfold Src.extractProp. apply Forall_forall. intros s Hs.
  apply filter_In in Hs as [_ Hs]. now apply non_empty_iff.
Qed.

Lemma first_value_cases (values : list string) :
  Forall (fun s => s <> "") values ->
  Src.first_value values = VUndef
  \/ exists s, Src.first_value values = VStr s /\ s <> "".
Proof.
  intros H. destruct H as [|s l Hs _]; [now left|]. right. now exists s.
Qed.

(** X8: a microdata result always has a non-empty string as title; its
    ingredients and instructions are arrays of non-empty strings; its
    description and its three times are absent or a non-empty string; it
    never carries tags or a difficulty. *)
Theorem X8_microdata_result_shape (page : Dom.document) (r : partial) :
  Src.extractFromMicrodata page = Some r ->
  (exists t, p_title r = VStr t /\ t <> "")
  /\ (exists entries, p_ingredients r = VArr (map VStr entries)
                      /\ Forall (fun s => s <> "") entries)
  /\ (exists entries, p_instructions r = VArr (map VStr entries)
                      /\ Forall (fun s => s <> "") entries)
  /\ Forall (fun field => field = VUndef \/ exists s, field = VStr s /\ s <> "")
            [p_description r; p_prepTime r; p_cookTime r; p_totalTime r]
  /\ p_tags r = VUndef /\ p_difficulty r = VUndef.
Proof.
  unfold Src.extractFromMicrodata. intros H.
  destruct (Dom.select page Src.microdataSelector) as [|el rest]; [discriminate|].
  destruct (truthy (Src.first_value (Src.extractProp el "name"))) eqn:Ht; [|discriminate].
  cbn [negb] in H. inversion H; subst r; cbn.
  split; [|split; [|split; [|split; [|split; reflexivity]]]].
  - destruct (first_value_cases _ (extractProp_non_empty el "name")) as [E|E];
      [rewrite E in Ht; discriminate | exact E].
  - eexists. split; [reflexivity | apply extractProp_non_empty].
  - eexists. split; [reflexivity | apply extractProp_non_empty].
  - repeat (apply Forall_cons; [apply first_value_cases, extractProp_non_empty|]).
    apply Forall_nil.
Qed.

Lemma X8_microdata_result_shape_witness :
  exists r, Src.extractFromMicrodata two_titles_page = Some r
            /\ exists t, p_title r = VStr t /\ t <> "".
Proof.
  eexists. split; [reflexivity|].
  exact (proj1 (X8_microdata_result_shape two_titles_page _ eq_refl)).
Defined.

Lemma trim_tidy (s : string) : trim s <> "" -> tidy (trim s).
Proof. intros H. destruct (trim_tight s). now repeat split. Qed.

Lemma yields_tidy (page : Dom.document) (selector : string) :
  Forall tidy (yields page selector).
Proof.
  unfold yields. apply Forall_forall. intros t Ht.
  apply filter_In in Ht as [Hin Hne]. apply in_map_iff in Hin as (el & <- & _).
  apply trim_tidy. now apply non_empty_iff.
Qed.

Lemma first_yield_tidy (page : Dom.document) (selectors : list string)
      (texts : list string) :
  first_yield page selectors texts -> Forall tidy texts.
Proof.
  intros [(pre & sel & post & _ & _ & _ & ->)|[_ ->]]; [apply yields_tidy | constructor].
Qed.

Lemma findText_cases (page : Dom.document) (selectors : list string) :
  Src.findTextBySelectors page selectors = ""
  \/ exists s, Src.findTextBySelectors page selectors = trim s /\ trim s <> "".
Proof.
  induction selectors as [|sel selectors IH]; [now left|].
  cbn [Src.findTextBySelectors].
  destruct (Dom.select page sel) as [|el els]; [exact IH|].
  destruct (String.eqb_spec (trim (Dom.text el)) "") as [E|E]; cbn [negb]; [exact IH|].
  right. now exists (Dom.text el).
Qed.

(** X9: a heuristic result always has a title, ingredients and instructions
    that are strings with something in them and no white space around, and
    it carries no other field. *)
Theorem X9_selector_result_shape (page : Dom.document) (r : partial) :
  Src.extractFromCommonSelectors page = Some r ->
  (exists t, p_title r = VStr t /\ tidy t)
  /\ (exists entries, p_ingredients r = VArr (map VStr entries) /\ Forall tidy entries)
  /\ (exists entries, p_instructions r = VArr (map VStr entries) /\ Forall tidy entries)
  /\ Forall (fun field => field = VUndef)
            [p_description r; p_image r; p_prepTime r; p_cookTime r; p_totalTime r;
             p_servings r; p_difficulty r; p_tags r].
Proof.
  intros H.
  destruct (commonSelectors_some page r H) as (ings & inss & Ei & Hi & Es & Hs & _).
  split; [|split; [|split]].
  - unfold Src.extractFromCommonSelectors in H.
    destruct (findText_cases page Src.titleSelectors) as [E|(s & E & Hne)].
    + rewrite E in H. discriminate.
    + rewrite E in H. destruct (trim s =? ""); [discriminate|].
      cbv zeta in H.
      destruct (_ && _) in H; [discriminate|]. inversion H; subst r; cbn.
      exists (trim s). split; [now rewrite trim_idempotent | now apply trim_tidy].
  - exists ings. split; [exact Ei | exact (first_yield_tidy _ _ _ Hi)].
  - exists inss. split; [exact Es | exact (first_yield_tidy _ _ _ Hs)].
  - unfold Src.extractFromCommonSelectors in H.
    destruct (_ =? ""); [discriminate|]. cbv zeta in H.
    destruct (_ && _) in H; [discriminate|]. inversion H; subst r; cbn.
    repeat constructor.
Qed.

Lemma X9_selector_result_shape_witness :
  exists r, Src.extractFromCommonSelectors selector_page = Some r
            /\ p_title r = VStr "Soup"
            /\ exists t, p_title r = VStr t /\ tidy t.
Proof.
  eexists. split; [reflexivity|]. split; [reflexivity|].
  exact (proj1 (X9_selector_result_shape selector_page _ eq_refl)).
Defined.

Lemma microdata_titled (page : Dom.document) (m : partial) :
  Src.extractFromMicrodata page = Some m -> truthy (p_title m) = true.
Proof.
  unfold Src.extractFromMicrodata. intros H.
  destruct (Dom.select page Src.microdataSelector) as [|el rest]; [discriminate|].
  destruct (truthy (Src.first_value (Src.extractProp el "name"))) eqn:Ht; [|discriminate].
  cbn [negb] in H. now inversion H; subst m.
Qed.

Lemma selectors_titled (page : Dom.document) (c : partial) :
  Src.extractFromCommonSelectors page = Some c -> truthy (p_title c) = true.
Proof.
  unfold Src.extractFromCommonSelectors. intros H.
  destruct (findText_cases page Src.titleSelectors) as [E|(s & E & Hne)];
    rewrite E in H; [discriminate|].
  destruct (trim s =? ""); [discriminate|]. cbv zeta in H.
  destruct (_ && _) in H; [discriminate|]. inversion H; subst c; cbn.
  rewrite trim_idempotent. now apply non_empty_iff.
Qed.

(** X10: the two fallback strategies never hand the orchestrator a result
    it rejects, so the title tests on them never fail; the extraction ends
    with the no-recipe error exactly when the structured data gives nothing
    titled and both fallbacks return null. *)
Theorem X10_fallback_results_accepted (parse : string -> option value)
        (page : Dom.document) (url : string) :
  (forall m, Src.extractFromMicrodata page = Some m -> Src.usable (Some m) = true)
  /\ (forall c, Src.extractFromCommonSelectors page = Some c -> Src.usable (Some c) = true)
  /\ (Src.extractRecipeFromUrl parse (Loaded page) url
      = Throw (Error "No recipe data found on this page") <->
      Src.usable (Src.extractFromJsonLd parse page) = false
      /\ Src.extractFromMicrodata page = None
      /\ Src.extractFromCommonSelectors page = None).
Proof.
  split; [|split].
  - intros m. apply microdata_titled.
  - intros c. apply selectors_titled.
  - rewrite orchestrator_first_usable. change Src.usable with titled.
    pose proof (first_usable_none (Src.extractFromJsonLd parse page)
                  (Src.extractFromMicrodata page)
                  (Src.extractFromCommonSelectors page)) as Hn.
    destruct (first_usable _ _ _) as [p|].
    + split; [discriminate|]. intros (Hj & Hm & Hc).
      assert (Some p = None) by (apply Hn; rewrite Hj, Hm, Hc; now repeat split).
      discriminate.
    + destruct (proj1 Hn eq_refl) as (Hj & Hm & Hc).
      split; [|reflexivity]. intros _. split; [exact Hj|].
      split.
      * destruct (Src.extractFromMicrodata page) as [m|] eqn:E; [|reflexivity].
        cbn in Hm. rewrite (microdata_titled page m E) in Hm. discriminate.
      * destruct (Src.extractFromCommonSelectors page) as [c|] eqn:E; [|reflexivity].
        cbn in Hc. rewrite (selectors_titled page c E) in Hc. discriminate.
Qed.

(** ** The title of the heuristic strategy *)

Lemma findText_head (page : Dom.document) (sel : string) (selectors : list string) :
  no_first_text page sel ->
  Src.findTextBySelectors page (sel :: selectors) = Src.findTextBySelectors page selectors.
Proof.
  intros [E|(el & rest & E & Ht)]; cbn [Src.findTextBySelectors]; rewrite E;
    [reflexivity | now rewrite Ht].
Qed.

(** X11: the title the heuristic strategy finds is the trimmed text of the
    first element of the first selector whose first element has a text:
    only the first element of a selector is ever read, and a selector whose
    first element is blank is passed over even when a later element of it
    has a text; the result is empty exactly when no selector has such a
    first element. *)
Theorem X11_title_from_first_elements (page : Dom.document) (selectors : list string)
        (t : string) :
  ((Src.findTextBySelectors page selectors = t /\ t <> "") <->
   exists pre sel post,
     selectors = (pre ++ sel :: post)%list
     /\ (forall s, In s pre -> no_first_text page s)
     /\ first_text page sel t)
  /\ (Src.findTextBySelectors page selectors = "" <->
      forall s, In s selectors -> no_first_text page s).
Proof.
  split.
  - split.
    + intros [E Hne]. induction selectors as [|sel selectors IH].
      { cbn in E. congruence. }
      cbn [Src.findTextBySelectors] in E.
      assert (Hskip : no_first_text page sel ->
                      Src.findTextBySelectors page selectors = t ->
                      exists pre sel0 post,
                        sel :: selectors = (pre ++ sel0 :: post)%list
                        /\ (forall s, In s pre -> no_first_text page s)
                        /\ first_text page sel0 t).
      { intros Hn E'. destruct (IH E') as (pre & s0 & post & -> & Hpre & Hf).
        exists (sel :: pre), s0, post. repeat split; [|exact Hf].
        intros s [<-|Hin]; [exact Hn | now apply Hpre]. }
      destruct (Dom.select page sel) as [|el els] eqn:Es.
      * apply Hskip; [now left | exact E].
      * destruct (String.eqb_spec (trim (Dom.text el)) "") as [Eb|Eb]; cbn [negb] in E.
        -- apply Hskip; [|exact E]. right. now exists el, els.
        -- exists [], sel, selectors. repeat split; [intros s [] |].
           exists el, els. now repeat split.
    + intros (pre & sel & post & -> & Hpre & (el & rest & Es & Et & Hne)).
      split; [|exact Hne].
      induction pre as [|x pre IH]; cbn [app].
      * cbn [Src.findTextBySelectors]. rewrite Es, Et.
        now destruct (String.eqb_spec t "").
      * rewrite findText_head by (apply Hpre; now left).
        apply IH. intros s Hs. apply Hpre. now right.
  - induction selectors as [|sel selectors IH].
    + split; [intros _ s [] | reflexivity].
    + split.
      * intros E. cbn [Src.findTextBySelectors] in E.
        destruct (Dom.select page sel) as [|el els] eqn:Es.
        -- intros s [<-|Hin]; [now left | now apply IH].
        -- destruct (String.eqb_spec (trim (Dom.text el)) "") as [Eb|Eb]; cbn [negb] in E.
           ++ intros s [<-|Hin]; [right; now exists el, els | now apply IH].
           ++ congruence.
      * intros H. rewrite findText_head by (apply H; now left).
        apply IH. intros s Hs. apply H. now right.
Qed.

(** ** Numbers read from a text *)

Lemma radix_prefix_stop (c : ascii) (r : string) :
  is_digit c = false -> radix_prefix 10 (String c r) = [].
Proof.
  intros H. cbn [radix_prefix]. unfold digit_val, is_digit in *.
  set (n := N_of_ascii c) in *.
  assert (Hn : ((48 <=? Z.of_N n) && (Z.of_N n <=? 57))%Z = false).
  { apply andb_false_iff in H. apply andb_false_iff.
    destruct H as [H|H]; [left|right]; apply N.leb_gt in H; apply Z.leb_gt; lia. }
  rewrite Hn.
  destruct ((97 <=? Z.of_N n) && (Z.of_N n <=? 122))%Z eqn:E1.
  - apply andb_true_iff in E1 as [E1 _]. apply Z.leb_le in E1.
    destruct (Z.ltb_spec (Z.of_N n - 87) 10); [lia | reflexivity].
  - destruct ((65 <=? Z.of_N n) && (Z.of_N n <=? 90))%Z eqn:E2; [|reflexivity].
    apply andb_true_iff in E2 as [E2 _]. apply Z.leb_le in E2.
    destruct (Z.ltb_spec (Z.of_N n - 55) 10); [lia | reflexivity].
Qed.

Lemma radix_prefix_count (d rest : string) :
  digits d = true ->
  (forall c r', rest = String c r' -> is_digit c = false) ->
  radix_prefix 10 (d ++ rest) = radix_prefix 10 d.
Proof.
  intros Hd Hr. induction d as [|c d IH].
  - cbn [append]. destruct rest as [|c r']; [reflexivity|].
    now rewrite (radix_prefix_stop c r' (Hr c r' eq_refl)).
  - cbn [digits] in Hd. apply andb_true_iff in Hd as [Hc Hd].
    cbn [append radix_prefix]. rewrite (digit_val_digit c Hc), (IH Hd). reflexivity.
Qed.

Lemma parse_radix_count (d rest : string) :
  d <> "" -> digits d = true ->
  (forall c r', rest = String c r' -> is_digit c = false) ->
  parse_radix 10 (d ++ rest) = Some (decimal d).
Proof.
  intros Hne Hd Hr. unfold parse_radix. rewrite (radix_prefix_count d rest Hd Hr).
  pose proof (radix_prefix_digits d 0 Hd) as Hf. fold (digits_value 10 (radix_prefix 10 d)) in Hf.
  fold (decimal d) in Hf.
  destruct (radix_prefix 10 d) as [|x l] eqn:Ep; [|now rewrite Hf].
  destruct d as [|c d]; [congruence|].
  cbn [digits] in Hd. apply andb_true_iff in Hd as [Hc _].
  cbn [radix_prefix] in Ep. rewrite (digit_val_digit c Hc) in Ep.
  destruct (Z.ltb_spec (Z.of_N (N_of_ascii c) - 48) 10); [discriminate|].
  unfold is_digit in Hc. apply andb_true_iff in Hc as [_ H2]. apply N.leb_le in H2. lia.
Qed.

Lemma hex_prefix_count (d rest : string) :
  d <> "" -> digits d = true ->
  (forall c r', rest = String c r' -> c <> "x"%char /\ c <> "X"%char) ->
  hex_prefix (d ++ rest) = None.
Proof.
  intros Hne Hd Hr. destruct d as [|c0 d]; [congruence|].
  cbn [digits] in Hd. apply andb_true_iff in Hd as [_ Hd].
  cbn [append hex_prefix]. destruct d as [|c1 d].
  - cbn [append]. destruct rest as [|c r']; [reflexivity|].
    destruct (Hr c r' eq_refl) as [Hx HX].
    destruct (Ascii.eqb_spec c "x"); [congruence|].
    destruct (Ascii.eqb_spec c "X"); [congruence|].
    now rewrite andb_false_r.
  - cbn [digits] in Hd. apply andb_true_iff in Hd as [Hc1 _]. cbn [append].
    rewrite (digit_neq c1 "x" Hc1 eq_refl), (digit_neq c1 "X" Hc1 eq_refl).
    now rewrite andb_false_r.
Qed.

Lemma parseInt_no_count (c : ascii) (s : string) :
  is_space c = false -> is_digit c = false ->
  c <> "-"%char -> c <> "+"%char ->
  parseInt (String c s) = NaN.
Proof.
  intros Hs Hc Hm Hp. unfold parseInt.
  cbn [trimStart]. rewrite Hs. cbn [strip_sign].
  destruct (Ascii.eqb_spec c "-"); [congruence|].
  destruct (Ascii.eqb_spec c "+"); [congruence|].
  assert (Hh : hex_prefix (String c s) = None).
  { cbn [hex_prefix]. destruct s as [|c1 s']; [reflexivity|].
    destruct (Ascii.eqb_spec c "0") as [->|]; [discriminate | reflexivity]. }
  rewrite Hh. unfold parse_radix. now rewrite (radix_prefix_stop c s Hc).
Qed.

Lemma parseInt_count (ws d rest : string) :
  blank ws = true -> d <> "" -> digits d = true ->
  (forall c r', rest = String c r' ->
                is_digit c = false /\ c <> "x"%char /\ c <> "X"%char) ->
  parseInt (ws ++ d ++ rest) = to_number (decimal d).
Proof.
  intros Hw Hne Hd Hr. unfold parseInt. rewrite (trimStart_blank_app ws _ Hw).
  destruct d as [|c0 d'] eqn:Ed; [congruence|]. rewrite <- Ed in *.
  assert (Hc0 : is_digit c0 = true).
  { subst d. cbn [digits] in Hd. now apply andb_true_iff in Hd as [Hc _]. }
  assert (Et : trimStart (d ++ rest) = d ++ rest).
  { subst d. cbn [append trimStart]. now rewrite (digit_not_space c0 Hc0). }
  rewrite Et.
  assert (Es : strip_sign (d ++ rest) = (1%Z, d ++ rest)).
  { subst d. cbn [append strip_sign].
    now rewrite (digit_neq c0 "-" Hc0 eq_refl), (digit_neq c0 "+" Hc0 eq_refl). }
  rewrite Es, (hex_prefix_count d rest Hne Hd) by (intros c r' E; now apply (Hr c r' E)).
  rewrite (parse_radix_count d rest Hne Hd) by (intros c r' E; now apply (Hr c r' E)).
  f_equal. apply Z.mul_1_l.
Qed.

Lemma to_number_count (d : string) :
  digits d = true -> (decimal d <= 2 ^ 53)%Z -> to_number (decimal d) = Finite (decimal d).
Proof.
  intros Hd Hb. apply to_number_exact. pose proof (decimal_nonneg d Hd). lia.
Qed.

(** C10, as the code has it: the servings of a microdata result are absent
    or a number that is not zero; a missing first yield, one that does not
    parse and one that parses to 0 all give an absent servings; a yield
    that begins with digits denoting at most [2^53] gives that integer;
    the one case that is no integer is the infinity [parseInt] returns for
    a run beyond the range of the doubles.  The numeric coercion of the
    structured-data extractor, unlike this one, returns the number 0 as it
    is. *)
Theorem C10_microdata_servings (page : Dom.document) (r : partial) :
  Src.extractFromMicrodata page = Some r ->
  (p_servings r = VUndef
   \/ (exists n, n <> 0%Z /\ p_servings r = VNum n)
   \/ (exists negative, p_servings r = VInfinity negative))
  /\ (forall recipeElement rest,
         Dom.select page Src.microdataSelector = recipeElement :: rest ->
         (Src.extractProp recipeElement "recipeYield" = [] -> p_servings r = VUndef)
         /\ (forall y ys,
                Src.extractProp recipeElement "recipeYield" = y :: ys ->
                (parseInt y = NaN -> p_servings r = VUndef)
                /\ (parseInt y = Finite 0 -> p_servings r = VUndef)
                /\ (forall n, parseInt y = Finite n -> n <> 0%Z -> p_servings r = VNum n)
                /\ (forall negative,
                       parseInt y = Infinite negative -> p_servings r = VInfinity negative)
                /\ (forall ws d tail,
                       y = ws ++ d ++ tail ->
                       blank ws = true -> d <> "" -> digits d = true ->
                       (forall c r', tail = String c r' ->
                                     is_digit c = false /\ c <> "x"%char /\ c <> "X"%char) ->
                       (decimal d <= 2 ^ 53)%Z ->
                       (decimal d = 0%Z -> p_servings r = VUndef)
                       /\ (decimal d <> 0%Z -> p_servings r = VNum (decimal d)))
                /\ (forall c s,
                       y = String c s ->
                       is_space c = false -> is_digit c = false ->
                       c <> "-"%char -> c <> "+"%char ->
                       p_servings r = VUndef)))
  /\ parseInt "0" = Finite 0
  /\ parseInt "four" = NaN
  /\ Src.extractNumber (VNum 0) = VNum 0.
Proof.
  intros H.
  destruct (extractFromMicrodata_some page r H) as (el & rest & Esel & _ & _ & Es).
  split; [|split; [|repeat split; reflexivity]].
  - rewrite Es. destruct (Src.parseInt_first _) as [|n|negative].
    + now left.
    + destruct (Z.eqb_spec n 0); [now left | right; left; now exists n].
    + right; right. now exists negative.
  - intros el' rest' Esel'. rewrite Esel in Esel'. inversion Esel'; subst el' rest'.
    split.
    + intros Hy. now rewrite Es, Hy.
    + intros y ys Hy. rewrite Es, Hy. cbn [Src.parseInt_first].
      split; [|split; [|split; [|split; [|split]]]].
      * intros Hp. now rewrite Hp.
      * intros Hp. now rewrite Hp.
      * intros n Hp Hn. rewrite Hp. now destruct (Z.eqb_spec n 0).
      * intros negative Hp. now rewrite Hp.
      * intros ws d tail -> Hw Hne Hd Ht Hb.
        rewrite (parseInt_count ws d tail Hw Hne Hd Ht), (to_number_count d Hd Hb).
        split; intros Hz; now destruct (Z.eqb_spec (decimal d) 0).
      * intros c s -> Hs Hc Hm Hp.
        now rewrite (parseInt_no_count c s Hs Hc Hm Hp).
Qed.

Lemma C10_microdata_servings_witness :
  exists r, Src.extractFromMicrodata zero_yield_page = Some r
            /\ Src.extractProp (microdata_element [("name", [node "Pie"]);
                                                   ("recipeYield", [node "0"])])
                               "recipeYield" = ["0"]
            /\ p_servings r = VUndef.
Proof.
  eexists. split; [reflexivity|]. split; [reflexivity|].
  destruct (C10_microdata_servings zero_yield_page _ eq_refl) as (_ & H & _).
  destruct (H _ [] eq_refl) as [_ Hy].
  destruct (Hy "0" [] eq_refl) as (_ & Hz & _).
  exact (Hz eq_refl).
Defined.

(** C10 as stated fails on a yield whose digits run beyond the range of the
    doubles: [parseInt] returns [Infinity], which is truthy, and the
    servings are neither absent nor an integer. *)
Lemma C10_endless_yield_counterexample :
  exists r, Src.extractFromMicrodata Samples.endless_yield_page = Some r
            /\ String.length Samples.nines = 400%nat
            /\ digits Samples.nines = true
            /\ parseInt Samples.nines = Infinite false
            /\ p_servings r = VInfinity false
            /\ p_servings r <> VUndef
            /\ (forall n, p_servings r <> VNum n).
Proof.
  eexists. split; [vm_compute; reflexivity|].
  repeat split; try (vm_compute; reflexivity); try discriminate.
Qed.

(** X12: the numeric coercion of the structured-data extractor reads the
    count a text begins with: after any leading white space, a run of
    digits followed by something that is no digit (and no [x]) gives the
    Number the digits are read as, whatever follows: the integer they
    denote when that is at most [2^53]; a text that begins with anything
    but white space, a sign or a digit gives an absent value. *)
Theorem X12_leading_count (ws d rest : string) :
  blank ws = true -> d <> "" -> digits d = true ->
  (forall c r', rest = String c r' ->
                is_digit c = false /\ c <> "x"%char /\ c <> "X"%char) ->
  ((decimal d <= 2 ^ 53)%Z ->
     Src.extractNumber (VStr (ws ++ d ++ rest)) = VNum (decimal d))
  /\ Src.extractNumber (VStr (ws ++ d ++ rest))
     = match to_number (decimal d) with
       | NaN => VUndef
       | Finite n => VNum n
       | Infinite negative => VInfinity negative
       end
  /\ (forall c s,
         is_space c = false -> is_digit c = false ->
         c <> "-"%char -> c <> "+"%char ->
         Src.extractNumber (VStr (String c s)) = VUndef)
  /\ Src.extractNumber (VStr "9007199254740993") = VNum 9007199254740992.
Proof.
  intros Hw Hne Hd Hr. split; [|split; [|split; [|vm_compute; reflexivity]]].
  - intros Hb. cbn [Src.extractNumber].
    now rewrite (parseInt_count ws d rest Hw Hne Hd Hr), (to_number_count d Hd Hb).
  - cbn [Src.extractNumber]. now rewrite (parseInt_count ws d rest Hw Hne Hd Hr).
  - intros c s Hs Hc Hm Hp. cbn [Src.extractNumber].
    now rewrite (parseInt_no_count c s Hs Hc Hm Hp).
Qed.

Lemma X12_leading_count_witness :
  Src.extractNumber (VStr " 4 servings") = VNum 4
  /\ Src.extractNumber (VStr "Serves 4") = VUndef.
Proof.
  destruct (X12_leading_count " " "4" " servings") as (H1 & _ & H2 & _);
    [reflexivity | discriminate | reflexivity | |].
  - intros c r' E. inversion E; subst. repeat split; discriminate.
  - split; [apply H1; vm_compute; discriminate|]. apply H2; reflexivity || discriminate.
Defined.

(** ** Durations inside a longer text *)

Lemma after_PT_first (pre r : string) :
  no_PT pre -> after_PT (pre ++ "PT" ++ r) = Some r.
Proof.
  induction pre as [|c pre IH]; intros Hn; [reflexivity|].
  assert (Hpre : no_PT pre).
  { intros a b E. apply (Hn (String c a) b). cbn. now rewrite E. }
  cbn [append after_PT].
  destruct (pre ++ String "P" (String "T" r)) as [|c' s'] eqn:Es.
  - destruct pre; discriminate.
  - destruct (Ascii.eqb_spec c "P") as [->|]; cbn [andb].
    + destruct (Ascii.eqb_spec c' "T") as [->|].
      * destruct pre as [|x pre']; [discriminate|].
        inversion Es; subst. now destruct (Hn "" pre').
      * rewrite <- Es. now apply IH.
    + rewrite <- Es. now apply IH.
Qed.

Lemma after_PT_present (a b : string) : after_PT (a ++ "PT" ++ b) <> None.
Proof.
  induction a as [|c a IH]; [discriminate|].
  cbn [append after_PT].
  destruct (a ++ String "P" (String "T" b)) as [|c' s'] eqn:Es.
  - destruct a; discriminate.
  - destruct (Ascii.eqb c "P" && Ascii.eqb c' "T"); [discriminate|].
    rewrite <- Es. exact IH.
Qed.

Lemma no_PT_check (s : string) : after_PT s = None -> no_PT s.
Proof. intros H a b ->. now apply (after_PT_present a b). Qed.

Lemma extractTime_at (s r rest1 rest2 : string) (g1 g2 : option string) :
  after_PT s = Some r ->
  opt_group "H" r = (g1, rest1) ->
  opt_group "M" rest1 = (g2, rest2) ->
  Src.extractTime (VStr s) =
    let hours := match g1 with Some g => parseInt g | None => Finite 0 end in
    let minutes := match g2 with Some g => parseInt g | None => Finite 0 end in
    if num_truthy hours && num_truthy minutes
    then VStr (num_to_string hours ++ "h " ++ num_to_string minutes ++ "min")
    else if num_truthy hours then VStr (num_to_string hours ++ "h")
    else if num_truthy minutes then VStr (num_to_string minutes ++ "min")
    else VStr s.
Proof.
  intros Ha H1 H2. unfold Src.extractTime, match_duration. rewrite Ha, H1, H2.
  destruct s; [discriminate | reflexivity].
Qed.

(** X13: the duration pattern is not anchored: only the hours and the
    minutes that follow the first [PT] of the text are read.  When they are
    not zero, whatever text precedes that [PT] or follows the minutes
    (seconds, for instance) changes nothing: the result is that of the bare
    duration, the two numbers as JavaScript prints them. *)
Theorem X13_duration_surroundings_ignored (pre h m suffix : string) :
  no_PT pre ->
  h <> "" -> m <> "" -> digits h = true -> digits m = true ->
  decimal h <> 0%Z -> decimal m <> 0%Z ->
  Src.extractTime (VStr (pre ++ "PT" ++ h ++ "H" ++ m ++ "M" ++ suffix))
  = Src.extractTime (VStr ("PT" ++ h ++ "H" ++ m ++ "M"))
  /\ Src.extractTime (VStr (pre ++ "PT" ++ m ++ "M" ++ suffix))
     = Src.extractTime (VStr ("PT" ++ m ++ "M"))
  /\ Src.extractTime (VStr ("PT" ++ h ++ "H" ++ m ++ "M"))
     = VStr (rendered (decimal h) ++ "h " ++ rendered (decimal m) ++ "min")
  /\ Src.extractTime (VStr ("PT" ++ m ++ "M")) = VStr (rendered (decimal m) ++ "min").
Proof.
  intros Hn Hh Hm Dh Dm Zh Zm.
  assert (NZ : forall z, z <> 0%Z -> negb (z =? 0)%Z = true).
  { intros z Hz. now destruct (Z.eqb_spec z 0). }
  assert (E2 : Src.extractTime (VStr ("PT" ++ h ++ "H" ++ m ++ "M"))
               = VStr (rendered (decimal h) ++ "h " ++ rendered (decimal m) ++ "min")).
  { now rewrite (extractTime_hours_minutes h m Hh Hm Dh Dm), !NZ. }
  assert (E1 : Src.extractTime (VStr ("PT" ++ m ++ "M"))
               = VStr (rendered (decimal m) ++ "min")).
  { now rewrite (extractTime_minutes m Hm Dm), NZ. }
  split; [|split; [|split; assumption]].
  - rewrite E2.
    rewrite (extractTime_at _ (h ++ "H" ++ m ++ "M" ++ suffix) (m ++ "M" ++ suffix) suffix
               (Some h) (Some m)).
    + cbv zeta. rewrite (parseInt_digits h Hh Dh), (parseInt_digits m Hm Dm).
      now rewrite !nonzero_truthy.
    + now apply after_PT_first.
    + now apply opt_group_hit.
    + now apply opt_group_hit.
  - rewrite E1.
    rewrite (extractTime_at _ (m ++ "M" ++ suffix) (m ++ "M" ++ suffix) suffix
               None (Some m)).
    + cbv zeta. rewrite (parseInt_digits m Hm Dm), (nonzero_truthy _ Zm). reflexivity.
    + now apply after_PT_first.
    + now apply opt_group_other.
    + now apply opt_group_hit.
Qed.

Lemma X13_duration_surroundings_ignored_witness :
  Src.extractTime (VStr "Prep: PT2H30M15S") = Src.extractTime (VStr "PT2H30M")
  /\ Src.extractTime (VStr "Prep: PT30M15S") = Src.extractTime (VStr "PT30M")
  /\ Src.extractTime (VStr "PT2H30M") = VStr "2h 30min"
  /\ Src.extractTime (VStr "PT30M") = VStr "30min".
Proof.
  apply (X13_duration_surroundings_ignored "Prep: " "2" "30" "15S");
    try discriminate; try reflexivity.
  now apply no_PT_check.
Defined.

Lemma no_P_app (a b : string) : no_P (a ++ b) = no_P a && no_P b.
Proof.
  induction a as [|c a IH]; [reflexivity|]. cbn [append no_P].
  now rewrite IH, andb_assoc.
Qed.

Lemma digits_no_P (d : string) : digits d = true -> no_P d = true.
Proof.
  induction d as [|c d IH]; [reflexivity|]. cbn [digits no_P]. intros H.
  apply andb_true_iff in H as [Hc Hd].
  now rewrite (digit_neq c "P" Hc eq_refl), (IH Hd).
Qed.

Lemma after_PT_no_P (s : string) : no_P s = true -> after_PT s = None.
Proof.
  induction s as [|c s IH]; [reflexivity|]. cbn [no_P after_PT]. intros H.
  apply andb_true_iff in H as [Hc Hs]. destruct s as [|c' r]; [reflexivity|].
  destruct (Ascii.eqb c "P"); [discriminate|]. cbn [andb]. now apply IH.
Qed.

(** X15: a duration with a date part is not recognized: in [P..DT..H..M]
    the letters [P] and [T] are apart, the pattern finds no [PT], and the
    text is passed through as it is, hours and minutes included. *)
Theorem X15_day_part_not_parsed (d rest : string) :
  digits d = true -> no_P rest = true ->
  Src.extractTime (VStr ("P" ++ d ++ "DT" ++ rest)) = VStr ("P" ++ d ++ "DT" ++ rest).
Proof.
  intros Hd Hr. apply extractTime_no_match.
  cbn [append after_PT].
  destruct (d ++ String "D" (String "T" rest)) as [|c' s'] eqn:Es; [reflexivity|].
  assert (Hc : Ascii.eqb c' "T" = false).
  { destruct d as [|c0 d0]; inversion Es; subst; [reflexivity|].
    cbn [digits] in Hd. apply andb_true_iff in Hd as [Hc0 _].
    now apply digit_neq. }
  rewrite Hc, andb_false_r. rewrite <- Es. apply after_PT_no_P.
  rewrite no_P_app, (digits_no_P d Hd). cbn [no_P andb]. exact Hr.
Qed.

Lemma X15_day_part_not_parsed_witness :
  Src.extractTime (VStr "P1DT2H30M") = VStr "P1DT2H30M".
Proof.
  apply (X15_day_part_not_parsed "1" "2H30M"); reflexivity.
Defined.

(** ** The title of a structured-data result *)

(** X14: when the first linked-data block of a page is a [Recipe] object
    whose [name] is a non-empty string and whose mapping succeeds, the
    recipe returned is the mapping of that block, its title is that name
    exactly as written (white space included) and its source is the URL
    asked for. *)
Theorem X14_structured_title_verbatim (parse : string -> option value)
        (page : Dom.document) (url : string) (b : Dom.element) (rest : list Dom.element)
        (content : string) (fields : list (string * value)) (name : string)
        (r : partial) :
  Dom.select page Src.jsonLdSelector = b :: rest ->
  Dom.html b = Some content -> content <> "" ->
  parse content = Some (VObj fields) ->
  lookup "@type" fields = VStr "Recipe" ->
  lookup "name" fields = VStr name -> name <> "" ->
  Src.parseJsonLdRecipe (VObj fields) = Ret r ->
  Src.extractRecipeFromUrl parse (Loaded page) url = Ret (Src.accept url r)
  /\ title (Src.accept url r) = VStr name
  /\ sourceUrl (Src.accept url r) = url.
Proof.
  intros Es Eh Hne Ep Et En Hn Er.
  assert (Etitle : p_title r = VStr name).
  { destruct (parseJsonLdRecipe_ret _ r Er) as (E & _). rewrite E. cbn [get].
    now rewrite En. }
  assert (Ej : Src.extractFromJsonLd parse page = Some r).
  { unfold Src.extractFromJsonLd. rewrite Es. cbn [Src.scanScripts].
    assert (E : Src.scanScript parse b = Some r).
    { apply scanScript_yields. exists content, (VObj fields). repeat split; try assumption.
      apply typed_recipe_found; [|exact Er]. cbn [get]. now rewrite Et. }
    now rewrite E. }
  split; [|split; [exact Etitle | reflexivity]].
  rewrite orchestrator_first_usable, Ej. unfold first_usable. cbn [titled].
  rewrite Etitle. cbn [truthy]. now destruct (String.eqb_spec name "").
Qed.

Lemma X14_structured_title_verbatim_witness :
  exists r,
    Src.parseJsonLdRecipe cake = Ret r
    /\ Src.extractRecipeFromUrl parse (Loaded title_only_page) "https://example.com/cake"
       = Ret (Src.accept "https://example.com/cake" r)
    /\ title (Src.accept "https://example.com/cake" r) = VStr "Cake"
    /\ sourceUrl (Src.accept "https://example.com/cake" r) = "https://example.com/cake".
Proof.
  eexists. split; [reflexivity|].
  refine (X14_structured_title_verbatim parse title_only_page "https://example.com/cake"
            (node cake_text) [] cake_text
            [("@type", VStr "Recipe"); ("name", VStr "Cake")] "Cake" _
            eq_refl eq_refl _ eq_refl eq_refl eq_refl _ eq_refl); discriminate.
Defined.

(** ** The client: substrings and lower case *)

Import JSText ClientLaws.

Lemma append_assoc (a b c : string) : (a ++ b) ++ c = a ++ (b ++ c).
Proof. induction a as [|x a IH]; cbn; [reflexivity | now rewrite IH]. Qed.

Lemma prefix_split (sub s : string) :
  prefix sub s = true <-> exists b, s = sub ++ b.
Proof.
  revert s. induction sub as [|c sub IH]; intros s.
  - split; [intros _; now exists s | intros _; now destruct s].
  - destruct s as [|c' s]; cbn.
    + split; [discriminate | intros (b & E); discriminate].
    + destruct (ascii_dec c c') as [->|Hc].
      * rewrite IH. split; intros (b & E); exists b; [now rewrite E | now inversion E].
      * split; [discriminate | intros (b & E); inversion E; congruence].
Qed.

Lemma includes_occurs (s sub : string) :
  includes s sub = true <-> occurs sub s.
Proof.
  induction s as [|c s IH].
  - cbn [includes]. rewrite orb_false_r, prefix_split. split.
    + intros (b & E). now exists "", b.
    + intros (a & b & E). destruct a; [now exists b | discriminate].
  - cbn [includes]. rewrite orb_true_iff, prefix_split, IH. split.
    + intros [(b & E)|(a & b & E)]; [now exists "", b | exists (String c a), b].
      cbn. now rewrite E.
    + intros (a & b & E). destruct a as [|x a]; [left; now exists b|].
      right. inversion E. now exists a, b.
Qed.

Lemma includes_tail (s a b : string) :
  includes s (a ++ b) = true -> includes s b = true.
Proof.
  rewrite !includes_occurs. intros (x & y & E). exists (x ++ a), y.
  now rewrite E, !append_assoc.
Qed.

Lemma lower_idempotent (c : ascii) : lower (lower c) = lower c.
Proof. destruct c as [[] [] [] [] [] [] [] []]; reflexivity. Qed.

Lemma toLowerCase_idempotent (s : string) : toLowerCase (toLowerCase s) = toLowerCase s.
Proof.
  induction s as [|c s IH]; [reflexivity|]. cbn. now rewrite lower_idempotent, IH.
Qed.

Lemma uniq_in (l : list string) (x : string) : In x (uniq l) <-> In x l.
Proof.
  induction l as [|y l IH]; [reflexivity|]. cbn [uniq In].
  rewrite filter_In, IH. split.
  - intros [E|[H _]]; [now left | now right].
  - intros [E|H]; [now left|].
    destruct (String.eqb_spec x y) as [->|Hne]; [now left | right].
    split; [exact H|]. now destruct (String.eqb_spec x y).
Qed.

Lemma NoDup_filter {A : Type} (f : A -> bool) (l : list A) : NoDup l -> NoDup (filter f l).
Proof.
  induction 1 as [|x l Hx _ IH]; cbn; [constructor|].
  destruct (f x); [|exact IH]. constructor; [|exact IH].
  intros H. apply filter_In in H. now destruct Hx.
Qed.

Lemma uniq_NoDup (l : list string) : NoDup (uniq l).
Proof.
  induction l as [|x l IH]; cbn [uniq]; constructor.
  - intros H. apply filter_In in H as [_ H]. now rewrite String.eqb_refl in H.
  - now apply NoDup_filter.
Qed.

(** ** The client: difficulty, emoji and tags *)

(** X16: the inferred difficulty never goes down when a recipe gets more
    instructions and more ingredients; it is [Easy] exactly up to 5
    instructions and 8 ingredients, and [Hard] exactly beyond 10
    instructions or beyond 15 ingredients. *)
Theorem X16_difficulty_monotone (a b : Client.ScrapedRecipe) :
  length (Client.instructions a) <= length (Client.instructions b) ->
  length (Client.ingredients a) <= length (Client.ingredients b) ->
  level (Client.inferDifficulty a) <= level (Client.inferDifficulty b)
  /\ (Client.inferDifficulty a = "Easy" <->
      length (Client.instructions a) <= 5 /\ length (Client.ingredients a) <= 8)
  /\ (Client.inferDifficulty a = "Hard" <->
      10 < length (Client.instructions a) \/ 15 < length (Client.ingredients a)).
Proof.
  intros Hi Hg. unfold Client.inferDifficulty.
  repeat match goal with
         | |- context [(?x <=? ?y)%nat] => destruct (Nat.leb_spec x y)
         end; cbn; repeat split; intros; try lia; try discriminate; try reflexivity;
    intuition (discriminate || lia).
Qed.

Lemma X16_difficulty_monotone_witness :
  level (Client.inferDifficulty
           (Client.mkScrapedRecipe "a" None None None None None None None
                                   ["x"] ["s"] "u" None))
  <= level (Client.inferDifficulty
              (Client.mkScrapedRecipe "b" None None None None None None None
                                      ["x"; "y"] ["s"; "t"; "u"; "v"; "w"; "z"] "u" None)).
Proof.
  refine (proj1 (X16_difficulty_monotone _ _ _ _)); cbn; lia.
Defined.

(** X17: the pancake emoji is never returned: a title that mentions
    pancakes mentions [cake], which is tested first, so it gets the cookie
    or the cupcake emoji. *)
Theorem X17_pancake_emoji_unreachable (title : string) :
  Client.getEmojiForRecipe title <> Client.Pancakes
  /\ (includes (toLowerCase title) "pancake" = true ->
      Client.getEmojiForRecipe title = Client.Cookie
      \/ Client.getEmojiForRecipe title = Client.Cupcake).
Proof.
  unfold Client.getEmojiForRecipe. cbv zeta.
  set (t := toLowerCase title).
  assert (Hp : includes t "pancake" = true -> includes t "cake" = true)
    by apply (includes_tail t "pan" "cake").
  destruct (includes t "cookie"); [split; [discriminate | now left]|].
  destruct (includes t "cake"); cbn [orb]; [split; [discriminate | now right]|].
  destruct (includes t "cupcake"); [split; [discriminate | now right]|].
  destruct (includes t "pancake"); [now specialize (Hp eq_refl)|].
  split; [|discriminate].
  repeat match goal with
         | |- context [if ?b then _ else _] => destruct b
         end; discriminate.
Qed.

(** X18: the tags derived from a title have no duplicate; they depend on
    the title only up to letter case; a title that mentions pancakes is
    tagged as a cake and a dessert as well as a breakfast. *)
Theorem X18_title_tags (title : string) :
  NoDup (Client.extractTagsFromTitle title)
  /\ Client.extractTagsFromTitle (toLowerCase title) = Client.extractTagsFromTitle title
  /\ (includes (toLowerCase title) "pancake" = true ->
      forall tag, In tag ["cake"; "dessert"; "baking"; "breakfast"; "pancakes"] ->
                  In tag (Client.extractTagsFromTitle title)).
Proof.
  unfold Client.extractTagsFromTitle. split; [apply uniq_NoDup|].
  split; [now rewrite toLowerCase_idempotent|].
  intros Hp tag Htag. apply uniq_in. unfold Client.pushedTags.
  rewrite (includes_tail _ "pan" "cake" Hp), Hp. cbn [orb].
  rewrite !in_app_iff. cbn [In] in *. intuition auto.
Qed.

(** ** The client: conversion and import *)

Lemma inferDifficulty_cases (scraped : Client.ScrapedRecipe) :
  In (Client.inferDifficulty scraped) ["Easy"; "Medium"; "Hard"].
Proof.
  unfold Client.inferDifficulty. cbv zeta.
  destruct (_ && _); [now left|]. destruct (_ && _); cbn; auto.
Qed.

(** X19: whatever was scraped, the converted recipe has a number of
    servings that is not 0 (4 when none or 0 was scraped), a difficulty
    that is not empty, never an empty image, the title, ingredients,
    instructions and source of the scraped recipe unchanged; scraped tags
    are kept as they are, even when the list is empty, and tags derived
    from the title, used when none were scraped, have no duplicate. *)
Theorem X19_conversion_defaults (scraped : Client.ScrapedRecipe) :
  Client.r_servings (Client.convertScrapedRecipe scraped) <> 0%Z
  /\ (forall n, Client.servings scraped = Some n -> n <> 0%Z ->
                Client.r_servings (Client.convertScrapedRecipe scraped) = n)
  /\ ((Client.servings scraped = None \/ Client.servings scraped = Some 0%Z) ->
      Client.r_servings (Client.convertScrapedRecipe scraped) = 4%Z)
  /\ Client.r_difficulty (Client.convertScrapedRecipe scraped) <> ""
  /\ Client.r_image (Client.convertScrapedRecipe scraped) <> Client.Picture ""
  /\ Client.r_title (Client.convertScrapedRecipe scraped) = Client.title scraped
  /\ Client.r_ingredients (Client.convertScrapedRecipe scraped) = Client.ingredients scraped
  /\ Client.r_instructions (Client.convertScrapedRecipe scraped) = Client.instructions scraped
  /\ Client.r_sourceUrl (Client.convertScrapedRecipe scraped) = Client.sourceUrl scraped
  /\ (forall t, Client.tags scraped = Some t ->
                Client.r_tags (Client.convertScrapedRecipe scraped) = t)
  /\ (Client.tags scraped = None ->
      NoDup (Client.r_tags (Client.convertScrapedRecipe scraped))).
Proof.
  cbn. repeat split.
  - destruct (Client.servings scraped) as [n|]; [|discriminate].
    destruct (Z.eqb_spec n 0); [discriminate | assumption].
  - intros n -> Hn. now destruct (Z.eqb_spec n 0).
  - intros [->| ->]; reflexivity.
  - unfold Client.text_or.
    assert (Hd : Client.inferDifficulty scraped <> "")
      by (destruct (inferDifficulty_cases scraped) as [<-|[<-|[<-|[]]]]; discriminate).
    destruct (Client.difficulty scraped) as [d|]; [|exact Hd].
    destruct (String.eqb_spec d ""); [exact Hd | assumption].
  - destruct (Client.image scraped) as [i|]; [|discriminate].
    destruct (String.eqb_spec i ""); [discriminate | congruence].
  - now intros t ->.
  - intros ->. unfold Client.extractTagsFromTitle. apply uniq_NoDup.
Qed.

Lemma length_zero_iff {A : Type} (l : list A) : (length l =? 0)%nat = true <-> l = [].
Proof. destruct l; cbn; split; congruence. Qed.

(** X20: the first version of [importFromUrl] returns a recipe exactly when
    the URL is an http(s) URL and the callable answered with a scraped
    recipe that has a title and at least one ingredient, and the recipe is
    then the conversion of that one; the instructions are not looked at, so
    a recipe without any instruction is imported; an invalid URL is refused
    without calling the function. *)
Theorem X20_import_acceptance (URL_protocol : string -> option string)
        (scrapeRecipe : string -> Client.called) (url : string) :
  (forall recipe,
      Client.importFromUrl URL_protocol scrapeRecipe url = Ret recipe <->
      Client.validateUrl URL_protocol url = true
      /\ exists scraped,
          scrapeRecipe url = Client.Answered scraped
          /\ Client.title scraped <> "" /\ Client.ingredients scraped <> []
          /\ recipe = Client.convertScrapedRecipe scraped)
  /\ (forall scraped,
         Client.validateUrl URL_protocol url = true ->
         scrapeRecipe url = Client.Answered scraped ->
         Client.title scraped <> "" -> Client.ingredients scraped <> [] ->
         Client.instructions scraped = [] ->
         exists recipe,
           Client.importFromUrl URL_protocol scrapeRecipe url = Ret recipe
           /\ Client.r_instructions recipe = [])
  /\ (Client.validateUrl URL_protocol url = false ->
      forall other,
        Client.importFromUrl URL_protocol other url = Throw (Error "Invalid URL provided")).
Proof.
  assert (Hok : forall scraped,
             Client.validateUrl URL_protocol url = true ->
             scrapeRecipe url = Client.Answered scraped ->
             Client.title scraped <> "" -> Client.ingredients scraped <> [] ->
             Client.importFromUrl URL_protocol scrapeRecipe url
             = Ret (Client.convertScrapedRecipe scraped)).
  { intros scraped Hv Hs Ht Hi. unfold Client.importFromUrl. rewrite Hv, Hs. cbn [negb].
    destruct (String.eqb_spec (Client.title scraped) ""); [congruence|].
    destruct (Client.ingredients scraped); [congruence | reflexivity]. }
  split; [|split].
  - intros recipe. split.
    + unfold Client.importFromUrl.
      destruct (Client.validateUrl URL_protocol url); [|discriminate]. cbn [negb].
      destruct (scrapeRecipe url) as [scraped| |]; try discriminate.
      destruct (String.eqb_spec (Client.title scraped) "") as [|Ht]; [discriminate|].
      cbn [orb]. destruct (length (Client.ingredients scraped) =? 0)%nat eqn:El;
        [discriminate|].
      intros H. inversion H; subst. split; [reflexivity|]. exists scraped.
      repeat split; [exact Ht|]. intros E. apply length_zero_iff in E. congruence.
    + intros (Hv & scraped & Hs & Ht & Hi & ->). now apply Hok.
  - intros scraped Hv Hs Ht Hi Hn. exists (Client.convertScrapedRecipe scraped).
    split; [now apply Hok | exact Hn].
  - intros Hv other. unfold Client.importFromUrl. now rewrite Hv.
Qed.

Lemma as_strings_of_map (items : list value) (l : list string) :
  as_strings_of items = Some l -> items = map VStr l.
Proof.
  revert l. induction items as [|x items IH]; intros l H.
  - now inversion H.
  - destruct x; try discriminate. cbn in H.
    destruct (as_strings_of items) as [l'|]; [|discriminate].
    inversion H; subst. cbn. now rewrite (IH l' eq_refl).
Qed.

Lemma decode_fields (r : Schema.ScrapedRecipe) (c : Client.ScrapedRecipe) :
  decode r = Some c ->
  title r = VStr (Client.title c)
  /\ ingredients r = VArr (map VStr (Client.ingredients c))
  /\ instructions r = VArr (map VStr (Client.instructions c))
  /\ sourceUrl r = Client.sourceUrl c
  /\ (tags r = VUndef -> Client.tags c = None)
  /\ (forall l, tags r = VArr l ->
                exists t, Client.tags c = Some t /\ l = map VStr t).
Proof.
  unfold decode. intros H.
  destruct (as_string (title r)) as [t|] eqn:Et; [|discriminate].
  destruct (as_optional_string (description r)); [|discriminate].
  destruct (as_optional_string (image r)); [|discriminate].
  destruct (as_optional_string (prepTime r)); [|discriminate].
  destruct (as_optional_string (cookTime r)); [|discriminate].
  destruct (as_optional_string (totalTime r)); [|discriminate].
  destruct (as_optional_number (servings r)); [|discriminate].
  destruct (as_optional_string (difficulty r)); [|discriminate].
  destruct (as_strings (ingredients r)) as [ing|] eqn:Ei; [|discriminate].
  destruct (as_strings (instructions r)) as [ins|] eqn:Es; [|discriminate].
  destruct (as_optional_strings (tags r)) as [tg|] eqn:Eg; [|discriminate].
  inversion H; subst c; cbn. clear H.
  split; [destruct (title r); inversion Et; reflexivity|].
  split; [destruct (ingredients r); try discriminate; cbn in Ei;
          now rewrite (as_strings_of_map _ _ Ei)|].
  split; [destruct (instructions r); try discriminate; cbn in Es;
          now rewrite (as_strings_of_map _ _ Es)|].
  split; [reflexivity|].
  split.
  - intros E. rewrite E in Eg. now inversion Eg.
  - intros l E. rewrite E in Eg. cbn in Eg.
    destruct (as_strings_of l) as [tl|] eqn:El; [|discriminate].
    inversion Eg; subst. exists tl. split; [reflexivity | now apply as_strings_of_map].
Qed.

(** X21: the callable function and the first client together.  When the
    function returns a recipe that fits the client's interface: if its
    ingredient list is empty the client refuses it, instructions or not,
    with its unable-to-extract error; otherwise the client imports it, with
    the title and the URL of the reply, a number of servings that is not 0,
    the tags of the reply when it has some (structured data) and tags
    derived from the title when it has none (microdata, selectors). *)
Theorem X21_function_then_client
        (URL_protocol : string -> option string) (parse : string -> option value)
        (fetch : string -> fetched) (platform_message : exn -> string)
        (scrapeRecipe : string -> Client.called)
        (u : string) (r : Schema.ScrapedRecipe) (c : Client.ScrapedRecipe) :
  Handler.scrapeRecipeV2 URL_protocol parse fetch platform_message (Handler.Data (Some u))
  = Handler.Recipe r ->
  decode r = Some c ->
  scrapeRecipe u = Client.Answered c ->
  (ingredients r = VArr [] ->
   Client.importFromUrl URL_protocol scrapeRecipe u = Throw (Error Client.unableMessage))
  /\ (non_empty (ingredients r) ->
      exists recipe,
        Client.importFromUrl URL_protocol scrapeRecipe u = Ret recipe
        /\ title r = VStr (Client.r_title recipe)
        /\ Client.r_sourceUrl recipe = u
        /\ Client.r_servings recipe <> 0%Z
        /\ (tags r = VUndef ->
            Client.r_tags recipe = Client.extractTagsFromTitle (Client.r_title recipe))
        /\ (forall l, tags r = VArr l -> l = map VStr (Client.r_tags recipe))).
Proof.
  intros Hh Hd Hs.
  destruct (handler_success_facts URL_protocol parse platform_message fetch _ r Hh)
    as (u' & page & Eu & Hne & Hp & _ & Hsrc & Ht).
  injection Eu as <-.
  destruct (decode_fields r c Hd) as (Et & Ei & En & Eu & Eg0 & Eg1).
  assert (Hv : Client.validateUrl URL_protocol u = true).
  { unfold Client.validateUrl. destruct Hp as [-> | ->]; reflexivity. }
  assert (Htitle : Client.title c <> "").
  { rewrite Et in Ht. cbn in Ht. now apply non_empty_iff. }
  split.
  - intros E. rewrite Ei in E. unfold Client.importFromUrl. rewrite Hv, Hs. cbn [negb].
    destruct (Client.ingredients c); [|discriminate]. cbn. now rewrite orb_true_r.
  - intros (x & rest & E). rewrite Ei in E.
    assert (Hi : Client.ingredients c <> []) by (destruct (Client.ingredients c); discriminate).
    exists (Client.convertScrapedRecipe c). split.
    + unfold Client.importFromUrl. rewrite Hv, Hs. cbn [negb].
      destruct (String.eqb_spec (Client.title c) ""); [congruence|].
      destruct (Client.ingredients c); [congruence | reflexivity].
    + cbn. split; [exact Et|]. split; [congruence|]. split.
      * destruct (Client.servings c) as [n|]; [|discriminate].
        destruct (Z.eqb_spec n 0); [discriminate | assumption].
      * split.
        -- intros E0. now rewrite (Eg0 E0).
        -- intros l El. destruct (Eg1 l El) as (t & -> & ->). reflexivity.
Qed.

Lemma X21_function_then_client_witness :
  exists r c,
    Handler.scrapeRecipeV2 (fun _ => Some "https:") parse (fun _ => Loaded title_only_page)
                           (fun _ => "") (Handler.Data (Some "https://example.com/cake"))
    = Handler.Recipe r
    /\ decode r = Some c
    /\ Client.importFromUrl (fun _ => Some "https:") (fun _ => Client.Answered c)
                            "https://example.com/cake"
       = Throw (Error Client.unableMessage).
Proof.
  eexists. eexists. split; [reflexivity|]. split; [reflexivity|].
  refine (proj1 (X21_function_then_client (fun _ => Some "https:") parse
                   (fun _ => Loaded title_only_page) (fun _ => "") _
                   "https://example.com/cake" _ _ eq_refl eq_refl eq_refl) eq_refl).
Defined.

(** ** The client with retries: classification of errors *)

Lemma strict_eq_str_spec (v : value) (s : string) :
  strict_eq_str v s = true <-> v = VStr s.
Proof.
  destruct v; cbn; try (split; [discriminate | intros H; discriminate]).
  destruct (String.eqb_spec s0 s); split; congruence.
Qed.

Lemma messageOf_not_empty (error : ClientRetry.caught) :
  ClientRetry.messageOf error <> "".
Proof.
  destruct error as [|name message code]; [discriminate|]. cbn.
  destruct (String.eqb_spec message "") as [->|H]; cbn [negb]; [|exact H].
  destruct (String.eqb_spec (ClientRetry.errorToString name "") "") as [E|H]; cbn [negb];
    [discriminate | exact H].
Qed.

Ltac classify :=
  unfold ClientRetry.parseError; cbv zeta;
  repeat match goal with
         | |- context [if ?b then _ else _] => destruct b eqn:?
         end.

Lemma parseError_codes (error : ClientRetry.caught) :
  (ClientRetry.canRetry (ClientRetry.parseError error) = true
   /\ In (ClientRetry.code (ClientRetry.parseError error)) retryable_codes)
  \/ (ClientRetry.canRetry (ClientRetry.parseError error) = false
      /\ In (ClientRetry.code (ClientRetry.parseError error)) final_codes).
Proof.
  classify; cbn; first [left; split; [reflexivity|]; tauto
                       | right; split; [reflexivity|]; tauto].
Qed.

Lemma codes_apart (c : string) : In c retryable_codes -> In c final_codes -> False.
Proof.
  cbn. intros [<-|[<-|[<-|[<-|[]]]]] H;
    repeat (destruct H as [H|H]; [discriminate|]); exact H.
Qed.

(** X22: [parseError] answers with one of eleven codes, and the code alone
    tells whether a retry is allowed: it is for a timeout, an unknown code,
    a network error and the default, and for nothing else; an error object
    that carries any code is never classified by its message as a network
    error; the four codes about the content of the page are given exactly
    to errors whose code is [invalid-argument]; the message shown is never
    empty. *)
Theorem X22_error_classification (error : ClientRetry.caught) :
  (ClientRetry.canRetry (ClientRetry.parseError error) = true <->
   In (ClientRetry.code (ClientRetry.parseError error)) retryable_codes)
  /\ (ClientRetry.canRetry (ClientRetry.parseError error) = false <->
      In (ClientRetry.code (ClientRetry.parseError error)) final_codes)
  /\ (truthy (ClientRetry.codeOf error) = true ->
      ClientRetry.code (ClientRetry.parseError error) <> "NETWORK_ERROR"
      /\ ClientRetry.code (ClientRetry.parseError error) <> "IMPORT_FAILED")
  /\ (In (ClientRetry.code (ClientRetry.parseError error))
         ["NO_RECIPE_FOUND"; "MISSING_INSTRUCTIONS"; "MISSING_INGREDIENTS"; "INVALID_RECIPE"]
      <-> ClientRetry.codeOf error = VStr "invalid-argument")
  /\ ClientRetry.message (ClientRetry.parseError error) <> "".
Proof.
  split; [|split; [|split; [|split]]].
  - destruct (parseError_codes error) as [[Hc Hi]|[Hc Hi]]; split; intros H;
      try assumption; try congruence.
    destruct (codes_apart _ H Hi).
  - destruct (parseError_codes error) as [[Hc Hi]|[Hc Hi]]; split; intros H;
      try assumption; try congruence.
    destruct (codes_apart _ Hi H).
  - intros Ht. unfold ClientRetry.parseError. cbv zeta. rewrite Ht.
    repeat match goal with
           | |- context [if ?b then _ else _] => destruct b
           end; cbn; split; discriminate.
  - unfold ClientRetry.parseError. cbv zeta.
    destruct (truthy (ClientRetry.codeOf error)) eqn:Ht.
    + destruct (strict_eq_str (ClientRetry.codeOf error) "unauthenticated") eqn:E1;
        [apply strict_eq_str_spec in E1; rewrite E1; cbn;
         split; [intuition discriminate | discriminate]|].
      destruct (strict_eq_str (ClientRetry.codeOf error) "resource-exhausted") eqn:E2;
        [apply strict_eq_str_spec in E2; rewrite E2; cbn;
         split; [intuition discriminate | discriminate]|].
      destruct (strict_eq_str (ClientRetry.codeOf error) "invalid-argument") eqn:E3.
      * apply strict_eq_str_spec in E3. split; [intros _; exact E3 | intros _].
        repeat match goal with
               | |- context [if ?b then _ else _] => destruct b
               end; cbn; tauto.
      * assert (Hn : ClientRetry.codeOf error <> VStr "invalid-argument").
        { intros E. apply strict_eq_str_spec in E. congruence. }
        repeat match goal with
               | |- context [if ?b then _ else _] => destruct b
               end; cbn; split; try (intros E; now destruct (Hn E));
          intuition discriminate.
    + assert (Hn : ClientRetry.codeOf error <> VStr "invalid-argument").
      { intros E. rewrite E in Ht. discriminate. }
      repeat match goal with
             | |- context [if ?b then _ else _] => destruct b
             end; cbn; split; try (intros E; now destruct (Hn E));
        intuition discriminate.
  - unfold ClientRetry.parseError. cbv zeta.
    pose proof (messageOf_not_empty error) as Hm.
    repeat match goal with
           | |- context [if ?b then _ else _] => destruct b
           end; cbn; try discriminate; exact Hm.
Qed.

(** ** The client with retries: waiting and giving up *)

Lemma backoff_bounds (attempt : nat) :
  1 <= attempt -> (1000 <= ClientRetry.backoff attempt <= 5000)%Z.
Proof.
  intros H. unfold ClientRetry.backoff.
  assert (0 < 2 ^ (Z.of_nat attempt - 1))%Z by (apply Z.pow_pos_nonneg; lia).
  lia.
Qed.

Lemma backoff_range (attempt : nat) : (0 <= ClientRetry.backoff attempt <= 5000)%Z.
Proof.
  unfold ClientRetry.backoff.
  assert (0 <= 2 ^ (Z.of_nat attempt - 1))%Z by (apply Z.pow_nonneg; lia).
  lia.
Qed.

(** X23: the wait before a further attempt is 1000 ms after the first
    attempt, doubles with each attempt and is capped at 5000 ms: it lies
    between 1000 and 5000, never decreases from one attempt to the next,
    and is 5000 from the fourth attempt on. *)
Theorem X23_backoff_schedule (a b : nat) :
  1 <= a -> a <= b ->
  (1000 <= ClientRetry.backoff a <= 5000)%Z
  /\ (ClientRetry.backoff a <= ClientRetry.backoff b)%Z
  /\ (a <= 3 -> ClientRetry.backoff a = (1000 * 2 ^ (Z.of_nat a - 1))%Z)
  /\ (4 <= a -> ClientRetry.backoff a = 5000%Z).
Proof.
  intros Ha Hab. split; [now apply backoff_bounds|].
  unfold ClientRetry.backoff. split; [|split].
  - assert (2 ^ (Z.of_nat a - 1) <= 2 ^ (Z.of_nat b - 1))%Z
      by (apply Z.pow_le_mono_r; lia).
    lia.
  - intros H3. assert (E : a = 1 \/ a = 2 \/ a = 3) by lia.
    destruct E as [->|[->| ->]]; reflexivity.
  - intros H4.
    assert (2 ^ 3 <= 2 ^ (Z.of_nat a - 1))%Z by (apply Z.pow_le_mono_r; lia).
    change (2 ^ 3)%Z with 8%Z in *. lia.
Qed.

Lemma X23_backoff_schedule_witness :
  ClientRetry.backoff 1 = 1000%Z /\ ClientRetry.backoff 2 = 2000%Z
  /\ ClientRetry.backoff 3 = 4000%Z /\ ClientRetry.backoff 4 = 5000%Z.
Proof.
  pose proof (X23_backoff_schedule 1 2 (le_n 1) (le_S _ _ (le_n 1))) as H.
  repeat split; reflexivity.
Defined.

Lemma parseError_not_exceeded (error : ClientRetry.caught) :
  ClientRetry.code (ClientRetry.parseError error) <> "MAX_RETRIES_EXCEEDED".
Proof.
  destruct (parseError_codes error) as [[_ H]|[_ H]]; intros E; rewrite E in H;
    cbn in H; repeat (destruct H as [H|H]; [discriminate|]); exact H.
Qed.

Lemma le_limit_turns (attempt : nat) (maxRetries : ClientRetry.limit) :
  maxRetries <> ClientRetry.Infinity false -> 1 <= attempt ->
  ClientRetry.le_limit attempt maxRetries = (attempt <=? turns maxRetries)%nat.
Proof.
  intros Hfin Ha. destruct maxRetries as [|z|z|[|]]; cbn [ClientRetry.le_limit turns negb].
  - symmetry. apply Nat.leb_gt. lia.
  - destruct (Z.leb_spec (Z.of_nat attempt) z); symmetry;
      [apply Nat.leb_le | apply Nat.leb_gt]; lia.
  - destruct (Z.leb_spec (Z.of_nat attempt) z); symmetry;
      [apply Nat.leb_le | apply Nat.leb_gt]; lia.
  - symmetry. apply Nat.leb_gt. lia.
  - congruence.
Qed.

(** The turns before one that the loop condition allows. *)
Lemma before_limit (i k : nat) (maxRetries : ClientRetry.limit) :
  i < k -> ClientRetry.le_limit k maxRetries = true ->
  ClientRetry.le_limit i maxRetries = true
  /\ ClientRetry.eq_limit i maxRetries = false
  /\ ClientRetry.lt_limit i maxRetries = true.
Proof.
  intros Hik Hk.
  destruct maxRetries as [|z|z|[|]];
    cbn [ClientRetry.le_limit ClientRetry.eq_limit ClientRetry.lt_limit negb] in *;
    try discriminate; try (repeat split; reflexivity).
  - apply Z.leb_le in Hk. repeat split.
    + apply Z.leb_le. lia.
    + apply Z.eqb_neq. lia.
    + apply Z.ltb_lt. lia.
  - apply Z.leb_le in Hk. repeat split; apply Z.leb_le; lia.
Qed.

Section RetryFacts.

Variable attemptImport : nat -> ClientRetry.attempted.
Variable maxRetries : ClientRetry.limit.

Hypothesis bounded : maxRetries <> ClientRetry.Infinity false.

(** With [maxRetries] anything but the positive infinity, the loop ends
    within the turns it allows. *)
Lemma retryLoop_invariants (fuel attempt : nat) :
  1 <= attempt -> attempt <= S (turns maxRetries) ->
  turns maxRetries + 2 <= fuel + attempt ->
  exists result events,
    ClientRetry.retryLoop attemptImport maxRetries fuel attempt = Some (result, events)
    /\ attempt + attempts_made events <= S (turns maxRetries)
    /\ (0 <= time_waited events <= 5000 * Z.of_nat (S (turns maxRetries) - attempt))%Z
    /\ (forall z, maxRetries = ClientRetry.Whole z -> attempt <= turns maxRetries ->
                  (time_waited events <= 5000 * Z.of_nat (turns maxRetries - attempt))%Z)
    /\ ((exists e, result = ClientRetry.Failure e
                   /\ ClientRetry.code e = "MAX_RETRIES_EXCEEDED")
        <-> ((forall i, attempt <= i <= turns maxRetries -> fails_retryably attemptImport i)
             /\ (forall z, maxRetries = ClientRetry.Whole z -> (z < Z.of_nat attempt)%Z))).
Proof.
  revert attempt. induction fuel as [|later IH]; intros attempt H1 Hup Hfuel; [lia|].
  cbn [ClientRetry.retryLoop]. rewrite (le_limit_turns attempt maxRetries bounded H1).
  destruct (Nat.leb_spec attempt (turns maxRetries)) as [Hle|Hgt]; cbn [negb].
  - destruct (attemptImport attempt) as [recipe|error] eqn:Ea.
    + eexists _, _. split; [reflexivity|].
      unfold attempts_made, time_waited. cbn [filter fold_right length].
      split; [lia|]. split; [lia|]. split; [intros; lia|]. split.
      * intros (e & He & _). discriminate.
      * intros [Hall _]. destruct (Hall attempt) as (e & He & _); [lia|]. congruence.
    + destruct (negb (ClientRetry.canRetry (ClientRetry.parseError error))
                || ClientRetry.eq_limit attempt maxRetries) eqn:Estop.
      * eexists _, _. split; [reflexivity|].
        unfold attempts_made, time_waited. cbn [filter fold_right length].
        split; [lia|]. split; [lia|]. split; [intros; lia|]. split.
        -- intros (e & He & Hc). inversion He; subst.
           now destruct (parseError_not_exceeded error).
        -- intros [Hall Hz]. apply orb_true_iff in Estop as [Hno|Heq].
           ++ destruct (Hall attempt) as (e & He & Hr); [lia|].
              rewrite Ea in He. inversion He; subst.
              rewrite Hr in Hno. discriminate.
           ++ destruct maxRetries as [|z|z|negative]; cbn in Heq; try discriminate.
              apply Z.eqb_eq in Heq. specialize (Hz z eq_refl). lia.
      * apply orb_false_iff in Estop as [Hre Hne].
        apply negb_false_iff in Hre.
        destruct (IH (S attempt)) as (result & events & El & Hn & Ht & Hw & Hmax);
          [lia | lia | lia |].
        rewrite El. eexists _, _. split; [reflexivity|].
        pose proof (backoff_range attempt) as Hb.
        assert (Hz1 : Z.of_nat (S (turns maxRetries) - attempt)
                      = (1 + Z.of_nat (S (turns maxRetries) - S attempt))%Z) by lia.
        split; [|split; [|split; [|split]]].
        -- unfold attempts_made in *.
           destruct (ClientRetry.lt_limit attempt maxRetries);
             cbn [app filter length] in *; lia.
        -- rewrite Hz1. unfold time_waited in *.
           destruct (ClientRetry.lt_limit attempt maxRetries);
             cbn [app fold_right] in *; lia.
        -- intros z Ez _. assert (Hlt : S attempt <= turns maxRetries).
           { subst maxRetries. cbn [ClientRetry.eq_limit turns] in *.
             apply Z.eqb_neq in Hne. lia. }
           specialize (Hw z Ez Hlt).
           assert (Hz2 : Z.of_nat (turns maxRetries - attempt)
                         = (1 + Z.of_nat (turns maxRetries - S attempt))%Z) by lia.
           rewrite Hz2. unfold time_waited in *.
           destruct (ClientRetry.lt_limit attempt maxRetries);
             cbn [app fold_right] in *; lia.
        -- intros Hx. apply Hmax in Hx as [Hall Hz]. split.
           ++ intros i Hi. destruct (Nat.eq_dec i attempt) as [->|Hni].
              ** now exists error.
              ** apply Hall. lia.
           ++ intros z Ez. specialize (Hz z Ez). subst maxRetries.
              cbn [ClientRetry.eq_limit turns] in *. apply Z.eqb_neq in Hne. lia.
        -- intros [Hall Hz]. apply Hmax. split.
           ++ intros i Hi. apply Hall. lia.
           ++ intros z Ez. specialize (Hz z Ez). lia.
  - eexists _, _. split; [reflexivity|].
    unfold attempts_made, time_waited. cbn [filter fold_right length].
    split; [lia|]. split; [lia|]. split; [intros; lia|]. split.
    + intros _. split.
      * intros i Hi. lia.
      * intros z Ez. subst maxRetries. cbn [turns] in Hgt. lia.
    + intros _. eexists. split; reflexivity.
Qed.

End RetryFacts.



Section RetryRuns.

Variable attemptImport : nat -> ClientRetry.attempted.
Variable maxRetries : ClientRetry.limit.

(** Attempts that fail with an error after which a retry is allowed. *)
Lemma retryLoop_skips (j fuel attempt : nat) (result : ClientRetry.ImportResult)
      (events : list ClientRetry.event) :
  ClientRetry.le_limit (attempt + j) maxRetries = true ->
  (forall i, attempt <= i < attempt + j -> fails_retryably attemptImport i) ->
  ClientRetry.retryLoop attemptImport maxRetries fuel (attempt + j) = Some (result, events) ->
  exists events',
    ClientRetry.retryLoop attemptImport maxRetries (j + fuel) attempt = Some (result, events')
    /\ attempts_made events' = j + attempts_made events
    /\ time_waited events' = (backoff_sum attempt j + time_waited events)%Z.
Proof.
  revert attempt. induction j as [|j IH]; intros attempt Hk Hfail Hlast.
  - rewrite Nat.add_0_r in Hlast. exists events. cbn [backoff_sum Nat.add].
    split; [exact Hlast|]. split; [reflexivity | lia].
  - destruct (Hfail attempt) as (e & Ee & Hr); [lia|].
    destruct (before_limit attempt (attempt + S j) maxRetries) as (Hle & Hne & Hlt);
      [lia | exact Hk |].
    replace (attempt + S j) with (S attempt + j) in * by lia.
    destruct (IH (S attempt) Hk) as (ev & El & Ha & Ht).
    { intros i Hi. apply Hfail. lia. }
    { exact Hlast. }
    cbn [Nat.add ClientRetry.retryLoop]. rewrite Hle, Ee, Hr, Hne, Hlt, El. cbn [negb orb].
    eexists. split; [reflexivity|].
    unfold attempts_made, time_waited in *.
    cbn [app filter fold_right length backoff_sum] in *. split; lia.
Qed.

End RetryRuns.


